(** * NCP: neural conditional probability operators

    A shallow embedding of the Python sources of the repository
    (model.py, nn/layers.py, cde_fork/density_simulation/symmGMM.py and
    the two benchmark drivers) together with the properties established
    about them.

    Numerical code is embedded once, over an interface [Arith] of
    arithmetic operations, and read at two instances: the real numbers
    (exact arithmetic, for the algebraic statements) and IEEE-754
    binary64 as specified by [SpecFloat] (for statements about
    infinities and NaN).  Python exceptions are values of [result]. *)

From Stdlib Require Import Reals Lra Lia ZArith.
From Stdlib Require Import Floats.SpecFloat.
From stdpp Require Import gmap strings list fin_maps.

(* ###################################################################### *)
(** * Part I: the embedding *)
(* ###################################################################### *)

(** ** Python exceptions *)

Module Py.

Inductive exn : Type :=
| NameError (name : string)
| NotImplementedError (msg : string)
| AssertionError (msg : string)
| TypeError (msg : string)
| ValueError (msg : string)
| ZeroDivisionError (msg : string)
| IndexError (msg : string)
| AttributeError (msg : string).

(** The outcome of running a statement or a call: a value, or a raised
    exception that unwinds to the caller. *)
Inductive result (A : Type) : Type :=
| Return (a : A)
| Raise (e : exn).

Arguments Return {A} a.
Arguments Raise {A} e.

Definition bind {A B} (r : result A) (k : A -> result B) : result B :=
  match r with
  | Return a => k a
  | Raise e => Raise e
  end.

Definition map {A B} (f : A -> B) (r : result A) : result B :=
  match r with
  | Return a => Return (f a)
  | Raise e => Raise e
  end.

End Py.

#[global] Instance result_ret : MRet Py.result := @Py.Return.
#[global] Instance result_bind : MBind Py.result := fun A B k r => Py.bind r k.

(** ** Arithmetic *)

(** The scalar operations the numerical code uses.  [of_nat] is the
    conversion of a Python [int] (a count of rows) to a float. *)
Class Arith (F : Type) : Type := {
  zero : F;
  one : F;
  add : F -> F -> F;
  sub : F -> F -> F;
  mul : F -> F -> F;
  div : F -> F -> F;
  neg : F -> F;
  abs : F -> F;
  sqrt : F -> F;
  exp : F -> F;
  ltb : F -> F -> bool;
  leb : F -> F -> bool;
  of_nat : nat -> F
}.

Declare Scope arith_scope.
Delimit Scope arith_scope with A.
Infix "+" := add : arith_scope.
Infix "-" := sub : arith_scope.
Infix "*" := mul : arith_scope.
Infix "/" := div : arith_scope.
Notation "- x" := (neg x) : arith_scope.

(** Exact arithmetic: the real numbers. *)
#[global] Instance R_arith : Arith R := {|
  zero := 0%R;
  one := 1%R;
  add := Rplus;
  sub := Rminus;
  mul := Rmult;
  div := Rdiv;
  neg := Ropp;
  abs := Rabs;
  sqrt := R_sqrt.sqrt;
  exp := Rtrigo_def.exp;
  ltb := fun x y => if Rlt_dec x y then true else false;
  leb := fun x y => if Rle_dec x y then true else false;
  of_nat := INR
|}.

(** IEEE-754 binary64 (a [numpy.float64]), rounding to nearest even.
    The exponential comes from the platform's mathematical library and is
    a parameter. *)
Definition f64_nan : spec_float := S754_nan.
Definition f64_of_nat (n : nat) : spec_float :=
  binary_normalize 53 1024 (Z.of_nat n) 0 false.

Definition f64_arith (libm_exp : spec_float -> spec_float) : Arith spec_float := {|
  zero := S754_zero false;
  one := f64_of_nat 1;
  add := SFadd 53 1024;
  sub := SFsub 53 1024;
  mul := SFmul 53 1024;
  div := SFdiv 53 1024;
  neg := SFopp;
  abs := SFabs;
  sqrt := SFsqrt 53 1024;
  exp := libm_exp;
  ltb := SFltb;
  leb := SFleb;
  of_nat := f64_of_nat
|}.



(** ** Arrays *)

(** A one-dimensional array is a list, a two-dimensional array the list
    of its rows.  The operations are those of numpy and torch on arrays of
    matching shapes; on mismatched shapes, where the libraries raise, the
    list operations truncate, and the statements below carry the shapes as
    hypotheses.  Sums add from left to right. *)

Module Np.
Section Arrays.
Context {F : Type} `{Arith F}.
Local Open Scope arith_scope.

(** [A.shape[-1]] of a two-dimensional array with at least one row. *)
Definition shape1 (A : list (list F)) : nat :=
  match A with
  | [] => 0
  | r :: _ => length r
  end.

Definition zeros (n : nat) : list F := replicate n zero.
Definition ones (n : nat) : list F := replicate n one.

(** [np.sum] of a one-dimensional array. *)
Definition sum (v : list F) : F := foldl add zero v.

(** [np.mean] of a one-dimensional array. *)
Definition mean (v : list F) : F := sum v / of_nat (length v).

(** [A.ravel()] *)
Definition ravel (A : list (list F)) : list F := concat A.

(** [np.mean(A)], over all entries. *)
Definition mean_all (A : list (list F)) : F := mean (ravel A).

(** Column [j] of [A]. *)
Definition col (j : nat) (A : list (list F)) : list F :=
  map (fun r => nth j r zero) A.

(** [A.T] *)
Definition transpose (A : list (list F)) : list (list F) :=
  map (fun j => col j A) (seq 0 (shape1 A)).

(** [np.mean(A, axis=0)] *)
Definition mean_axis0 (A : list (list F)) : list F := map mean (transpose A).

(** [A.mean(axis=-1)] and [np.sum(A, axis=-1)] *)
Definition mean_axis_last (A : list (list F)) : list F := map mean A.
Definition sum_axis_last (A : list (list F)) : list F := map sum A.

(** [A.sum(axis=0)] of an array of width [c]; with no row the sum is
    [zeros(c)]. *)
Definition sum_axis0 (c : nat) (A : list (list F)) : list F :=
  foldl (zip_with add) (zeros c) A.

(** [np.outer(a, b)] of one-dimensional arrays. *)
Definition outer (a b : list F) : list (list F) :=
  map (fun x => map (fun y => x * y) b) a.

(** Elementwise [A * B] of arrays of one shape. *)
Definition mul_mm (A B : list (list F)) : list (list F) :=
  zip_with (zip_with mul) A B.

Definition sub_mm (A B : list (list F)) : list (list F) :=
  zip_with (zip_with sub) A B.

Definition add_mm (A B : list (list F)) : list (list F) :=
  zip_with (zip_with add) A B.

(** [v * A] and [A * v]: the one-dimensional [v] is broadcast along the
    rows of [A]. *)
Definition mul_vm (v : list F) (A : list (list F)) : list (list F) :=
  map (fun r => zip_with mul v r) A.

Definition mul_mv (A : list (list F)) (v : list F) : list (list F) :=
  map (fun r => zip_with mul r v) A.

Definition div_mv (A : list (list F)) (v : list F) : list (list F) :=
  map (fun r => zip_with div r v) A.

(** A row vector (an array of shape [(1, c)]) subtracted from every row. *)
Definition sub_mrow (A : list (list F)) (row : list (list F)) : list (list F) :=
  map (fun r => zip_with sub r (hd [] row)) A.

(** [c * A], [A * c] and [A / c] for a scalar [c]. *)
Definition scale (c : F) (A : list (list F)) : list (list F) :=
  map (map (fun x => c * x)) A.

Definition mul_ms (A : list (list F)) (c : F) : list (list F) :=
  map (map (fun x => x * c)) A.

Definition div_ms (A : list (list F)) (c : F) : list (list F) :=
  map (map (fun x => x / c)) A.

Definition dot (u v : list F) : F := sum (zip_with mul u v).

(** [A @ v] for a one-dimensional [v]. *)
Definition matvec (A : list (list F)) (v : list F) : list F :=
  map (fun r => dot r v) A.

(** [A @ B] *)
Definition matmul (A B : list (list F)) : list (list F) :=
  map (fun r => map (fun j => dot r (col j B)) (seq 0 (shape1 B))) A.

(** [torch.eye(n)] *)
Definition eye (n : nat) : list (list F) :=
  map (fun i => map (fun j => if decide (i = j) then one else zero) (seq 0 n)) (seq 0 n).

(** [torch.diag(v)] of a one-dimensional [v]. *)
Definition diag (v : list F) : list (list F) :=
  imap (fun i x => map (fun j => if decide (i = j) then x else zero) (seq 0 (length v))) v.

(** [torch.trace(A)] *)
Definition trace (A : list (list F)) : F :=
  sum (imap (fun i r => nth i r zero) A).

(** [torch.matrix_power(A, k)] for [k >= 1]. *)
Fixpoint matrix_power (A : list (list F)) (k : nat) : list (list F) :=
  match k with
  | 0 => eye (length A)
  | 1 => A
  | S k' => matmul (matrix_power A k') A
  end.

(** [L.max()] of a non-empty one-dimensional array. *)
Definition max (v : list F) : F :=
  match v with
  | [] => zero
  | x :: v' => foldl (fun m y => if ltb m y then y else m) x v'
  end.

(** Boolean-mask indexing [A[mask]] along the first axis. *)
Fixpoint select {A : Type} (mask : list bool) (l : list A) : list A :=
  match mask, l with
  | b :: mask', x :: l' => if b then x :: select mask' l' else select mask' l'
  | _, _ => []
  end.

(** [mask.mean()]: the booleans are summed as floats. *)
Definition mean_bool (mask : list bool) : F :=
  mean (map (fun b : bool => if b then one else zero) mask).

(** Entry [(i, j)] of a two-dimensional array, and the finite sum
    [f 0 + ... + f (n - 1)], in which the statements are written. *)
Definition entry (A : list (list F)) (i j : nat) : F := nth j (nth i A []) zero.

Definition bigsum (n : nat) (f : nat -> F) : F := sum (map f (seq 0 n)).

(** Reshaping a flat list into rows of width [c]. *)
Fixpoint reshape (rows c : nat) (v : list F) : list (list F) :=
  match rows with
  | 0 => []
  | S rows' => take c v :: reshape rows' c (drop c v)
  end.

(** [np.cumsum] of a one-dimensional array: entry [k] is the sum of the
    entries up to [k], added from left to right. *)
Fixpoint cumsum_from (acc : F) (v : list F) : list F :=
  match v with
  | [] => []
  | x :: v' => (acc + x) :: cumsum_from (acc + x) v'
  end.

Definition cumsum (v : list F) : list F :=
  match v with
  | [] => []
  | x :: v' => x :: cumsum_from x v'
  end.

End Arrays.
End Np.

(** ** nn/layers.py *)

Module Layers.
Section Layers.
Context {F : Type} `{Arith F}.
Local Open Scope arith_scope.

(** *** SingularLayer *)

(** [forward]: [x * torch.exp(-self.weights**2)] *)
Definition SingularLayer_forward (weights : list F) (x : list (list F)) : list (list F) :=
  Np.mul_mv x (map (fun w => exp (- (w * w))) weights).

(** *** IterativeWhitening *)

(** The attributes of a layer: the four that [__init__] assigns and the
    two buffers it goes on to register. *)
Record IterativeWhitening : Type := {
  input_size : nat;
  newton_iterations : nat;
  eps : F;
  momentum : F;
  running_mean : list (list F);
  running_whitening_mat : list (list F)
}.

(** [torch.nn.Module.register_buffer]: the table of buffers is created
    by [Module.__init__], and registering on an object that has none is
    refused. *)
Definition register_buffer (module_initialised : bool) (tensor : list (list F))
    : Py.result (list (list F)) :=
  if module_initialised then Py.Return tensor
  else Py.Raise (Py.AttributeError "cannot assign buffer before Module.__init__() call").

(** [__init__] assigns the four plain attributes and registers the two
    buffers.  It does not call [super().__init__()], so the object has no
    table of buffers when the first one is registered. *)
Definition __init__ (input_size newton_iterations : nat) (eps momentum : F)
    : Py.result IterativeWhitening :=
  let module_initialised := false in
  running_mean ← register_buffer module_initialised [Np.zeros input_size];
  running_whitening_mat ←
    register_buffer module_initialised (replicate input_size (Np.zeros input_size));
  mret {|
    input_size := input_size;
    newton_iterations := newton_iterations;
    eps := eps;
    momentum := momentum;
    running_mean := running_mean;
    running_whitening_mat := running_whitening_mat
  |}.

(** The Python values that flow between the three methods. *)
#[warnings="-register-all"]
Inductive value : Type :=
| VTensor (t : list (list F))
| VInt (z : Z)
| VTuple (items : list value)
| VBoundMethod (name : string)
| VException (e : Py.exn).

(** [a == b]: integers compare by value; a bound method of a tensor is
    equal to no integer. *)
Definition py_eq (a b : value) : bool :=
  match a, b with
  | VInt x, VInt y => bool_decide (x = y)
  | _, _ => false
  end.

(** [X.dim]: the attribute, not a call of it. *)
Definition Tensor_dim (X : list (list F)) : value := VBoundMethod "dim".

(** [torch.cov(X.T, correction=0)] *)
Definition cov (X : list (list F)) : list (list F) :=
  let Xc := Np.sub_mrow X [Np.mean_axis0 X] in
  Np.div_ms (Np.matmul (Np.transpose Xc) Xc) (of_nat (length X)).

Definition shape_mismatch : string :=
  "The feature dimension of the input tensor does not match the input_size attribute".

(** [debug] is Python's [__debug__]: [assert] statements run unless the
    interpreter was started with [-O]. *)
Definition _compute_whitening_matrix (debug : bool) (self : IterativeWhitening)
    (X : list (list F)) : Py.result value :=
  if debug && negb (py_eq (Tensor_dim X) (VInt 2))
  then Py.Raise (Py.AssertionError "Only supporting 2D Tensors")
  else if negb (bool_decide (Np.shape1 X = input_size self))
  then Py.Return (VException (Py.ValueError shape_mismatch))
  else
    let covX := Np.add_mm (cov X) (Np.scale (eps self) (Np.eye (input_size self))) in
    let norm_covX := Np.div_ms covX (Np.trace covX) in
    let P :=
      Nat.iter (newton_iterations self)
        (fun P => Np.scale (one / of_nat 2)
                    (Np.sub_mm (Np.scale (of_nat 3) P)
                       (Np.matmul (Np.matrix_power P 3) norm_covX)))
        (Np.eye (input_size self)) in
    let whitening_mat := Np.div_ms P (Np.trace covX) in
    let X_mean := [Np.mean_axis0 X] in
    Py.Return (VTuple [VTensor X_mean; VTensor whitening_mat]).

(** [c*A + (1 - c)*B] *)
Definition exp_average (c : F) (A B : list (list F)) : list (list F) :=
  Np.add_mm (Np.scale c A) (Np.scale (one - c) B).

(** [_update_running_stats(self, mean, whitening_mat)], called with the
    positional arguments [args]. *)
Definition _update_running_stats (self : IterativeWhitening) (args : list value)
    : Py.result IterativeWhitening :=
  match args with
  | [VTensor mean; VTensor whitening_mat] =>
      Py.Return {|
        input_size := input_size self;
        newton_iterations := newton_iterations self;
        eps := eps self;
        momentum := momentum self;
        running_mean := exp_average (momentum self) mean (running_mean self);
        running_whitening_mat :=
          exp_average (momentum self) whitening_mat (running_whitening_mat self)
      |}
  | [_; _] => Py.Raise (Py.TypeError "unsupported operand type(s) for *")
  | [] | [_] =>
      Py.Raise (Py.TypeError "_update_running_stats() missing required positional argument")
  | _ => Py.Raise (Py.TypeError "_update_running_stats() takes 3 positional arguments")
  end.

(** [forward]: the layer after the call, and the output. *)
Definition forward (debug : bool) (self : IterativeWhitening) (X : list (list F))
    : Py.result (IterativeWhitening * list (list F)) :=
  stats ← _compute_whitening_matrix debug self X;
  self' ← _update_running_stats self [stats];
  mret (self', Np.matmul (Np.sub_mrow X (running_mean self')) (running_whitening_mat self')).

(** *** MLPBlock and MLP *)

(** The modules the constructors build, each recorded with the arguments
    it is built with.  Building [Linear], [Dropout] and [ReLU] themselves
    belongs to the tensor library. *)
Inductive torch_module : Type :=
| Linear (in_features out_features : nat) (bias : bool)
| Dropout (p : F)
| ReLU
| MLPBlock (linear dropout relu : torch_module)
| Whitening (layer : IterativeWhitening).

(** [MLPBlock.__init__] *)
Definition MLPBlock__init__ (input_size output_size : nat) (dropout : F) : torch_module :=
  MLPBlock (Linear input_size output_size true) (Dropout dropout) ReLU.

(** [l[i]] for a list [l] and an index [i >= 0], and [l[-1]]. *)
Definition getitem {A : Type} (l : list A) (i : nat) : Py.result A :=
  match l !! i with
  | Some x => Py.Return x
  | None => Py.Raise (Py.IndexError "list index out of range")
  end.

Definition getitem_last {A : Type} (l : list A) : Py.result A :=
  match last l with
  | Some x => Py.Return x
  | None => Py.Raise (Py.IndexError "list index out of range")
  end.

(** One turn of the loop [for layer in range(n_hidden)]. *)
Definition MLP_append_block (input_shape : nat) (layer_size : list nat) (dropout : F)
    (layers : Py.result (list torch_module)) (layer : nat)
    : Py.result (list torch_module) :=
  layers ← layers;
  if decide (layer = 0%nat)
  then out ← getitem layer_size layer;
       mret (layers ++ [MLPBlock__init__ input_shape out dropout])
  else inp ← getitem layer_size (layer - 1)%nat;
       out ← getitem layer_size layer;
       mret (layers ++ [MLPBlock__init__ inp out dropout]).

(** [MLP.__init__]: the modules handed to [Sequential], in order.
    [layer_size] is an [int] or a list of them.  The whitening layer is
    built with its default arguments. *)
Definition MLP__init__ (input_shape : nat) (n_hidden : Z) (layer_size : nat + list nat)
    (output_shape : nat) (dropout : F) (iterative_whitening : bool)
    : Py.result (list torch_module) :=
  let layer_size :=
    match layer_size with
    | inl size => replicate (Z.to_nat n_hidden) size
    | inr sizes => sizes
    end in
  if decide (n_hidden = 0%Z) then mret [Linear input_shape output_shape false]
  else
    layers ← foldl (MLP_append_block input_shape layer_size dropout) (mret [])
               (seq 0 (Z.to_nat n_hidden));
    width ← getitem_last layer_size;
    let layers := layers ++ [Linear width output_shape false] in
    if iterative_whitening
    then whitening ← __init__ output_shape 5 (one / of_nat (10 ^ 5)) (one / of_nat 10);
         mret (layers ++ [Whitening whitening])
    else mret layers.

(** The number of features a module takes and the number it gives;
    [None] for a module that keeps whatever shape it is given. *)
Fixpoint features_in (m : torch_module) : option nat :=
  match m with
  | Linear i _ _ => Some i
  | MLPBlock l _ _ => features_in l
  | Whitening layer => Some (input_size layer)
  | Dropout _ | ReLU => None
  end.

Fixpoint features_out (m : torch_module) : option nat :=
  match m with
  | Linear _ o _ => Some o
  | MLPBlock l _ _ => features_out l
  | Whitening layer => Some (input_size layer)
  | Dropout _ | ReLU => None
  end.

(** The width of what a chain of modules gives on an input of width
    [width], when every module is given the number of features it takes;
    [None] when one is not. *)
Fixpoint Sequential_width (width : nat) (layers : list torch_module) : option nat :=
  match layers with
  | [] => Some width
  | m :: layers' =>
      if bool_decide (default width (features_in m) = width)
      then Sequential_width (default width (features_out m)) layers'
      else None
  end.

End Layers.
End Layers.

(** ** model.py *)

Module Model.
Section DeepSVD.
Context {F : Type} `{Arith F}.
Local Open Scope arith_scope.

(** [torch.linalg.eigh] (eigenvalues, then the matrix whose columns are
    the eigenvectors), [torch.linalg.pinv] and [torch.finfo(dtype).eps]
    belong to the tensor library. *)
Variable eigh : list (list F) -> list F * list (list F).
Variable pinv : list (list F) -> list (list F).
Variable finfo_eps : F.

(** A model after [fit]: the two encoders in evaluation mode, the
    weights of the singular layer and the arrays kept by
    [save_after_training]. *)
Record DeepSVD : Type := {
  U : list (list F) -> list (list F);
  V : list (list F) -> list (list F);
  S_weights : list F;
  training_X : list (list F);
  training_Y : list (list F)
}.

(** [n ** -1] for a Python [int] [n]. *)
Definition int_pow_neg1 (n : nat) : Py.result F :=
  match n with
  | 0 => Py.Raise (Py.ZeroDivisionError "0.0 cannot be raised to a negative power")
  | S _ => Py.Return (one / of_nat n)
  end.

(** [x ** -1] for a numpy float [x]: no exception, whatever [x]. *)
Definition float_pow_neg1 (x : F) : F := one / x.

(** Tensors are real: [Q.mH] is the transpose. *)
Definition sqrtmh (A : list (list F)) : list (list F) :=
  let '(L, Q) := eigh A in
  let threshold := Np.max L * of_nat (length L) * finfo_eps in
  let L := map (fun x => if ltb threshold x then x else zero) L in
  Np.matmul (Np.mul_mv Q (map sqrt L)) (Np.transpose Q).

(** The specification's wording of the clamp in [sqrtmh]: every
    eigenvalue at or below the threshold [max(L) * size * eps] is replaced
    by zero. *)
Definition clamp_threshold (L : list F) : F := Np.max L * of_nat (length L) * finfo_eps.

Definition clamped (L : list F) : list F :=
  map (fun x => if leb x (clamp_threshold L) then zero else x) L.

(** [tonp] and [frnp] change the container, not the numbers. *)
Definition tonp {A : Type} (x : A) : A := x.

(** [indicator_fn], on an array of shape [(n, 1)], which [squeeze]
    flattens to one boolean per row.  (On an array with more columns
    [squeeze] leaves the mask two-dimensional, and the row selection
    [Ux[x_A, :]] of the estimators then raises [IndexError]: the
    statements about the estimators carry the shape of the mask as a
    hypothesis.) *)
Definition indicator_fn (x : list (list F)) (interval : F * F) : list bool :=
  concat (map (map (fun v => leb (fst interval) v && leb v (snd interval))) x).

(** The values are real, so the second operand of [logical_or] is
    [zeros]: the mask is the magnitude test alone. *)
Definition _filter_reduced_rank_svals (values : list F) (vectors : list (list F))
    : list F * list (list F) :=
  let eps := of_nat 2 * finfo_eps in
  let is_invalid := map (fun v => leb (abs v) eps) values in
  if existsb (fun b => b) is_invalid
  then (Np.select (map negb is_invalid) values,
        map (Np.select (map negb is_invalid)) vectors)
  else (values, vectors).

(** [A - torch.outer(torch.mean(A, axis=-1), torch.ones(A.shape[-1]))] *)
Definition center_features (A : list (list F)) : list (list F) :=
  Np.sub_mm A (Np.outer (Np.mean_axis_last A) (Np.ones (Np.shape1 A))).

Definition singular_values (self : DeepSVD) : list F :=
  map (fun w => sqrt (exp (- (w * w)))) (S_weights self).

Definition postprocess_UV (self : DeepSVD) (X_test : option (list (list F)))
    : Py.result (list (list F) * list F * list (list F)) :=
  let n := length (training_X self) in
  let X_train := training_X self in
  let Y_train := training_Y self in
  let sigma := singular_values self in
  let Ux := U self X_train in
  let Vy := V self Y_train in
  let '(Ux, Vy) :=
    if bool_decide (1 < Np.shape1 Ux)%nat
    then (center_features Ux, center_features Vy)
    else (Ux, Vy) in
  let Ux := Np.matmul Ux (Np.diag sigma) in
  let Vy := Np.matmul Vy (Np.diag sigma) in
  inv_n ← int_pow_neg1 n;
  let cov_X := Np.mul_ms (Np.matmul (Np.transpose Ux) Ux) inv_n in
  let cov_Y := Np.mul_ms (Np.matmul (Np.transpose Vy) Vy) inv_n in
  let cov_XY := Np.mul_ms (Np.matmul (Np.transpose Ux) Vy) inv_n in
  let sqrt_cov_X_inv := pinv (sqrtmh cov_X) in
  let sqrt_cov_Y_inv := pinv (sqrtmh cov_Y) in
  let M := Np.matmul (Np.matmul sqrt_cov_X_inv cov_XY) sqrt_cov_Y_inv in
  let '(e_val, sing_vec_l) := eigh (Np.matmul M (Np.transpose M)) in
  let '(e_val, sing_vec_l) := _filter_reduced_rank_svals e_val sing_vec_l in
  let sing_val := map sqrt e_val in
  let sing_vec_r := Np.div_mv (Np.matmul (Np.transpose M) sing_vec_l) sing_val in
  let Ux :=
    match X_test with
    | Some X_test => U self X_test
    | None => Ux
    end in
  let Ux := Np.matmul (Np.matmul Ux sqrt_cov_X_inv) sing_vec_l in
  let Vy := Np.matmul (Np.matmul Vy sqrt_cov_Y_inv) sing_vec_r in
  mret (tonp Ux, tonp sing_val, tonp Vy).

Definition postprocess_UV_tmp (self : DeepSVD) (X_test : list (list F))
    : Py.result (list (list F) * list F * list (list F)) :=
  let X_train := training_X self in
  let Y_train := training_Y self in
  let sing_val := singular_values self in
  let Ux := U self X_test in
  let Vy := V self Y_train in
  mret (tonp Ux, tonp sing_val, tonp Vy).

(** [np.outer] flattens its arguments, so [np.squeeze] of the
    observable's output is absorbed by [ravel]. *)
Definition predict (self : DeepSVD) (X_test : list (list F))
    (observable : list (list F) -> list (list F)) (postprocessing : bool)
    : Py.result (list F) :=
  '(Ux, sing_val, Vy) ←
    (if postprocessing then postprocess_UV self (Some X_test)
     else postprocess_UV_tmp self X_test);
  let fY := Np.outer (Np.ravel (observable (training_Y self))) (Np.ones (Np.shape1 Vy)) in
  let bias := Np.mean_all fY in
  let Vy_fY := Np.mean_axis0 (Np.mul_mm Vy fY) in
  let sigma_U_fY_VY := Np.mul_mv (Np.mul_vm sing_val Ux) Vy_fY in
  let val := Np.sum_axis_last sigma_U_fY_VY in
  mret (map (fun v => bias + v) val).

(** The formula the specification gives for [predict], written with
    entries and finite sums: [fy] is the observable on the training
    responses, one number per row; the bias is the mean of [fy] broadcast
    across the feature width; component [i] of the expansion weighs the
    test row's feature [i] by the singular value [i] and by the empirical
    mean over the training rows of feature [i] of [Vy] times [fy]. *)
Definition broadcast_mean (fy : list F) (width : nat) : F :=
  Np.mean_all (map (fun y => replicate width y) fy).

Definition empirical_mean_product (Vy : list (list F)) (fy : list F) (i : nat) : F :=
  Np.mean (map (fun k => Np.entry Vy k i * nth k fy zero) (seq 0 (length Vy))).

Definition predict_formula (Ux : list (list F)) (sing_val : list F)
    (Vy : list (list F)) (fy : list F) : list F :=
  map (fun ux =>
         broadcast_mean fy (length sing_val) +
         Np.bigsum (length sing_val)
           (fun i => nth i sing_val zero * nth i ux zero
                     * empirical_mean_product Vy fy i))
      Ux.

(** The post-processing path selected by [postprocessing]. *)
Definition postprocess (self : DeepSVD) (X : list (list F)) (postprocessing : bool)
    : Py.result (list (list F) * list F * list (list F)) :=
  if postprocessing then postprocess_UV self (Some X) else postprocess_UV_tmp self X.

Definition conditional_probability (self : DeepSVD) (interval_A interval_B : F * F)
    (postprocessing : bool) : Py.result F :=
  let Y_train := training_Y self in
  let X_train := training_X self in
  '(Ux, sing_val, Vy) ←
    (if postprocessing then postprocess_UV self (Some X_train)
     else postprocess_UV_tmp self X_train);
  let n := length Y_train in
  let x_A := indicator_fn X_train interval_A in
  let y_B := indicator_fn Y_train interval_B in
  inv_n ← int_pow_neg1 n;
  let Ux_A := map (fun s => s * inv_n) (Np.sum_axis0 (Np.shape1 Ux) (Np.select x_A Ux)) in
  let Vy_B := map (fun s => s * inv_n) (Np.sum_axis0 (Np.shape1 Vy) (Np.select y_B Vy)) in
  mret (Np.mean_bool y_B +
        Np.sum (zip_with mul
                  (map (fun t => t * float_pow_neg1 (Np.mean_bool x_A))
                     (zip_with mul sing_val Ux_A))
                  Vy_B)).

Definition joint_probability (self : DeepSVD) (interval_A interval_B : F * F)
    (postprocessing : bool) : Py.result F :=
  let Y_train := training_Y self in
  let X_train := training_X self in
  '(Ux, sing_val, Vy) ←
    (if postprocessing then postprocess_UV self (Some X_train)
     else postprocess_UV_tmp self X_train);
  let n := length Y_train in
  let x_A := indicator_fn X_train interval_A in
  let y_B := indicator_fn Y_train interval_B in
  inv_n ← int_pow_neg1 n;
  let Ux_A := map (fun s => s * inv_n) (Np.sum_axis0 (Np.shape1 Ux) (Np.select x_A Ux)) in
  let Vy_B := map (fun s => s * inv_n) (Np.sum_axis0 (Np.shape1 Vy) (Np.select y_B Vy)) in
  mret (one +
        Np.sum (map (fun t => t * float_pow_neg1 (Np.mean_bool y_B))
                  (zip_with mul
                     (map (fun t => t * float_pow_neg1 (Np.mean_bool x_A))
                        (zip_with mul sing_val Ux_A))
                     Vy_B))).

End DeepSVD.

Arguments DeepSVD : clear implicits.

End Model.

(** ** cde_fork/density_simulation/symmGMM.py *)

Module SymmGMM.
Section Simulator.
Context {F : Type} `{Arith F}.
Local Open Scope arith_scope.

(** *** The group library (escnn) *)

(** Group elements. *)
Context {elt : Type} `{EqDecision elt}.

Record Group : Type := {
  continuous : bool;
  elements : list elt;
  identity : elt;
  inverse : elt -> elt
}.

(** [G.order()] *)
Definition order (G : Group) : nat := length (elements G).

(** A representation: its group, its size and the matrix of each
    element. *)
Record Representation : Type := {
  group : Group;
  size : nat;
  matrix_of : elt -> list (list F)
}.

Definition block_diag (A B : list (list F)) : list (list F) :=
  map (fun r => r ++ Np.zeros (Np.shape1 B)) A ++
  map (fun r => Np.zeros (Np.shape1 A) ++ r) B.

(** [directsum([rep_X, rep_Y])] *)
Definition directsum (rep_X rep_Y : Representation) : Representation := {|
  group := group rep_X;
  size := (size rep_X + size rep_Y)%nat;
  matrix_of := fun g => block_diag (matrix_of rep_X g) (matrix_of rep_Y g)
|}.

(** *** numpy's [RandomState] *)

(** The state of a generator.  One seeded with an integer is determined
    by the seed; one built with [seed=None] is seeded from the operating
    system's entropy.  [random(n)] and [normal(loc, scale, size)] return
    their draws and the advanced state. *)
Context {rng entropy : Type}.
Variable RandomState_seeded : Z -> rng.
Variable RandomState_entropy : entropy -> rng.
Variable rng_random : rng -> nat -> list F * rng.
Variable rng_normal : rng -> F -> F -> nat -> list F * rng.

Definition RandomState (seed : option Z) (os : entropy) : rng :=
  match seed with
  | Some s => RandomState_seeded s
  | None => RandomState_entropy os
  end.

(** *** Sibling modules outside the sources *)

(** [project_to_pos_semi_def], on a batch of matrices. *)
Variable project_to_pos_semi_def : list (list (list F)) -> list (list (list F)).

(** [GaussianMixture.simulate], which draws from [self.random_state]
    according to the weights and the frozen Gaussians [(mean, cov)]: the
    samples [(X, Y)] and the advanced state. *)
Variable simulate :
  rng -> list F -> list (list F * list (list F)) -> N ->
  list (list F) * list (list F) * rng.

(** [symmetric_moments(Y, rep_Y)]: mean and variance. *)
Variable symmetric_moments : list (list F) -> Representation -> list F * list F.

(** *** The simulator *)

Record SymmGaussianMixture : Type := {
  random_state : rng;
  random_state_params : rng;
  random_seed : option Z;
  G : Group;
  n_kernels : nat;
  ndim : nat;
  rep : Representation;
  rep_X : Representation;
  rep_Y : Representation;
  ndim_x : nat;
  ndim_y : nat;
  means_std : F;
  weights : list F;
  means : list (list F);
  covariances_x : list (list (list F));
  covariances_y : list (list (list F));
  covariances : list (list (list F));
  means_x : list (list F);
  means_y : list (list F);
  gaussians : list (list F * list (list F));
  gaussians_x : list (list F * list (list F));
  gaussians_y : list (list F * list (list F));
  y_mean : list F;
  y_std : list F
}.

(** [_sample_weights]: the weights, and the parameter generator after
    the draw. *)
Definition _sample_weights (random_state_params : rng) (n_weights : nat) : list F * rng :=
  let '(weights, random_state_params) := rng_random random_state_params n_weights in
  (map (fun w => w / Np.sum weights) weights, random_state_params).

(** [size=(k, r, c)] draws reshaped into [k] matrices. *)
Fixpoint reshape3 (k r c : nat) (v : list F) : list (list (list F)) :=
  match k with
  | 0 => []
  | S k' => Np.reshape r c (take (r * c) v) :: reshape3 k' r c (drop (r * c) v)
  end.

(** [np.einsum('ij,...j->...i', A, means)] *)
Definition act_on_means (A : list (list F)) (means : list (list F)) : list (list F) :=
  map (Np.matvec A) means.

(** [np.einsum('ij,kjm,mn->kin', A, covariances, B)] *)
Definition conjugate (A : list (list F)) (covs : list (list (list F))) (B : list (list F))
    : list (list (list F)) :=
  map (fun C => Np.matmul (Np.matmul A C) B) covs.

(** [module_G] is what the name [G] is bound to in the module's globals
    when the constructor runs: the file binds it only under
    [if __name__ == "__main__"], so it is unbound when the module is
    imported.  [os] is the entropy a generator built with [seed=None]
    takes. *)
Definition __init__ (module_G : option Group) (os : entropy)
    (n_kernels : nat) (rep_X rep_Y : Representation) (means_std : F)
    (random_seed : option Z) : Py.result SymmGaussianMixture :=
  let random_state := RandomState random_seed os in
  let random_state_params := RandomState (Some 20%Z) os in
  let self_G := group rep_X in
  let ndim := (size rep_X + size rep_Y)%nat in
  let rep := directsum rep_X rep_Y in
  let ndim_x := size rep_X in
  let ndim_y := size rep_Y in
  let '(weights, random_state_params) := _sample_weights random_state_params n_kernels in
  let '(draws, random_state_params) :=
    rng_normal random_state_params zero means_std (n_kernels * ndim) in
  let means := Np.reshape n_kernels ndim draws in
  let '(draws, random_state_params) :=
    rng_normal random_state_params one (one / of_nat 2) (n_kernels * ndim_x * ndim_x) in
  let covariances_x :=
    project_to_pos_semi_def (map (map (map abs)) (reshape3 n_kernels ndim_x ndim_x draws)) in
  let '(draws, random_state_params) :=
    rng_normal random_state_params one (one / of_nat 2) (n_kernels * ndim_y * ndim_y) in
  let covariances_y :=
    project_to_pos_semi_def (map (map (map abs)) (reshape3 n_kernels ndim_y ndim_y draws)) in
  if negb (continuous self_G) then
    match module_G with
    | None => Py.Raise (Py.NameError "G")
    | Some G =>
        let n_kernels := (n_kernels * order G)%nat in
        let others := filter (fun g => g <> identity G) (elements G) in
        let means :=
          concat (means :: map (fun g => act_on_means (matrix_of rep g) means) others) in
        let covariances_x' :=
          concat (covariances_x ::
                  map (fun g => conjugate (matrix_of rep_X g) covariances_x
                                  (matrix_of rep_X (inverse G g))) others) in
        let covariances_y' :=
          concat (covariances_y ::
                  map (fun g => conjugate (matrix_of rep_Y g) covariances_y
                                  (matrix_of rep_Y (inverse G g))) others) in
        let weights := concat (replicate (order G) weights) in
        let weights := map (fun w => w / Np.sum weights) weights in
        let covariances := zip_with block_diag covariances_x' covariances_y' in
        let means_x := map (take ndim_x) means in
        let means_y := map (drop ndim_x) means in
        let gaussians := zip means covariances in
        let gaussians_x := zip means_x covariances_x' in
        let gaussians_y := zip means_y covariances_y' in
        let '(_, Y, random_state) := simulate random_state weights gaussians 10000%N in
        let '(Y_mean, Y_var) := symmetric_moments Y rep_Y in
        Py.Return {|
          random_state := random_state;
          random_state_params := random_state_params;
          random_seed := random_seed;
          G := self_G;
          n_kernels := n_kernels;
          ndim := ndim;
          rep := rep;
          rep_X := rep_X;
          rep_Y := rep_Y;
          ndim_x := ndim_x;
          ndim_y := ndim_y;
          means_std := means_std;
          weights := weights;
          means := means;
          covariances_x := covariances_x';
          covariances_y := covariances_y';
          covariances := covariances;
          means_x := means_x;
          means_y := means_y;
          gaussians := gaussians;
          gaussians_x := gaussians_x;
          gaussians_y := gaussians_y;
          y_mean := Y_mean;
          y_std := map sqrt Y_var
        |}
    end
  else Py.Raise (Py.NotImplementedError "Only finite groups are supported at the moment").

(** The sampled mixture parameters of a constructed simulator. *)
Definition mixture_parameters (self : SymmGaussianMixture)
    : list F * list (list F) * list (list (list F)) * list (list (list F)) :=
  (weights self, means self, covariances_x self, covariances_y self).

End Simulator.

Arguments Group : clear implicits.
Arguments Representation : clear implicits.
Arguments SymmGaussianMixture : clear implicits.

End SymmGMM.

(** ** Benchmark drivers *)

(** The file system seen by the drivers: a finite map from paths to the
    pickled tables stored there. *)

Module NCPBench.

Section Pdf2cdf.
Context {F : Type} `{Arith F}.

(** [pdf2cdf], on the values of a density along a grid of spacing
    [step]. *)
Definition pdf2cdf (pdf : list F) (step : F) : list F :=
  Np.cumsum (map (fun p => mul p step) pdf).

End Pdf2cdf.

Section Driver.

(** The metrics bundle returned by [compute_metrics] (outside the
    sources), one array per metric over the conditioning grid. *)
Variable metrics : Type.

(** One row of the result table: the dictionary built at the end of the
    loop over post-processing modes. *)
Record row : Type := Row {
  seed : Z;
  n_samples : Z;
  postprocess : string;
  scores : metrics
}.

(** Training and scoring for a sample count, a seed and a
    post-processing mode: simulation, scaling, the trainer and the metrics
    are external to the sources. *)
Variable fit_and_score : Z -> Z -> string -> metrics.

Definition n_training_samples : list Z :=
  [100; 200; 500; 1000; 2000; 5000; 10000; 20000; 50000; 100000]%Z.

(** [range(5)] *)
Definition seeds : list Z := [0; 1; 2; 3; 4]%Z.

(** [str(postprocess)] for [postprocess in [None, 'centering', 'whitening']] *)
Definition postprocess_modes : list string := ["None"; "centering"; "whitening"].

Definition filename (cls : string) : string := cls +:+ "_NCP_results.pkl".

(** [results_df[(results_df['n_samples'] == n) & (results_df['seed'] == seed)]] *)
Definition select (n s : Z) (df : list row) : list row :=
  filter (fun r => n_samples r = n /\ seed r = s) df.

(** The guard in front of [continue]. *)
Definition already_done (df : list row) (n s : Z) : bool :=
  (0 <? length df)%nat && (0 <? length (select n s df))%nat.

(** [pd.read_pickle(filename)] if the file exists, else an empty frame. *)
Definition load (fs : gmap string (list row)) (file : string) : list row :=
  match fs !! file with
  | Some df => df
  | None => []
  end.

Record state : Type := State {
  results_df : list row;
  files : gmap string (list row);
  computed : list (Z * Z)
}.

(** The three rows appended for one [(n, seed)]. *)
Definition results (n s : Z) : list row :=
  map (fun pp => Row s n pp (fit_and_score n s pp)) postprocess_modes.

(** Body of the loop over seeds; [computed] logs the pairs that were not
    skipped. *)
Definition body (file : string) (st : state) (ns : Z * Z) : state :=
  let '(n, s) := ns in
  if already_done (results_df st) n s then st
  else
    let df := results_df st ++ results n s in
    State df (<[file := df]> (files st)) (computed st ++ [(n, s)]).

(** The iterations of the two nested loops, in order. *)
Definition iterations : list (Z * Z) :=
  n ← n_training_samples; s ← seeds; [(n, s)].

Definition start (cls : string) (fs : gmap string (list row)) : state :=
  State (load fs (filename cls)) fs [].

(** [run_experiment]: [cls] is the simulator's class name. *)
Definition run_experiment (cls : string) (fs : gmap string (list row)) : state :=
  foldl (body (filename cls)) (start cls fs) iterations.

(** A run killed after [k] iterations of the inner loop. *)
Definition run_interrupted (k : nat) (cls : string) (fs : gmap string (list row)) : state :=
  foldl (body (filename cls)) (start cls fs) (take k iterations).

End Driver.

Arguments seed {metrics} r.
Arguments n_samples {metrics} r.
Arguments postprocess {metrics} r.
Arguments scores {metrics} r.
Arguments select {metrics} n s df.
Arguments already_done {metrics} df n s.
Arguments load {metrics} fs file.
Arguments results_df {metrics} s.
Arguments files {metrics} s.
Arguments computed {metrics} s.
Arguments results {metrics} fit_and_score n s.
Arguments body {metrics} fit_and_score file st ns.
Arguments start {metrics} cls fs.
Arguments run_experiment {metrics} fit_and_score cls fs.
Arguments run_interrupted {metrics} fit_and_score k cls fs.

End NCPBench.

Module KMNBench.
Section Driver.

Variable metrics : Type.

Record row : Type := Row {
  seed : Z;
  n_samples : Z;
  scores : metrics
}.

(** Simulation, the kernel-mixture-network fit and the scoring are
    external to the sources. *)
Variable fit_and_score : Z -> Z -> metrics.

Definition n_training_samples : list Z :=
  [100; 200; 500; 1000; 2000; 5000; 10000; 20000; 50000; 100000]%Z.

(** [np.arange(10)] *)
Definition random_seeds : list Z := [0; 1; 2; 3; 4; 5; 6; 7; 8; 9]%Z.

Definition filename (cls : string) : string := cls +:+ "_KMN_results.pkl".

(** The path given to [to_pickle]; the directory [results] is taken to
    exist. *)
Definition save_path (cls : string) : string := "results/" +:+ filename cls.

Definition select (n s : Z) (df : list row) : list row :=
  filter (fun r => n_samples r = n /\ seed r = s) df.

Definition already_done (df : list row) (n s : Z) : bool :=
  (0 <? length df)%nat && (0 <? length (select n s df))%nat.

Definition load (fs : gmap string (list row)) (file : string) : list row :=
  match fs !! file with
  | Some df => df
  | None => []
  end.

(** The state of a run: the table in memory, the pickled result tables
    on disk by path, and the pairs trained so far.  [files] holds result
    tables only: the checkpoint [<Class>_best_model.pt] that the
    estimator's [fit] (code outside these sources) leaves in the working
    directory and the driver loads back is not one of them. *)
Record state : Type := State {
  results_df : list row;
  files : gmap string (list row);
  computed : list (Z * Z)
}.

Definition body (cls : string) (st : state) (ns : Z * Z) : state :=
  let '(n, s) := ns in
  if already_done (results_df st) n s then st
  else
    let df := results_df st ++ [Row s n (fit_and_score n s)] in
    State df (<[save_path cls := df]> (files st)) (computed st ++ [(n, s)]).

Definition iterations : list (Z * Z) :=
  n ← n_training_samples; s ← random_seeds; [(n, s)].

Definition start (cls : string) (fs : gmap string (list row)) : state :=
  State (load fs (filename cls)) fs [].

Definition run_experiment (cls : string) (fs : gmap string (list row)) : state :=
  foldl (body cls) (start cls fs) iterations.

Definition run_interrupted (k : nat) (cls : string) (fs : gmap string (list row)) : state :=
  foldl (body cls) (start cls fs) (take k iterations).

End Driver.

Arguments seed {metrics} r.
Arguments n_samples {metrics} r.
Arguments scores {metrics} r.
Arguments select {metrics} n s df.
Arguments already_done {metrics} df n s.
Arguments load {metrics} fs file.
Arguments results_df {metrics} s.
Arguments files {metrics} s.
Arguments computed {metrics} s.
Arguments body {metrics} fit_and_score cls st ns.
Arguments start {metrics} cls fs.
Arguments run_experiment {metrics} fit_and_score cls fs.
Arguments run_interrupted {metrics} fit_and_score k cls fs.

End KMNBench.

(** ** Concrete inputs *)

(** Small inputs on which the statements of Part II are instantiated. *)

Module Examples.

(** The group with two elements, and its sign representation. *)
Definition Z2 : SymmGMM.Group bool := {|
  SymmGMM.continuous := false;
  SymmGMM.elements := [false; true];
  SymmGMM.identity := false;
  SymmGMM.inverse := fun g => g
|}.

Definition sign_rep : SymmGMM.Representation R bool := {|
  SymmGMM.group := Z2;
  SymmGMM.size := 1;
  SymmGMM.matrix_of := fun g : bool => [[if g then (-1)%R else 1%R]]
|}.

(** A generator that keeps no state: [random] draws one half, [normal]
    draws the mean. *)
Definition const_random (st : unit) (n : nat) : list R * unit :=
  (replicate n (1 / 2)%R, st).

Definition const_normal (st : unit) (loc scale : R) (n : nat) : list R * unit :=
  (replicate n loc, st).

Definition no_samples (st : unit) (w : list R) (g : list (list R * list (list R)))
    (n : N) : list (list R) * list (list R) * unit := ([], [], st).

Definition no_moments (Y : list (list R)) (r : SymmGMM.Representation R bool)
    : list R * list R := ([], []).

Definition toy_init (module_G : option (SymmGMM.Group bool)) (n_kernels : nat)
    (random_seed : option Z)
    : Py.result (SymmGMM.SymmGaussianMixture R bool unit) :=
  SymmGMM.__init__ (fun _ => tt) (fun _ : unit => tt) const_random const_normal
    (fun covs => covs) no_samples no_moments
    module_G tt n_kernels sign_rep sign_rep (3 / 2)%R random_seed.

(** A fitted model with identity encoders, one feature and two
    training rows. *)
Definition toy_model : Model.DeepSVD R := {|
  Model.U := fun X => X;
  Model.V := fun Y => Y;
  Model.S_weights := [0%R];
  Model.training_X := [[1]; [2]]%R;
  Model.training_Y := [[3]; [5]]%R
|}.

Definition no_eigh (M : list (list R)) : list R * list (list R) := ([], []).

(** A model whose training arrays hold no row. *)
Definition empty_model : Model.DeepSVD R := {|
  Model.U := fun X => X;
  Model.V := fun Y => Y;
  Model.S_weights := [0%R];
  Model.training_X := [];
  Model.training_Y := []
|}.

(** The observable "the response lies in the interval", as floats:
    [lambda y: indicator_fn(y, interval).astype(float)]. *)
Definition indicator_observable (interval : R * R) (Y : list (list R)) : list (list R) :=
  map (map (fun v => if leb (fst interval) v && leb v (snd interval) then 1%R else 0%R)) Y.



Definition toy_exp (x : spec_float) : spec_float := f64_of_nat 1.





(** A whitening layer both of whose buffers are registered and still
    zero, with five Newton iterations: what [IterativeWhitening.__init__]
    leaves on an object whose [Module.__init__] has run. *)
Definition whitening_layer (input_size : nat) (eps momentum : R)
    : Layers.IterativeWhitening (F := R) := {|
  Layers.input_size := input_size;
  Layers.newton_iterations := 5;
  Layers.eps := eps;
  Layers.momentum := momentum;
  Layers.running_mean := [Np.zeros input_size];
  Layers.running_whitening_mat := replicate input_size (Np.zeros input_size)
|}.

(** A symmetric matrix with eigenvalues 0 and 4 and its
    eigendecomposition, eigenvalues in ascending order. *)
Definition A2 : list (list R) := [[4; 0]; [0; 0]]%R.

Definition eigh_A2 (M : list (list R)) : list R * list (list R) :=
  ([0; 4]%R, [[0; 1]; [1; 0]]%R).

(** A positive definite matrix, with eigenvalues 1 and 4. *)
Definition A3 : list (list R) := [[4; 0]; [0; 1]]%R.

Definition eigh_A3 (M : list (list R)) : list R * list (list R) :=
  ([1; 4]%R, [[0; 1]; [1; 0]]%R).

End Examples.

(* ###################################################################### *)
(** * Part II: properties *)
(* ###################################################################### *)

(** ** Tactics *)

(** Equality of concrete real arrays, entry by entry. *)
Ltac real_arrays :=
  cbn; repeat (apply (f_equal2 (@cons _))); try reflexivity;
  repeat case_decide; try lia; try lra.

(** Case analysis on the pairs bound by [let '(x, y) := e in _]. *)
Ltac destruct_let_pairs :=
  repeat match goal with
         | |- context [let '(_, _) := ?e in _] => destruct e
         end.

(** ** The NCP benchmark driver resumes from its own table *)

Section NCPBenchFacts.
Import NCPBench.
Context {metrics : Type}.
Implicit Types (df : list (row metrics)) (st : state metrics).

Lemma select_app n s df1 df2 :
  select n s (df1 ++ df2) = select n s df1 ++ select n s df2.
Proof. unfold select. apply filter_app. Qed.

Lemma select_results_other (f : Z -> Z -> string -> metrics) n s n' s' :
  (n', s') <> (n, s) -> select n s (results f n' s') = [].
Proof.
  intros Hne. unfold select, results, postprocess_modes. simpl.
  repeat (rewrite filter_cons_False; [|simpl; intros [-> ->]; congruence]).
  reflexivity.
Qed.

Lemma already_done_true df n s :
  select n s df <> [] -> already_done df n s = true.
Proof.
  intros Hsel. unfold already_done.
  destruct df as [|r df]; [exfalso; apply Hsel; reflexivity|].
  destruct (select n s (r :: df)); [congruence|]. reflexivity.
Qed.

Lemma body_skip f file st n s :
  already_done (results_df st) n s = true -> body f file st (n, s) = st.
Proof. intros H. unfold body. rewrite H. reflexivity. Qed.

Lemma body_run f file st n s :
  already_done (results_df st) n s = false ->
  body f file st (n, s) =
  State metrics (results_df st ++ results f n s)
    (<[file := results_df st ++ results f n s]> (files st))
    (computed st ++ [(n, s)]).
Proof. intros H. unfold body. rewrite H. reflexivity. Qed.

(** A recorded pair keeps its rows, and is never computed, through any
    number of iterations. *)
Lemma sweep_keeps_recorded f file n s its st :
  select n s (results_df st) <> [] ->
  select n s (results_df (foldl (body f file) st its)) = select n s (results_df st)
  /\ ((n, s) ∈ computed (foldl (body f file) st its) -> (n, s) ∈ computed st).
Proof.
  revert st. induction its as [|[n' s'] its IH]; intros st Hrec; cbn [foldl].
  - split; [reflexivity|]. intros Hp. exact Hp.
  - destruct (already_done (results_df st) n' s') eqn:Hdone.
    + rewrite body_skip by exact Hdone. apply IH. exact Hrec.
    + rewrite body_run by exact Hdone.
      assert ((n', s') <> (n, s)) as Hne.
      { intros [= -> ->]. rewrite already_done_true in Hdone by exact Hrec. discriminate. }
      match goal with |- context [foldl _ ?s1 its] => specialize (IH s1) end.
      simpl in IH. rewrite select_app, select_results_other, app_nil_r in IH by exact Hne.
      destruct (IH Hrec) as [IH1 IH2]. split; [exact IH1|].
      intros Hp. specialize (IH2 Hp).
      apply elem_of_app in IH2 as [IH2|IH2]; [exact IH2|].
      apply list_elem_of_singleton in IH2. congruence.
Qed.

(** The table in memory is the table on disk. *)
Lemma sweep_file_in_sync f file its st :
  load (files st) file = results_df st ->
  load (files (foldl (body f file) st its)) file
  = results_df (foldl (body f file) st its).
Proof.
  revert st. induction its as [|[n' s'] its IH]; intros st Hsync; cbn [foldl]; [exact Hsync|].
  apply IH. destruct (already_done (results_df st) n' s') eqn:Hdone.
  - rewrite body_skip by exact Hdone. exact Hsync.
  - rewrite body_run by exact Hdone. simpl. unfold load.
    rewrite lookup_insert_eq. reflexivity.
Qed.

End NCPBenchFacts.

Section NCPBenchClaims.
Import NCPBench.
Context {metrics : Type}.

Lemma start_in_sync cls (fs : gmap string (list (row metrics))) :
  load (files (start cls fs)) (filename cls) = results_df (start cls fs).
Proof. reflexivity. Qed.

(** C5.  A second run of the NCP driver, started on the files left by a
    first run (complete, or killed after any number [k] of iterations),
    skips every [(n_samples, seed)] pair that the persisted table already
    records: the pair is not computed again and its rows in the persisted
    table are exactly those of the first run, so none is duplicated. *)
Theorem ncp_rerun_skips_recorded
    (f1 f2 : Z -> Z -> string -> metrics) (cls : string)
    (fs0 : gmap string (list (row metrics))) (k : nat) (n s : Z) :
  let st1 := run_interrupted f1 k cls fs0 in
  let st2 := run_experiment f2 cls (files st1) in
  select n s (load (files st1) (filename cls)) <> [] ->
  ((n, s) ∉ computed st2) /\
  select n s (load (files st2) (filename cls))
  = select n s (load (files st1) (filename cls)).
Proof.
  intros st1 st2 Hrec. subst st2. unfold run_experiment.
  pose proof (sweep_keeps_recorded f2 (filename cls) n s iterations
                (start cls (files st1))) as Hkeep.
  rewrite sweep_file_in_sync by apply start_in_sync.
  cbn [start results_df computed] in Hkeep |- *.
  destruct (Hkeep Hrec) as [Hrows Hlog]. split; [|exact Hrows].
  intros Hin. apply Hlog in Hin. inversion Hin.
Qed.

End NCPBenchClaims.

Lemma ncp_rerun_skips_recorded_witness :
  let f := fun (_ _ : Z) (_ : string) => tt in
  let st1 := NCPBench.run_interrupted f 7 "EconDensity" ∅ in
  let st2 := NCPBench.run_experiment f "EconDensity" (NCPBench.files st1) in
  NCPBench.select 200 1 (NCPBench.load (NCPBench.files st1) (NCPBench.filename "EconDensity")) <> [] /\
  ((200, 1)%Z ∉ NCPBench.computed st2) /\
  NCPBench.select 200 1 (NCPBench.load (NCPBench.files st2) (NCPBench.filename "EconDensity"))
  = NCPBench.select 200 1 (NCPBench.load (NCPBench.files st1) (NCPBench.filename "EconDensity")).
Proof.
  intros f st1 st2.
  assert (NCPBench.select 200 1 (NCPBench.load (NCPBench.files st1) (NCPBench.filename "EconDensity")) <> []) as Hrec.
  { vm_compute. discriminate. }
  split; [exact Hrec|].
  exact (ncp_rerun_skips_recorded f f "EconDensity" ∅ 7 200 1 Hrec).
Defined.

(** ** The kernel-mixture-network driver saves to another path than it loads *)

Lemma string_length_app (s1 s2 : string) :
  String.length (s1 +:+ s2) = String.length s1 + String.length s2.
Proof.
  induction s1 as [|a s1 IH]; [reflexivity|].
  change (String a s1 +:+ s2) with (String a (s1 +:+ s2)).
  cbn [String.length]. rewrite IH. reflexivity.
Qed.

Section KMNBenchFacts.
Import KMNBench.
Context {metrics : Type}.
Implicit Types (df : list (row metrics)) (st : state metrics).

Lemma save_path_ne cls : save_path cls <> filename cls.
Proof.
  unfold save_path. intros Heq. apply (f_equal String.length) in Heq.
  rewrite string_length_app in Heq. cbn [String.length] in Heq. lia.
Qed.

Lemma kmn_body_skip (f : Z -> Z -> metrics) cls st n s :
  already_done (results_df st) n s = true -> body f cls st (n, s) = st.
Proof. intros H. unfold body. rewrite H. reflexivity. Qed.

Lemma kmn_body_run (f : Z -> Z -> metrics) cls st n s :
  already_done (results_df st) n s = false ->
  body f cls st (n, s) =
  State metrics (results_df st ++ [Row metrics s n (f n s)])
    (<[save_path cls := results_df st ++ [Row metrics s n (f n s)]]> (files st))
    (computed st ++ [(n, s)]).
Proof. intros H. unfold body. rewrite H. reflexivity. Qed.

Lemma kmn_already_done_false df n s :
  select n s df = [] -> already_done df n s = false.
Proof. intros H. unfold already_done. rewrite H. apply andb_false_r. Qed.

(** No iteration ever writes the file that [start] reads. *)
Lemma kmn_sweep_never_writes_loaded_file (f : Z -> Z -> metrics) cls its st :
  files (foldl (body f cls) st its) !! filename cls = files st !! filename cls.
Proof.
  revert st. induction its as [|[n s] its IH]; intros st; cbn [foldl]; [reflexivity|].
  rewrite IH. destruct (already_done (results_df st) n s) eqn:Hdone.
  - rewrite kmn_body_skip by exact Hdone. reflexivity.
  - rewrite kmn_body_run by exact Hdone. cbn [files].
    apply lookup_insert_ne, save_path_ne.
Qed.

(** Rows only accumulate, in memory and (once written) on disk. *)
Lemma kmn_sweep_grows (f : Z -> Z -> metrics) cls its st :
  exists rows,
    results_df (foldl (body f cls) st its) = results_df st ++ rows /\
    (load (files st) (save_path cls) = results_df st ->
     load (files (foldl (body f cls) st its)) (save_path cls)
     = results_df st ++ rows).
Proof.
  revert st. induction its as [|[n s] its IH]; intros st; cbn [foldl].
  - exists []. rewrite app_nil_r. auto.
  - destruct (already_done (results_df st) n s) eqn:Hdone.
    + rewrite kmn_body_skip by exact Hdone. apply IH.
    + rewrite kmn_body_run by exact Hdone.
      match goal with |- context [foldl _ ?s1 its] => destruct (IH s1) as (rows & Hdf & Hfs) end.
      cbn [results_df files] in Hdf, Hfs.
      exists (Row metrics s n (f n s) :: rows). rewrite Hdf, <- app_assoc. split; [reflexivity|].
      intros _. rewrite Hfs, <- app_assoc; [reflexivity|].
      unfold load. rewrite lookup_insert_eq. reflexivity.
Qed.

(** From an empty table, a sweep over distinct pairs computes them all. *)
Lemma kmn_sweep_computes_all (f : Z -> Z -> metrics) cls its st :
  NoDup its ->
  (forall n s, (n, s) ∈ its -> select n s (results_df st) = []) ->
  computed (foldl (body f cls) st its) = computed st ++ its /\
  results_df (foldl (body f cls) st its)
  = results_df st ++ map (fun ns => Row metrics ns.2 ns.1 (f ns.1 ns.2)) its.
Proof.
  revert st. induction its as [|[n s] its IH]; intros st Hnd Hfresh; cbn [foldl].
  - cbn. rewrite !app_nil_r. auto.
  - apply NoDup_cons in Hnd as [Hnotin Hnd].
    rewrite kmn_body_run
      by (apply kmn_already_done_false, Hfresh, list_elem_of_here).
    match goal with |- context [foldl _ ?s1 its] => destruct (IH s1 Hnd) as [Hc Hr] end.
    + intros n' s' Hin. cbn [results_df]. unfold select. rewrite filter_app.
      fold (select n' s' (results_df st)).
      rewrite Hfresh by (apply list_elem_of_further, Hin). cbn [app].
      rewrite filter_cons_False; [reflexivity|].
      cbn. intros [-> ->]. contradiction.
    + rewrite Hc, Hr. cbn [results_df computed map fst snd].
      rewrite <- !app_assoc. auto.
Qed.

Lemma kmn_iterations_nodup : NoDup iterations.
Proof. apply (bool_decide_unpack (NoDup iterations)). vm_compute. exact I. Qed.

Lemma kmn_iterations_head : iterations = (100, 0)%Z :: tail iterations.
Proof. reflexivity. Qed.

Lemma kmn_take_iterations k :
  take (S k) iterations = (100, 0)%Z :: take k (tail iterations).
Proof. reflexivity. Qed.

(** After its first iteration on an empty table, a sweep keeps the rows
    of [(100, 0)] in the file under [results/]. *)
Lemma kmn_first_iteration_persisted (f : Z -> Z -> metrics) cls its st :
  results_df st = [] ->
  exists rows,
    results_df (foldl (body f cls) st ((100, 0)%Z :: its))
    = Row metrics 0 100 (f 100 0)%Z :: rows /\
    load (files (foldl (body f cls) st ((100, 0)%Z :: its))) (save_path cls)
    = Row metrics 0 100 (f 100 0)%Z :: rows.
Proof.
  intros Hempty. cbn [foldl].
  rewrite kmn_body_run by (apply kmn_already_done_false; rewrite Hempty; reflexivity).
  rewrite Hempty. cbn [app].
  match goal with |- context [foldl _ ?s1 its] =>
    destruct (kmn_sweep_grows f cls its s1) as (rows & Hdf & Hfs) end.
  exists rows. rewrite Hdf, Hfs; [split; reflexivity|].
  cbn [files results_df]. unfold load. rewrite lookup_insert_eq. reflexivity.
Qed.

Lemma kmn_start_empty (f : Z -> Z -> metrics) cls its
    (fs0 : gmap string (list (row metrics))) :
  fs0 !! filename cls = None ->
  results_df (start cls (files (foldl (body f cls) (start cls fs0) its))) = [].
Proof.
  intros Hfresh. cbn [start results_df]. unfold load.
  rewrite kmn_sweep_never_writes_loaded_file. cbn [start files].
  rewrite Hfresh. reflexivity.
Qed.

(** C4.  The rerun of a sweep started in a working directory without
    [<Class>_KMN_results.pkl] (the driver never creates that file): rows
    for [(100, 0)] are on disk under [results/] once the first run has got
    through one iteration, yet the second run loads an empty table,
    computes every pair again, that one included, and overwrites the
    persisted table with its own rows only. *)
Theorem kmn_rerun_recomputes_recorded
    (f1 f2 : Z -> Z -> metrics) (cls : string)
    (fs0 : gmap string (list (row metrics))) (k : nat) :
  fs0 !! filename cls = None ->
  (0 < k)%nat ->
  select 100 0 (load (files (run_interrupted f1 k cls fs0)) (save_path cls)) <> [] /\
  results_df (start cls (files (run_interrupted f1 k cls fs0))) = [] /\
  computed (run_experiment f2 cls (files (run_interrupted f1 k cls fs0))) = iterations /\
  ((100, 0)%Z ∈ computed (run_experiment f2 cls (files (run_interrupted f1 k cls fs0)))) /\
  load (files (run_experiment f2 cls (files (run_interrupted f1 k cls fs0)))) (save_path cls)
  = map (fun ns => Row metrics ns.2 ns.1 (f2 ns.1 ns.2)) iterations.
Proof.
  intros Hfresh Hk. unfold run_interrupted, run_experiment.
  pose proof (kmn_start_empty f1 cls (take k iterations) fs0 Hfresh) as Hempty.
  set (st1 := foldl (body f1 cls) (start cls fs0) (take k iterations)) in *.
  destruct (kmn_sweep_computes_all f2 cls iterations (start cls (files st1))
              kmn_iterations_nodup) as [Hcomp Hrows].
  { intros n s _. rewrite Hempty. reflexivity. }
  rewrite Hempty in Hrows. cbn [start computed app] in Hcomp. cbn [app] in Hrows.
  split; [|split; [exact Hempty|split; [exact Hcomp|split]]].
  - subst st1. destruct k as [|k]; [lia|]. rewrite kmn_take_iterations.
    destruct (kmn_first_iteration_persisted f1 cls (take k (tail iterations))
                (start cls fs0)) as (rows & _ & ->).
    { cbn [start results_df]. unfold load. rewrite Hfresh. reflexivity. }
    unfold select. rewrite filter_cons_True by (cbn; auto). discriminate.
  - rewrite Hcomp, kmn_iterations_head. apply list_elem_of_here.
  - rewrite <- Hrows. rewrite kmn_iterations_head.
    destruct (kmn_first_iteration_persisted f2 cls (tail iterations)
                (start cls (files st1)) Hempty) as (rows & -> & ->).
    reflexivity.
Qed.

End KMNBenchFacts.

Lemma kmn_rerun_recomputes_recorded_witness :
  let f := fun (_ _ : Z) => tt in
  let st1 := KMNBench.run_interrupted f 3 "EconDensity" ∅ in
  let st2 := KMNBench.run_experiment f "EconDensity" (KMNBench.files st1) in
  KMNBench.select 100 0 (KMNBench.load (KMNBench.files st1) (KMNBench.save_path "EconDensity")) <> [] /\
  KMNBench.results_df (KMNBench.start "EconDensity" (KMNBench.files st1)) = [] /\
  KMNBench.computed st2 = KMNBench.iterations /\
  ((100, 0)%Z ∈ KMNBench.computed st2) /\
  KMNBench.load (KMNBench.files st2) (KMNBench.save_path "EconDensity")
  = map (fun ns => KMNBench.Row unit ns.2 ns.1 (f ns.1 ns.2)) KMNBench.iterations.
Proof.
  intros f st1 st2.
  apply (kmn_rerun_recomputes_recorded f f "EconDensity" ∅ 3).
  - reflexivity.
  - lia.
Defined.

(** ** The symmetric Gaussian-mixture simulator *)

Section SymmGMMFacts.
Import SymmGMM.
Context {F : Type} `{Arith F} {elt : Type} `{EqDecision elt}.
Context {rng entropy : Type}.
Variable RandomState_seeded : Z -> rng.
Variable RandomState_entropy : entropy -> rng.
Variable rng_random : rng -> nat -> list F * rng.
Variable rng_normal : rng -> F -> F -> nat -> list F * rng.
Variable project_to_pos_semi_def : list (list (list F)) -> list (list (list F)).
Variable simulate :
  rng -> list F -> list (list F * list (list F)) -> N ->
  list (list F) * list (list F) * rng.
Variable symmetric_moments :
  list (list F) -> Representation F elt -> list F * list F.

Abbreviation init :=
  (__init__ RandomState_seeded RandomState_entropy rng_random rng_normal
     project_to_pos_semi_def simulate symmetric_moments).

(** C9.  When the module is imported the name [G] is unbound, and the
    constructor called with a representation of a finite group raises
    [NameError] for it: no simulator is built. *)
Theorem init_imported_raises_NameError
    (os : entropy) (n_kernels : nat) (rep_X rep_Y : Representation F elt)
    (means_std : F) (random_seed : option Z) :
  continuous (group rep_X) = false ->
  init None os n_kernels rep_X rep_Y means_std random_seed = Py.Raise (Py.NameError "G").
Proof.
  intros Hfinite. unfold __init__. destruct_let_pairs.
  rewrite Hfinite. reflexivity.
Qed.

(** C7.  Two constructions that differ only in the data seed (given or
    absent) and in the entropy the operating system hands out fail alike
    or build simulators with the same weights, means and covariance
    blocks. *)
Theorem init_parameters_ignore_data_seed
    (module_G : option (Group elt)) (os1 os2 : entropy) (n_kernels : nat)
    (rep_X rep_Y : Representation F elt) (means_std : F)
    (seed1 seed2 : option Z) :
  Py.map mixture_parameters (init module_G os1 n_kernels rep_X rep_Y means_std seed1)
  = Py.map mixture_parameters (init module_G os2 n_kernels rep_X rep_Y means_std seed2).
Proof.
  unfold __init__. cbn [RandomState]. destruct_let_pairs.
  destruct (continuous (group rep_X)); [reflexivity|].
  destruct module_G as [G'|]; [|reflexivity]. cbn [negb].
  destruct_let_pairs. reflexivity.
Qed.

End SymmGMMFacts.

Lemma init_imported_raises_NameError_witness :
  SymmGMM.continuous (SymmGMM.group Examples.sign_rep) = false /\
  Examples.toy_init None 3 (Some 7%Z) = Py.Raise (Py.NameError "G").
Proof.
  split; [reflexivity|].
  apply (init_imported_raises_NameError (F := R) (elt := bool)). reflexivity.
Defined.

(** ** Sums of real arrays *)

Section RealSums.
Local Open Scope R_scope.

Lemma foldl_Rplus (a : R) (l : list R) : foldl Rplus a l = a + foldl Rplus 0 l.
Proof.
  revert a. induction l as [|x l IH]; intros a; cbn [foldl].
  - lra.
  - rewrite (IH (a + x)), (IH (0 + x)). lra.
Qed.

Lemma rsum_nil : Np.sum (F := R) [] = 0.
Proof. reflexivity. Qed.

Lemma rsum_cons (x : R) (l : list R) : Np.sum (x :: l) = x + Np.sum l.
Proof.
  unfold Np.sum. cbn [foldl add zero R_arith].
  rewrite foldl_Rplus. lra.
Qed.

Lemma rsum_app (l k : list R) : Np.sum (l ++ k) = Np.sum l + Np.sum k.
Proof.
  induction l as [|x l IH]; cbn [app].
  - rewrite rsum_nil. lra.
  - rewrite !rsum_cons, IH. lra.
Qed.

Lemma rsum_map_div (c : R) (l : list R) :
  Np.sum (map (fun w => w / c) l) = Np.sum l / c.
Proof.
  induction l as [|x l IH]; cbn [map].
  - rewrite rsum_nil. lra.
  - rewrite !rsum_cons, IH. lra.
Qed.

Lemma rsum_map_mul_l (c : R) (l : list R) :
  Np.sum (map (fun w => c * w) l) = c * Np.sum l.
Proof.
  induction l as [|x l IH]; cbn [map].
  - rewrite rsum_nil. lra.
  - rewrite !rsum_cons, IH. lra.
Qed.

Lemma rsum_concat_replicate (k : nat) (l : list R) :
  Np.sum (concat (replicate k l)) = INR k * Np.sum l.
Proof.
  induction k as [|k IH].
  - cbn [replicate concat INR]. rewrite rsum_nil. lra.
  - cbn [replicate concat]. rewrite rsum_app, IH, S_INR. lra.
Qed.

Lemma rsum_nonneg (l : list R) : Forall (fun x => 0 <= x) l -> 0 <= Np.sum l.
Proof.
  induction 1 as [|x l Hx _ IH].
  - rewrite rsum_nil. lra.
  - rewrite rsum_cons. lra.
Qed.

Lemma rsum_ext {A : Type} (f g : A -> R) (l : list A) :
  (forall a, a ∈ l -> f a = g a) -> Np.sum (map f l) = Np.sum (map g l).
Proof.
  intros Hfg. f_equal. apply map_ext_in. intros a Ha. apply Hfg.
  apply list_elem_of_In. exact Ha.
Qed.

(** Dividing non-negative numbers of positive sum by their sum gives
    non-negative numbers of sum one. *)
Lemma normalise_weights (l : list R) :
  Forall (fun x => 0 <= x) l -> 0 < Np.sum l ->
  Forall (fun x => 0 <= x) (map (fun w => w / Np.sum l) l)
  /\ Np.sum (map (fun w => w / Np.sum l) l) = 1.
Proof.
  intros Hnn Hpos. split.
  - apply Forall_map. eapply Forall_impl; [exact Hnn|].
    intros x Hx. cbn. apply Rmult_le_pos; [exact Hx|].
    left. apply Rinv_0_lt_compat. exact Hpos.
  - rewrite rsum_map_div. field. lra.
Qed.

End RealSums.

Section SymmGMMWeights.
Import SymmGMM.
Local Open Scope R_scope.
Context {elt : Type} `{EqDecision elt} {rng entropy : Type}.
Variable RandomState_seeded : Z -> rng.
Variable RandomState_entropy : entropy -> rng.
Variable rng_random : rng -> nat -> list R * rng.
Variable rng_normal : rng -> R -> R -> nat -> list R * rng.
Variable project_to_pos_semi_def : list (list (list R)) -> list (list (list R)).
Variable simulate :
  rng -> list R -> list (list R * list (list R)) -> N ->
  list (list R) * list (list R) * rng.
Variable symmetric_moments : list (list R) -> Representation R elt -> list R * list R.

Lemma Forall_concat_replicate {A : Type} (P : A -> Prop) (k : nat) (l : list A) :
  Forall P l -> Forall P (concat (replicate k l)).
Proof.
  intros Hl. induction k as [|k IH]; cbn [replicate concat].
  - constructor.
  - apply Forall_app. split; assumption.
Qed.

(** C3.  In exact arithmetic, when the [n_kernels] numbers drawn by
    [random] from the parameter generator (seed 20) are non-negative and
    not all zero, the weights returned by [_sample_weights] are
    non-negative and sum to one; and where the group-averaging branch runs
    ([G] bound, to a group with at least one element), the constructor
    returns a simulator whose weights, replicated once per group element
    and renormalised, are again non-negative and sum to one. *)
Theorem weights_nonneg_sum_to_one
    (G' : Group elt) (os : entropy) (n_kernels : nat)
    (rep_X rep_Y : Representation R elt) (means_std : R) (random_seed : option Z) :
  let draws := (rng_random (RandomState_seeded 20) n_kernels).1 in
  Forall (fun u => 0 <= u) draws ->
  0 < Np.sum draws ->
  continuous (group rep_X) = false ->
  (0 < order G')%nat ->
  (let w := (_sample_weights rng_random (RandomState_seeded 20) n_kernels).1 in
   Forall (fun x => 0 <= x) w /\ Np.sum w = 1) /\
  (exists self,
     __init__ RandomState_seeded RandomState_entropy rng_random rng_normal
       project_to_pos_semi_def simulate symmetric_moments
       (Some G') os n_kernels rep_X rep_Y means_std random_seed = Py.Return self
     /\ Forall (fun x => 0 <= x) (weights self) /\ Np.sum (weights self) = 1).
Proof.
  intros draws Hnn Hpos Hfinite Horder.
  unfold __init__, _sample_weights, RandomState. subst draws.
  destruct (rng_random (RandomState_seeded 20) n_kernels) as [u st1].
  cbn [fst] in *.
  destruct (normalise_weights u Hnn Hpos) as [Hw_nn Hw_sum].
  split; [split; assumption|].
  destruct_let_pairs. rewrite Hfinite. cbn [negb]. destruct_let_pairs.
  eexists. split; [reflexivity|]. cbn [weights].
  apply normalise_weights.
  - apply Forall_concat_replicate. exact Hw_nn.
  - change (@div R R_arith) with Rdiv in *.
    rewrite rsum_concat_replicate, Hw_sum, Rmult_1_r.
    apply lt_0_INR. exact Horder.
Qed.

End SymmGMMWeights.

Lemma weights_nonneg_sum_to_one_witness :
  let draws := (Examples.const_random tt 3).1 in
  (Forall (fun u => 0 <= u) draws /\ 0 < Np.sum draws)%R /\
  (let w := (SymmGMM._sample_weights Examples.const_random tt 3).1 in
   Forall (fun x => 0 <= x)%R w /\ Np.sum w = 1%R) /\
  (exists self,
     Examples.toy_init (Some Examples.Z2) 3 None = Py.Return self
     /\ Forall (fun x => 0 <= x)%R (SymmGMM.weights self)
     /\ Np.sum (SymmGMM.weights self) = 1%R).
Proof.
  intros draws.
  assert (Forall (fun u => 0 <= u)%R draws) as Hnn.
  { subst draws. cbn. repeat constructor; lra. }
  assert (0 < Np.sum draws)%R as Hpos.
  { subst draws. cbn [Examples.const_random fst replicate].
    rewrite !rsum_cons, rsum_nil. lra. }
  split; [split; assumption|].
  apply (weights_nonneg_sum_to_one (fun _ => tt) (fun _ : unit => tt)
           Examples.const_random Examples.const_normal (fun covs => covs)
           Examples.no_samples Examples.no_moments
           Examples.Z2 tt 3 Examples.sign_rep Examples.sign_rep (3 / 2)%R None
           Hnn Hpos).
  - reflexivity.
  - cbn. lia.
Defined.

(** ** The iterative-whitening layer *)

Section LayersFacts.
Import Layers.
Context {F : Type} `{Arith F}.

Lemma assertion_on_dim_fails (X : list (list F)) :
  py_eq (Tensor_dim X) (VInt 2) = false.
Proof. reflexivity. Qed.

(** C6.  [forward] returns on no input.  With assertions enabled the
    guard [X.dim == 2] compares a bound method with an integer and fails;
    with assertions stripped, [_update_running_stats] is called with the
    pair returned by [_compute_whitening_matrix] as its only argument and
    the call is rejected.  The running statistics are not updated and no
    output is produced. *)
Theorem forward_always_raises (debug : bool) (self : IterativeWhitening)
    (X : list (list F)) :
  forward debug self X =
  Py.Raise (if debug
            then Py.AssertionError "Only supporting 2D Tensors"
            else Py.TypeError "_update_running_stats() missing required positional argument").
Proof.
  unfold forward, _compute_whitening_matrix. rewrite assertion_on_dim_fails.
  destruct debug; cbn [andb negb]; [reflexivity|].
  destruct (bool_decide (Np.shape1 X = input_size self)); reflexivity.
Qed.

(** C8.  On an input whose width differs from [input_size],
    [_compute_whitening_matrix] never raises [ValueError]: with assertions
    enabled the guard on [X.dim] raises [AssertionError] first, as it does
    on every input, and with assertions stripped the [ValueError] object is
    returned to the caller as an ordinary value. *)
Theorem compute_whitening_matrix_on_mismatch (debug : bool) (self : IterativeWhitening)
    (X : list (list F)) :
  Np.shape1 X <> input_size self ->
  _compute_whitening_matrix debug self X =
  (if debug
   then Py.Raise (Py.AssertionError "Only supporting 2D Tensors")
   else Py.Return (VException (Py.ValueError shape_mismatch)))
  /\ (forall msg, _compute_whitening_matrix debug self X <> Py.Raise (Py.ValueError msg)).
Proof.
  intros Hne.
  assert (_compute_whitening_matrix debug self X =
          (if debug
           then Py.Raise (Py.AssertionError "Only supporting 2D Tensors")
           else Py.Return (VException (Py.ValueError shape_mismatch)))) as Hres.
  { unfold _compute_whitening_matrix. rewrite assertion_on_dim_fails.
    destruct debug; cbn [andb negb]; [reflexivity|].
    rewrite bool_decide_eq_false_2 by exact Hne. reflexivity. }
  split; [exact Hres|]. intros msg. rewrite Hres. destruct debug; discriminate.
Qed.

End LayersFacts.

Lemma compute_whitening_matrix_on_mismatch_witness :
  let layer := Examples.whitening_layer 2 (1 / 100000)%R (1 / 10)%R in
  let X := [[1; 2; 3]; [4; 5; 6]]%R in
  Np.shape1 X <> Layers.input_size layer /\
  Layers._compute_whitening_matrix false layer X
  = Py.Return (Layers.VException (Py.ValueError Layers.shape_mismatch)) /\
  Layers._compute_whitening_matrix true layer X
  = Py.Raise (Py.AssertionError "Only supporting 2D Tensors").
Proof.
  intros layer X.
  assert (Np.shape1 X <> Layers.input_size layer) as Hne by (cbn; lia).
  split; [exact Hne|]. split.
  - exact (proj1 (compute_whitening_matrix_on_mismatch false layer X Hne)).
  - exact (proj1 (compute_whitening_matrix_on_mismatch true layer X Hne)).
Defined.

(** ** Arrays by their entries *)

Section Indexing.
Context {A B C : Type}.

Lemma map_nth_seq (f : A -> B) (l : list A) (d : A) :
  map f l = map (fun i => f (nth i l d)) (seq 0 (length l)).
Proof.
  induction l as [|x l IH]; [reflexivity|].
  cbn [map length seq nth]. f_equal.
  rewrite <- seq_shift, map_map. exact IH.
Qed.

Lemma zip_with_nth_seq (f : A -> B -> C) (a : list A) (b : list B) (da : A) (db : B) (n : nat) :
  length a = n -> length b = n ->
  zip_with f a b = map (fun i => f (nth i a da) (nth i b db)) (seq 0 n).
Proof.
  revert b n. induction a as [|x a IH]; intros [|y b] n Ha Hb; subst n;
    cbn in Hb; try discriminate; [reflexivity|].
  cbn [zip_with length seq map nth]. f_equal.
  rewrite <- seq_shift, map_map. apply IH; [reflexivity|]. lia.
Qed.

Lemma nth_map_seq (f : nat -> B) (n i : nat) (d : B) :
  (i < n)%nat -> nth i (map f (seq 0 n)) d = f i.
Proof.
  intros Hi. rewrite (nth_indep _ d (f 0%nat)) by (rewrite length_map, length_seq; lia).
  rewrite map_nth, seq_nth by lia. reflexivity.
Qed.

Lemma map_seq_ext (f g : nat -> B) (n : nat) :
  (forall i, (i < n)%nat -> f i = g i) -> map f (seq 0 n) = map g (seq 0 n).
Proof.
  intros Hfg. apply map_ext_in. intros i Hi. apply Hfg. apply in_seq in Hi. lia.
Qed.

End Indexing.

Section RealBigSums.
Local Open Scope R_scope.

Lemma bigsum_ext (n : nat) (f g : nat -> R) :
  (forall i, (i < n)%nat -> f i = g i) -> Np.bigsum n f = Np.bigsum n g.
Proof. intros Hfg. unfold Np.bigsum. f_equal. apply map_seq_ext. exact Hfg. Qed.

Lemma bigsum_0 (f : nat -> R) : Np.bigsum 0 f = 0.
Proof. reflexivity. Qed.

Lemma bigsum_S (n : nat) (f : nat -> R) : Np.bigsum (S n) f = Np.bigsum n f + f n.
Proof.
  unfold Np.bigsum. rewrite seq_S, map_app, rsum_app. cbn [map Nat.add].
  rewrite rsum_cons, rsum_nil. lra.
Qed.

Lemma bigsum_mul_l (n : nat) (c : R) (f : nat -> R) :
  Np.bigsum n (fun i => c * f i) = c * Np.bigsum n f.
Proof.
  induction n as [|n IH]; [rewrite !bigsum_0; lra|].
  rewrite !bigsum_S, IH. lra.
Qed.

Lemma bigsum_mul_r (n : nat) (c : R) (f : nat -> R) :
  Np.bigsum n (fun i => f i * c) = Np.bigsum n f * c.
Proof.
  induction n as [|n IH]; [rewrite !bigsum_0; lra|].
  rewrite !bigsum_S, IH. lra.
Qed.

Lemma bigsum_plus (n : nat) (f g : nat -> R) :
  Np.bigsum n (fun i => f i + g i) = Np.bigsum n f + Np.bigsum n g.
Proof.
  induction n as [|n IH]; [rewrite !bigsum_0; lra|].
  rewrite !bigsum_S, IH. lra.
Qed.

Lemma bigsum_zero (n : nat) : Np.bigsum n (fun _ => 0) = 0.
Proof.
  induction n as [|n IH]; [reflexivity|]. rewrite bigsum_S, IH. lra.
Qed.

Lemma bigsum_swap (n m : nat) (f : nat -> nat -> R) :
  Np.bigsum n (fun i => Np.bigsum m (fun j => f i j))
  = Np.bigsum m (fun j => Np.bigsum n (fun i => f i j)).
Proof.
  induction n as [|n IH].
  - rewrite bigsum_0. symmetry. apply bigsum_zero.
  - rewrite bigsum_S, IH, <- bigsum_plus. apply bigsum_ext.
    intros j _. rewrite bigsum_S. reflexivity.
Qed.

(** A sum against an indicator picks one term. *)
Lemma bigsum_delta (n i : nat) (f : nat -> R) :
  (i < n)%nat ->
  Np.bigsum n (fun k => if decide (k = i) then f k else 0) = f i.
Proof.
  induction n as [|n IH]; intros Hi; [lia|].
  rewrite bigsum_S. destruct (decide (n = i)) as [->|Hne].
  - rewrite (bigsum_ext _ _ (fun _ => 0)), bigsum_zero; [lra|].
    intros k Hk. destruct (decide (k = i)); [lia|reflexivity].
  - rewrite IH by lia. lra.
Qed.

Lemma rsum_bigsum (l : list R) :
  Np.sum l = Np.bigsum (length l) (fun i => nth i l 0).
Proof.
  unfold Np.bigsum. rewrite <- (map_nth_seq (fun x => x) l 0), map_id. reflexivity.
Qed.

End RealBigSums.

(** ** The post-processing paths return *)

Section PostprocessFacts.
Import Model.
Context {F : Type} `{Arith F}.
Variable eigh : list (list F) -> list F * list (list F).
Variable pinv : list (list F) -> list (list F).
Variable finfo_eps : F.


End PostprocessFacts.

(** ** [predict] *)

Lemma nth_replicate_lt {A : Type} (n i : nat) (x d : A) :
  (i < n)%nat -> nth i (replicate n x) d = x.
Proof. intros Hi. apply nth_lookup_Some, lookup_replicate_2. exact Hi. Qed.

Section PredictFacts.
Import Model.
Local Open Scope R_scope.

Lemma outer_ones (fy : list R) (r : nat) :
  Np.outer fy (Np.ones r) = map (fun y => replicate r y) fy.
Proof.
  unfold Np.outer, Np.ones. apply map_ext. intros y.
  induction r as [|r IH]; [reflexivity|].
  cbn [replicate map]. rewrite IH. f_equal. cbn. lra.
Qed.

Lemma shape1_mul_mm_replicate (Vy : list (list R)) (fy : list R) (r : nat) :
  (1 <= length Vy)%nat -> length fy = length Vy ->
  Forall (fun row => length row = r) Vy ->
  Np.shape1 (Np.mul_mm Vy (map (fun y => replicate r y) fy)) = r.
Proof.
  intros Hn Hfy Hrows. destruct Vy as [|v Vy]; [cbn in Hn; lia|].
  destruct fy as [|y fy]; [discriminate|].
  cbn. rewrite length_zip_with, length_replicate.
  apply Forall_cons in Hrows as [-> _]. lia.
Qed.

Lemma mean_axis0_mul_broadcast (Vy : list (list R)) (fy : list R) (r : nat) :
  (1 <= length Vy)%nat -> length fy = length Vy ->
  Forall (fun row => length row = r) Vy ->
  Np.mean_axis0 (Np.mul_mm Vy (map (fun y => replicate r y) fy))
  = map (empirical_mean_product Vy fy) (seq 0 r).
Proof.
  intros Hn Hfy Hrows. unfold Np.mean_axis0, Np.transpose.
  rewrite shape1_mul_mm_replicate by assumption.
  rewrite map_map. apply map_seq_ext. intros i Hi.
  unfold empirical_mean_product. f_equal.
  unfold Np.col, Np.mul_mm.
  rewrite (zip_with_nth_seq _ Vy _ [] [] (length Vy)) by (rewrite ?length_map; auto).
  rewrite map_map. apply map_seq_ext. intros k Hk.
  rewrite (nth_indep (map _ fy) [] ((fun y => replicate r y) 0)) by (rewrite length_map; lia).
  rewrite map_nth.
  assert (length (nth k Vy []) = r) as Hlen.
  { rewrite Forall_forall in Hrows. apply Hrows, list_elem_of_In, nth_In. exact Hk. }
  rewrite (zip_with_nth_seq _ _ _ 0 0 r) by (rewrite ?length_replicate; auto).
  rewrite nth_map_seq by exact Hi.
  unfold Np.entry. cbn [mul zero R_arith]. f_equal.
  rewrite nth_replicate_lt by exact Hi. reflexivity.
Qed.


Lemma expansion_row (sing_val ux E : list R) (r : nat) :
  length sing_val = r -> length ux = r -> length E = r ->
  Np.sum (zip_with mul (zip_with mul sing_val ux) E)
  = Np.bigsum r (fun i => nth i sing_val 0 * nth i ux 0 * nth i E 0).
Proof.
  intros Hs Hu He.
  rewrite (zip_with_nth_seq _ _ E 0 0 r) by (rewrite ?length_zip_with; lia).
  unfold Np.bigsum. f_equal. apply map_seq_ext. intros i Hi.
  rewrite (zip_with_nth_seq _ sing_val ux 0 0 r) by assumption.
  rewrite nth_map_seq by exact Hi. reflexivity.
Qed.

Lemma rsum_replicate (r : nat) (y : R) : Np.sum (replicate r y) = INR r * y.
Proof.
  induction r as [|r IH]; cbn [replicate].
  - rewrite rsum_nil. cbn. lra.
  - rewrite rsum_cons, IH, S_INR. lra.
Qed.

Lemma broadcast_mean_is_mean (fy : list R) (r : nat) :
  (1 <= r)%nat -> broadcast_mean fy r = Np.mean fy.
Proof.
  intros Hr. unfold broadcast_mean, Np.mean_all, Np.mean, Np.ravel.
  assert (Np.sum (concat (map (fun y => replicate r y) fy)) = INR r * Np.sum fy
          /\ length (concat (map (fun y : R => replicate r y) fy)) = (length fy * r)%nat)
    as [-> ->].
  { induction fy as [|y fy [IHs IHl]]; cbn [map concat length].
    - rewrite rsum_nil. split; [lra|reflexivity].
    - rewrite rsum_app, IHs, rsum_cons, length_app, IHl, length_replicate.
      rewrite rsum_replicate. split; [lra|lia]. }
  cbn [div of_nat R_arith]. rewrite mult_INR.
  assert (INR r <> 0) by (apply not_0_INR; lia).
  destruct (decide (length fy = 0%nat)) as [Hz|Hnz].
  - rewrite Hz. cbn [INR]. unfold Rdiv. rewrite Rmult_0_l, Rinv_0. lra.
  - field. split; [|assumption]. apply not_0_INR. exact Hnz.
Qed.


Variable eigh : list (list R) -> list R * list (list R).
Variable pinv : list (list R) -> list (list R).
Variable finfo_eps : R.


End PredictFacts.



(** ** Matrix products by entries *)

Section RealMatrices.
Local Open Scope R_scope.

Lemma nth_nil_zero (j : nat) : nth j (@nil R) 0 = 0.
Proof. destruct j; reflexivity. Qed.

Lemma nth_col (M : list (list R)) (j k : nat) : nth k (Np.col j M) 0 = Np.entry M k j.
Proof.
  unfold Np.col, Np.entry.
  rewrite <- (nth_nil_zero j) at 1.
  exact (map_nth (fun r => nth j r 0) M [] k).
Qed.

Lemma length_col (M : list (list R)) (j : nat) : length (Np.col j M) = length M.
Proof. unfold Np.col. apply length_map. Qed.

Lemma dot_bigsum (u v : list R) (n : nat) :
  length u = n -> length v = n ->
  Np.dot u v = Np.bigsum n (fun k => nth k u 0 * nth k v 0).
Proof.
  intros Hu Hv. unfold Np.dot, Np.bigsum.
  rewrite (zip_with_nth_seq _ u v 0 0 n) by assumption. reflexivity.
Qed.

Lemma nth_matvec (A : list (list R)) (v : list R) (i m : nat) :
  (i < length A)%nat -> length (nth i A []) = m -> length v = m ->
  nth i (Np.matvec A v) 0 = Np.bigsum m (fun k => Np.entry A i k * nth k v 0).
Proof.
  intros Hi Hrow Hv. unfold Np.matvec.
  rewrite (nth_indep _ 0 (Np.dot [] v)) by (rewrite length_map; exact Hi).
  rewrite (map_nth (fun r => Np.dot r v)).
  rewrite (dot_bigsum _ _ m) by assumption. reflexivity.
Qed.

Lemma length_matvec (A : list (list R)) (v : list R) : length (Np.matvec A v) = length A.
Proof. unfold Np.matvec. apply length_map. Qed.

Lemma length_matmul (A B : list (list R)) : length (Np.matmul A B) = length A.
Proof. unfold Np.matmul. apply length_map. Qed.

Lemma nth_matmul (A B : list (list R)) (i : nat) :
  (i < length A)%nat ->
  nth i (Np.matmul A B) []
  = map (fun j => Np.dot (nth i A []) (Np.col j B)) (seq 0 (Np.shape1 B)).
Proof.
  intros Hi. unfold Np.matmul.
  set (f := fun r => map (fun j => Np.dot r (Np.col j B)) (seq 0 (Np.shape1 B))).
  rewrite (nth_indep _ [] (f [])) by (rewrite length_map; exact Hi).
  exact (map_nth f A [] i).
Qed.

Lemma entry_matmul (A B : list (list R)) (i j m : nat) :
  (i < length A)%nat -> (j < Np.shape1 B)%nat ->
  length (nth i A []) = m -> length B = m ->
  Np.entry (Np.matmul A B) i j = Np.bigsum m (fun k => Np.entry A i k * Np.entry B k j).
Proof.
  intros Hi Hj Hrow HB. unfold Np.entry at 1.
  rewrite nth_matmul by exact Hi. rewrite nth_map_seq by exact Hj.
  rewrite (dot_bigsum _ _ m) by (rewrite ?length_col; assumption).
  apply bigsum_ext. intros k _. rewrite nth_col. reflexivity.
Qed.

Lemma length_nth_matmul (A B : list (list R)) (i : nat) :
  (i < length A)%nat -> length (nth i (Np.matmul A B) []) = Np.shape1 B.
Proof. intros Hi. rewrite nth_matmul by exact Hi. rewrite length_map, length_seq. reflexivity. Qed.

Lemma length_transpose (Q : list (list R)) : length (Np.transpose Q) = Np.shape1 Q.
Proof. unfold Np.transpose. rewrite length_map, length_seq. reflexivity. Qed.

Lemma entry_transpose (Q : list (list R)) (i j : nat) :
  (i < Np.shape1 Q)%nat -> Np.entry (Np.transpose Q) i j = Np.entry Q j i.
Proof.
  intros Hi. unfold Np.entry at 1, Np.transpose.
  rewrite nth_map_seq by exact Hi. apply nth_col.
Qed.

Lemma shape1_transpose (Q : list (list R)) :
  (1 <= Np.shape1 Q)%nat -> Np.shape1 (Np.transpose Q) = length Q.
Proof.
  intros Hc. unfold Np.transpose. destruct (Np.shape1 Q) as [|c]; [lia|].
  cbn [seq map Np.shape1]. apply length_col.
Qed.

Lemma shape1_square (Q : list (list R)) (n : nat) :
  (1 <= n)%nat -> length Q = n -> Forall (fun row => length row = n) Q ->
  Np.shape1 Q = n.
Proof.
  intros Hn Hlen Hrows. destruct Q as [|r Q]; [cbn in Hlen; lia|].
  apply Forall_cons in Hrows as [Hr _]. exact Hr.
Qed.

Lemma length_row (Q : list (list R)) (n i : nat) :
  Forall (fun row => length row = n) Q -> (i < length Q)%nat ->
  length (nth i Q []) = n.
Proof.
  intros Hrows Hi. rewrite Forall_forall in Hrows.
  apply Hrows, list_elem_of_In, nth_In. exact Hi.
Qed.

Lemma entry_mul_mv (Q : list (list R)) (s : list R) (n i k : nat) :
  Forall (fun row => length row = n) Q -> length s = n ->
  (i < length Q)%nat -> (k < n)%nat ->
  Np.entry (Np.mul_mv Q s) i k = Np.entry Q i k * nth k s 0.
Proof.
  intros Hrows Hs Hi Hk. unfold Np.entry, Np.mul_mv.
  set (f := fun r => zip_with mul r s).
  rewrite (nth_indep _ [] (f [])) by (rewrite length_map; exact Hi).
  rewrite (map_nth f). subst f. cbn beta.
  rewrite (zip_with_nth_seq _ _ s 0 0 n) by (auto using length_row).
  rewrite nth_map_seq by exact Hk. reflexivity.
Qed.

Lemma entry_diag (s : list R) (i j : nat) :
  (i < length s)%nat -> (j < length s)%nat ->
  Np.entry (Np.diag s) i j = if decide (i = j) then nth i s 0 else 0.
Proof.
  intros Hi Hj. unfold Np.entry, Np.diag.
  rewrite (nth_lookup_Some _ i []
             (map (fun j => if decide (i = j) then nth i s 0 else zero) (seq 0 (length s)))).
  - rewrite nth_map_seq by exact Hj. reflexivity.
  - rewrite list_lookup_imap.
    destruct (nth_lookup_or_length s i 0) as [->|]; [reflexivity|lia].
Qed.

Lemma length_diag (s : list R) : length (Np.diag s) = length s.
Proof. unfold Np.diag. apply length_imap. Qed.

Lemma shape1_diag (s : list R) : Np.shape1 (Np.diag s) = length s.
Proof.
  unfold Np.diag. destruct s as [|x s]; [reflexivity|].
  cbn [imap Np.shape1]. rewrite length_map, length_seq. reflexivity.
Qed.

(** Scaling the columns of [Q] is multiplying by a diagonal matrix on
    the right. *)
Lemma mul_mv_is_matmul_diag (Q : list (list R)) (s : list R) (n : nat) :
  Forall (fun row => length row = n) Q -> length s = n ->
  Np.mul_mv Q s = Np.matmul Q (Np.diag s).
Proof.
  intros Hrows Hs. unfold Np.mul_mv, Np.matmul. rewrite shape1_diag, Hs.
  apply map_ext_in. intros r Hr. apply list_elem_of_In in Hr.
  rewrite Forall_forall in Hrows. specialize (Hrows r Hr).
  rewrite (zip_with_nth_seq _ r s 0 0 n) by assumption.
  apply map_seq_ext. intros j Hj.
  rewrite (dot_bigsum _ _ n) by (rewrite ?length_col, ?length_diag; assumption).
  rewrite (bigsum_ext _ _ (fun k => if decide (k = j) then nth k r 0 * nth k s 0 else 0)).
  - rewrite bigsum_delta by exact Hj. reflexivity.
  - intros k Hk. rewrite nth_col, entry_diag by lia.
    destruct (decide (k = j)); lra.
Qed.

Lemma entry_eye (n i j : nat) :
  (i < n)%nat -> (j < n)%nat ->
  Np.entry (Np.eye n) i j = if decide (i = j) then 1 else 0.
Proof.
  intros Hi Hj. unfold Np.entry, Np.eye.
  rewrite nth_map_seq by exact Hi. rewrite nth_map_seq by exact Hj. reflexivity.
Qed.

(** *** The product [Q diag(s) Q^T] for a square [Q] with orthonormal columns *)

Section Spectral.
Variables (Q : list (list R)) (s : list R) (n : nat).
Hypothesis Hn : (1 <= n)%nat.
Hypothesis HQ_rows : length Q = n.
Hypothesis HQ_cols : Forall (fun row => length row = n) Q.
Hypothesis Hs : length s = n.

Let S := Np.matmul (Np.mul_mv Q s) (Np.transpose Q).

Lemma spectral_shape1_Q : Np.shape1 Q = n.
Proof. apply shape1_square; assumption. Qed.

Lemma spectral_length : length S = n.
Proof. unfold S. rewrite length_matmul. unfold Np.mul_mv. rewrite length_map. exact HQ_rows. Qed.

Lemma spectral_shape1 : Np.shape1 S = n.
Proof.
  pose proof spectral_length as Hlen.
  assert (length (nth 0 S []) = n) as Hrow.
  { unfold S. rewrite length_nth_matmul.
    - rewrite shape1_transpose by (rewrite spectral_shape1_Q; lia). exact HQ_rows.
    - unfold Np.mul_mv. rewrite length_map. lia. }
  destruct S as [|r S']; [cbn in Hlen; lia|]. exact Hrow.
Qed.

Lemma spectral_row_length (a : nat) : (a < n)%nat -> length (nth a S []) = n.
Proof.
  intros Ha. unfold S. rewrite length_nth_matmul.
  - rewrite shape1_transpose by (rewrite spectral_shape1_Q; lia). exact HQ_rows.
  - unfold Np.mul_mv. rewrite length_map. lia.
Qed.

Lemma spectral_entry (a b : nat) :
  (a < n)%nat -> (b < n)%nat ->
  Np.entry S a b = Np.bigsum n (fun k => Np.entry Q a k * nth k s 0 * Np.entry Q b k).
Proof.
  intros Ha Hb. unfold S.
  rewrite (entry_matmul _ _ a b n).
  - apply bigsum_ext. intros k Hk.
    rewrite (entry_mul_mv _ _ n) by (assumption || lia).
    rewrite entry_transpose by (rewrite spectral_shape1_Q; exact Hk). reflexivity.
  - unfold Np.mul_mv. rewrite length_map. lia.
  - rewrite shape1_transpose by (rewrite spectral_shape1_Q; lia). lia.
  - unfold Np.mul_mv.
    set (f := fun r => zip_with mul r s).
    rewrite (nth_indep _ [] (f [])) by (rewrite length_map; lia).
    rewrite (map_nth f). subst f. cbn beta.
    rewrite length_zip_with, (length_row Q n) by (assumption || lia). lia.
  - rewrite length_transpose. apply spectral_shape1_Q.
Qed.

Hypothesis Horth : Np.matmul (Np.transpose Q) Q = Np.eye n.

Lemma orthonormal_columns (k i : nat) :
  (k < n)%nat -> (i < n)%nat ->
  Np.bigsum n (fun b => Np.entry Q b k * Np.entry Q b i) = if decide (k = i) then 1 else 0.
Proof.
  intros Hk Hi. rewrite <- (entry_eye n k i) by assumption. rewrite <- Horth.
  rewrite (entry_matmul _ _ k i n).
  - apply bigsum_ext. intros b Hb.
    rewrite entry_transpose by (rewrite spectral_shape1_Q; exact Hk). reflexivity.
  - rewrite length_transpose, spectral_shape1_Q. exact Hk.
  - rewrite spectral_shape1_Q. exact Hi.
  - unfold Np.transpose. rewrite nth_map_seq by (rewrite spectral_shape1_Q; exact Hk).
    rewrite length_col. exact HQ_rows.
  - exact HQ_rows.
Qed.

(** Column [i] of [Q] is an eigenvector of [S] for [s_i]. *)
Lemma spectral_eigenvector (a i : nat) :
  (a < n)%nat -> (i < n)%nat ->
  Np.bigsum n (fun b => Np.entry S a b * Np.entry Q b i) = nth i s 0 * Np.entry Q a i.
Proof.
  intros Ha Hi.
  rewrite (bigsum_ext _ _
    (fun b => Np.bigsum n (fun k => Np.entry Q a k * nth k s 0
                                     * (Np.entry Q b k * Np.entry Q b i)))).
  2:{ intros b Hb. rewrite spectral_entry by assumption.
      rewrite <- bigsum_mul_r. apply bigsum_ext. intros k _. lra. }
  rewrite bigsum_swap.
  rewrite (bigsum_ext _ _
    (fun k => if decide (k = i) then Np.entry Q a k * nth k s 0 else 0)).
  - rewrite bigsum_delta by exact Hi. lra.
  - intros k Hk. rewrite bigsum_mul_l, orthonormal_columns by assumption.
    destruct (decide (k = i)); lra.
Qed.

(** ... and of [S @ S] for [s_i * s_i]. *)
Lemma spectral_square_eigenvector (i : nat) :
  (i < n)%nat ->
  Np.matvec (Np.matmul S S) (Np.col i Q)
  = map (fun x => (nth i s 0 * nth i s 0) * x) (Np.col i Q).
Proof.
  intros Hi. apply (nth_ext _ _ 0 0).
  { rewrite length_matvec, length_matmul, length_map, length_col, spectral_length. lia. }
  intros a Ha. rewrite length_matvec, length_matmul, spectral_length in Ha.
  rewrite (nth_matvec _ _ a n);
    [|rewrite length_matmul, spectral_length; exact Ha
     |rewrite length_nth_matmul by (rewrite spectral_length; exact Ha); apply spectral_shape1
     |rewrite length_col; exact HQ_rows].
  rewrite (nth_indep _ 0 ((fun x => nth i s 0 * nth i s 0 * x) 0))
    by (rewrite length_map, length_col; lia).
  rewrite (map_nth (fun x => nth i s 0 * nth i s 0 * x)), nth_col.
  rewrite (bigsum_ext _ _
    (fun b => Np.bigsum n (fun c => Np.entry S a c * (Np.entry S c b * Np.entry Q b i)))).
  2:{ intros b Hb. rewrite nth_col.
      rewrite (entry_matmul _ _ a b n);
        [|rewrite spectral_length; exact Ha
         |rewrite spectral_shape1; exact Hb
         |apply spectral_row_length; exact Ha
         |apply spectral_length].
      rewrite <- bigsum_mul_r. apply bigsum_ext. intros c _. lra. }
  rewrite bigsum_swap.
  rewrite (bigsum_ext _ _ (fun c => nth i s 0 * (Np.entry S a c * Np.entry Q c i))).
  2:{ intros c Hc. rewrite bigsum_mul_l, spectral_eigenvector by assumption. lra. }
  rewrite bigsum_mul_l, spectral_eigenvector by assumption. lra.
Qed.

End Spectral.

End RealMatrices.

(** ** [sqrtmh] *)

Section SqrtmhFacts.
Import Model.
Local Open Scope R_scope.

Lemma foldl_max_ge (m : R) (v : list R) :
  m <= foldl (fun m y => if ltb m y then y else m) m v
  /\ Forall (fun y => y <= foldl (fun m y => if ltb m y then y else m) m v) v.
Proof.
  set (f := fun m y : R => if ltb m y then y else m).
  revert m. induction v as [|y v IH]; intros m; cbn [foldl].
  - split; [lra|constructor].
  - destruct (IH (f m y)) as [IH1 IH2].
    assert (m <= f m y /\ y <= f m y) as [Hm Hy].
    { unfold f. cbn [ltb R_arith]. destruct (Rlt_dec m y) as [Hlt|Hge]; lra. }
    split; [lra|]. constructor; [lra|exact IH2].
Qed.

Lemma max_ge (v : list R) : Forall (fun y => y <= Np.max v) v.
Proof.
  destruct v as [|x v]; [constructor|]. unfold Np.max.
  destruct (foldl_max_ge x v) as [H1 H2]. constructor; assumption.
Qed.

(** An eigenvalue above the threshold is positive, as long as the size
    times the machine epsilon stays below one. *)
Lemma above_threshold_pos (L : list R) (eps x : R) :
  0 < eps -> INR (length L) * eps < 1 -> x ∈ L ->
  Np.max L * INR (length L) * eps < x -> 0 < x.
Proof.
  intros Heps Hsmall Hx Hthr.
  pose proof (max_ge L) as Hmax. rewrite Forall_forall in Hmax. specialize (Hmax x Hx).
  assert (0 < INR (length L)) as Hlen.
  { apply lt_0_INR. destruct L; [inversion Hx|cbn; lia]. }
  destruct (Rle_dec 0 (Np.max L)) as [Hpos|Hneg].
  - assert (0 <= Np.max L * INR (length L) * eps); [|lra].
    apply Rmult_le_pos; [apply Rmult_le_pos|]; lra.
  - exfalso.
    assert (Np.max L * 1 <= Np.max L * (INR (length L) * eps)) as Hle
      by (apply Rmult_le_compat_neg_l; lra).
    rewrite Rmult_assoc in Hthr. lra.
Qed.

Variable eigh : list (list R) -> list R * list (list R).

Lemma sqrtmh_unfold (eps : R) (A : list (list R)) (L : list R) (Q : list (list R)) :
  eigh A = (L, Q) ->
  sqrtmh eigh eps A
  = Np.matmul (Np.mul_mv Q (map R_sqrt.sqrt (clamped eps L))) (Np.transpose Q).
Proof.
  intros Heig. unfold sqrtmh. rewrite Heig. unfold clamped, clamp_threshold.
  do 3 f_equal. apply map_ext. intros x. cbn [ltb leb R_arith mul of_nat zero].
  destruct (Rlt_dec _ x), (Rle_dec x _); try reflexivity; lra.
Qed.

Lemma nth_clamped (eps : R) (L : list R) (i : nat) :
  nth i (clamped eps L) 0
  = if Rlt_dec (clamp_threshold eps L) (nth i L 0) then nth i L 0 else 0.
Proof.
  unfold clamped.
  set (f := fun x => if leb x (clamp_threshold eps L) then zero else x).
  assert (forall x, f x = if Rlt_dec (clamp_threshold eps L) x then x else 0) as Hf.
  { intros x. unfold f. cbn [leb zero R_arith].
    destruct (Rlt_dec _ x), (Rle_dec x _); try reflexivity; lra. }
  destruct (decide (i < length L)%nat) as [Hi|Hi].
  - rewrite (nth_indep _ 0 (f 0)) by (rewrite length_map; exact Hi).
    rewrite (map_nth f). apply Hf.
  - rewrite !nth_overflow by (rewrite ?length_map; lia).
    destruct (Rlt_dec _ 0); reflexivity.
Qed.

(** C2.  In exact arithmetic, with [(L, Q)] what [eigh] returns for [A]
    ([Q] square, of the size of [L]): [sqrtmh(A)] is
    [Q diag(sqrt(L')) Q^T], where [L'] has zero in place of every
    eigenvalue at or below [max(L) * size * eps]; and when the columns of
    [Q] are orthonormal and [size * eps < 1], the square of the result
    maps the eigenvector [q_i] to [L_i q_i], which is [A q_i] for an
    eigenpair of [A], when [L_i] is above the threshold, and to zero when
    [L_i] is at or below it. *)
Theorem sqrtmh_spectral (eps : R) (A : list (list R)) (L : list R) (Q : list (list R)) :
  eigh A = (L, Q) ->
  let n := length L in
  (1 <= n)%nat ->
  length Q = n ->
  Forall (fun row => length row = n) Q ->
  let threshold := clamp_threshold eps L in
  let S := sqrtmh eigh eps A in
  S = Np.matmul (Np.matmul Q (Np.diag (map R_sqrt.sqrt (clamped eps L)))) (Np.transpose Q)
  /\ (0 < eps -> INR n * eps < 1 ->
      Np.matmul (Np.transpose Q) Q = Np.eye n ->
      forall i, (i < n)%nat ->
        let q := Np.col i Q in
        (threshold < nth i L 0 ->
         Np.matvec (Np.matmul S S) q = map (fun x => nth i L 0 * x) q
         /\ (Np.matvec A q = map (fun x => nth i L 0 * x) q ->
             Np.matvec (Np.matmul S S) q = Np.matvec A q))
        /\ (nth i L 0 <= threshold ->
            Np.matvec (Np.matmul S S) q = Np.zeros n)).
Proof.
  intros Heig n Hn HQ_rows HQ_cols threshold S.
  assert (length (map R_sqrt.sqrt (clamped eps L)) = n) as Hs.
  { unfold clamped. rewrite !length_map. reflexivity. }
  subst S. rewrite (sqrtmh_unfold eps A L Q Heig). split.
  { rewrite (mul_mv_is_matmul_diag Q _ n) by assumption. reflexivity. }
  intros Heps Hsmall Horth i Hi q.
  pose proof (spectral_square_eigenvector Q _ n Hn HQ_rows HQ_cols Hs Horth i Hi) as Hsq.
  fold q in Hsq.
  assert (nth i (map R_sqrt.sqrt (clamped eps L)) 0 = R_sqrt.sqrt (nth i (clamped eps L) 0))
    as Hnth.
  { rewrite <- sqrt_0 at 1. apply map_nth. }
  rewrite Hnth, nth_clamped in Hsq. fold threshold in Hsq.
  split.
  - intros Habove. destruct (Rlt_dec threshold (nth i L 0)) as [_|]; [|contradiction].
    assert (0 < nth i L 0) as Hpos.
    { apply (above_threshold_pos L eps); try assumption.
      apply list_elem_of_In, nth_In. exact Hi. }
    rewrite sqrt_sqrt in Hsq by lra.
    split; [exact Hsq|]. intros Heigen. rewrite Heigen. exact Hsq.
  - intros Hbelow. destruct (Rlt_dec threshold (nth i L 0)) as [|_]; [lra|].
    rewrite Hsq, sqrt_0. unfold q, Np.zeros.
    rewrite <- HQ_rows, <- (length_col Q i).
    generalize (Np.col i Q). intros v. induction v as [|x v IH]; [reflexivity|].
    cbn [map length replicate]. rewrite IH. f_equal. cbn. lra.
Qed.

End SqrtmhFacts.

Lemma sqrtmh_spectral_witness :
  let eps := (1 / 8)%R in
  let L := [0; 4]%R in
  let Q := [[0; 1]; [1; 0]]%R in
  let S := Model.sqrtmh Examples.eigh_A2 eps Examples.A2 in
  Examples.eigh_A2 Examples.A2 = (L, Q) /\
  (1 <= length L)%nat /\ length Q = length L /\
  Forall (fun row => length row = length L) Q /\
  (0 < eps)%R /\ (INR (length L) * eps < 1)%R /\
  Np.matmul (Np.transpose Q) Q = Np.eye (length L) /\
  (Model.clamp_threshold eps L < nth 1 L 0)%R /\
  (nth 0 L 0 <= Model.clamp_threshold eps L)%R /\
  Np.matvec Examples.A2 (Np.col 1 Q) = map (fun x => nth 1 L 0 * x)%R (Np.col 1 Q) /\
  S = Np.matmul (Np.matmul Q (Np.diag (map R_sqrt.sqrt (Model.clamped eps L))))
        (Np.transpose Q) /\
  Np.matvec (Np.matmul S S) (Np.col 1 Q) = Np.matvec Examples.A2 (Np.col 1 Q) /\
  Np.matvec (Np.matmul S S) (Np.col 0 Q) = Np.zeros (length L).
Proof.
  intros eps L Q S.
  assert (Forall (fun row : list R => length row = length L) Q) as Hcols
    by (repeat constructor).
  assert (0 < eps)%R as Heps by (unfold eps; lra).
  assert (INR (length L) * eps < 1)%R as Hsmall by (unfold eps; cbn; lra).
  assert (Np.matmul (Np.transpose Q) Q = Np.eye (length L)) as Horth.
  { real_arrays. }
  assert (Model.clamp_threshold eps L = 1%R) as Hthr.
  { unfold Model.clamp_threshold, Np.max, eps, L. cbn.
    destruct (Rlt_dec 0 4); lra. }
  assert (Model.clamp_threshold eps L < nth 1 L 0)%R as Habove by (rewrite Hthr; cbn; lra).
  assert (nth 0 L 0 <= Model.clamp_threshold eps L)%R as Hbelow by (rewrite Hthr; cbn; lra).
  assert (Np.matvec Examples.A2 (Np.col 1 Q) = map (fun x => nth 1 L 0 * x)%R (Np.col 1 Q))
    as Heigen.
  { real_arrays. }
  destruct (sqrtmh_spectral Examples.eigh_A2 eps Examples.A2 L Q eq_refl
              ltac:(cbn; lia) eq_refl Hcols) as [Hform Hsquare].
  destruct (Hsquare Heps Hsmall Horth 1%nat ltac:(cbn; lia)) as [Hkept _].
  destruct (Hsquare Heps Hsmall Horth 0%nat ltac:(cbn; lia)) as [_ Hzero].
  repeat split; try assumption; try reflexivity; try (cbn; lia).
  - exact (proj2 (Hkept Habove) Heigen).
  - exact (Hzero Hbelow).
Defined.

(** ** IEEE arithmetic on zeros, infinities and NaN *)

Section Binary64.
Local Open Scope Z_scope.





Lemma f64_mul_nan_l (x : spec_float) : SFmul 53 1024 S754_nan x = S754_nan.
Proof. reflexivity. Qed.

Lemma f64_mul_nan_r (x : spec_float) : SFmul 53 1024 x S754_nan = S754_nan.
Proof. destruct x; reflexivity. Qed.

Lemma f64_add_nan_l (x : spec_float) : SFadd 53 1024 S754_nan x = S754_nan.
Proof. reflexivity. Qed.





Lemma f64_div_zero_finite (m : positive) (e : Z) :
  SFdiv 53 1024 (S754_zero false) (S754_finite false m e) = S754_zero false.
Proof. reflexivity. Qed.

Lemma f64_one_div_zero :
  SFdiv 53 1024 (f64_of_nat 1) (S754_zero false) = S754_infinity false.
Proof. reflexivity. Qed.

End Binary64.

Section Float64Arrays.
Import Model.
Variable libm_exp : spec_float -> spec_float.
#[local] Hint Extern 0 (Arith spec_float) =>
  exact (f64_arith libm_exp) : typeclass_instances.











(** *** The probability queries on an empty interval *)

Variable eigh : list (list spec_float) -> list spec_float * list (list spec_float).
Variable pinv : list (list spec_float) -> list (list spec_float).
Variable finfo_eps : spec_float.







End Float64Arrays.



(* ###################################################################### *)
(** * Part III: further properties of the code *)
(* ###################################################################### *)

(** ** Division by the number of training rows *)

Section EmptyTrainingSet.
Import Model.
Context {F : Type} `{Arith F}.
Variable eigh : list (list F) -> list F * list (list F).
Variable pinv : list (list F) -> list (list F).
Variable finfo_eps : F.

Lemma postprocess_UV_empty (self : DeepSVD F) (X_test : option (list (list F))) :
  training_X self = [] ->
  postprocess_UV eigh pinv finfo_eps self X_test
  = Py.Raise (Py.ZeroDivisionError "0.0 cannot be raised to a negative power").
Proof.
  intros HX. unfold postprocess_UV. rewrite HX. cbn [length].
  destruct_let_pairs. reflexivity.
Qed.

(** X1.  On a model whose training arrays hold no row, the integer
    [n ** -1] is a division by zero: both probability estimators raise
    [ZeroDivisionError] on either post-processing path, and so does
    [predict] on the whitening path. *)
Theorem empty_training_set_raises_ZeroDivisionError (self : DeepSVD F)
    (interval_A interval_B : F * F) (X_test : list (list F))
    (observable : list (list F) -> list (list F)) (postprocessing : bool) :
  training_X self = [] ->
  training_Y self = [] ->
  exists msg,
    conditional_probability eigh pinv finfo_eps self interval_A interval_B postprocessing
    = Py.Raise (Py.ZeroDivisionError msg) /\
    joint_probability eigh pinv finfo_eps self interval_A interval_B postprocessing
    = Py.Raise (Py.ZeroDivisionError msg) /\
    predict eigh pinv finfo_eps self X_test observable true
    = Py.Raise (Py.ZeroDivisionError msg).
Proof.
  intros HX HY. exists "0.0 cannot be raised to a negative power".
  unfold conditional_probability, joint_probability, predict.
  destruct postprocessing.
  - rewrite !postprocess_UV_empty by exact HX. repeat split; reflexivity.
  - rewrite !postprocess_UV_empty by exact HX.
    unfold postprocess_UV_tmp. rewrite HY.
    cbn [mbind result_bind Py.bind mret result_ret length int_pow_neg1 tonp].
    repeat split; reflexivity.
Qed.

End EmptyTrainingSet.

(** ** The singular values of the unwhitened path *)

Section SingularValues.
Import Model.
Local Open Scope R_scope.

Lemma singular_value_bounds (w : R) :
  0 < R_sqrt.sqrt (Rtrigo_def.exp (- (w * w))) <= 1
  /\ (R_sqrt.sqrt (Rtrigo_def.exp (- (w * w))) = 1 <-> w = 0).
Proof.
  pose proof (exp_pos (- (w * w))) as Hpos.
  assert (Rtrigo_def.exp (- (w * w)) <= 1) as Hle.
  { rewrite <- exp_0. destruct (Req_dec w 0) as [->|Hw].
    - rewrite Rmult_0_l, Ropp_0. lra.
    - left. apply exp_increasing. nra. }
  split; [split|split].
  - apply sqrt_lt_R0. exact Hpos.
  - rewrite <- sqrt_1. apply sqrt_le_1_alt. exact Hle.
  - intros Hs.
    assert (Rtrigo_def.exp (- (w * w)) = 1) as He.
    { rewrite <- (sqrt_sqrt (Rtrigo_def.exp (- (w * w)))) by lra. rewrite Hs. lra. }
    rewrite <- exp_0 in He. apply exp_inv in He. nra.
  - intros ->. rewrite Rmult_0_l, Ropp_0, exp_0. apply sqrt_1.
Qed.

(** X3.  In exact arithmetic the singular values [sqrt(exp(-w**2))] of
    the unwhitened path, one per weight of the singular layer, lie in the
    interval from 0 (excluded) to 1 (included), and one of them is 1
    only where the weight is 0. *)
Theorem singular_values_in_unit_interval (self : DeepSVD R) :
  length (singular_values self) = length (S_weights self) /\
  forall i w, S_weights self !! i = Some w ->
    exists s, singular_values self !! i = Some s /\ 0 < s <= 1 /\ (s = 1 <-> w = 0).
Proof.
  unfold singular_values. split; [apply length_map|].
  intros i w Hw. eexists. rewrite list_lookup_fmap, Hw. split; [reflexivity|].
  cbn [sqrt exp neg mul R_arith]. apply singular_value_bounds.
Qed.

End SingularValues.

(** ** Centring of the features *)

Section Centring.
Import Model.
Local Open Scope R_scope.

Lemma rsum_zip_with_sub (a b : list R) :
  length a = length b ->
  Np.sum (zip_with sub a b) = Np.sum a - Np.sum b.
Proof.
  revert b. induction a as [|x a IH]; intros [|y b] Hlen; try discriminate.
  - cbn. lra.
  - cbn [zip_with]. rewrite !rsum_cons, IH by (cbn in Hlen; lia).
    cbn [sub R_arith]. lra.
Qed.

Lemma rmean_of_zero_sum (l : list R) : Np.sum l = 0 -> Np.mean l = 0.
Proof.
  intros Hs. unfold Np.mean. rewrite Hs. cbn [div R_arith]. unfold Rdiv. apply Rmult_0_l.
Qed.

Lemma zip_with_sub_zero (row : list R) (r : nat) :
  length row = r -> zip_with sub row (replicate r 0) = row.
Proof.
  intros <-. induction row as [|x row IH]; [reflexivity|].
  cbn [length replicate zip_with]. rewrite IH. cbn [sub R_arith]. f_equal. lra.
Qed.

Lemma center_features_rows (A : list (list R)) (r : nat) :
  Forall (fun row => length row = r) A -> Np.shape1 A = r ->
  center_features A
  = map (fun row => zip_with sub row (replicate r (Np.mean row))) A.
Proof.
  intros Hrows Hshape. unfold center_features. rewrite Hshape.
  unfold Np.sub_mm, Np.mean_axis_last. rewrite outer_ones.
  clear Hshape. induction A as [|row A IH]; [reflexivity|].
  apply Forall_cons in Hrows as [_ Hrows].
  cbn [map zip_with]. rewrite IH by exact Hrows. reflexivity.
Qed.

(** X4.  In exact arithmetic, centring an array of [r >= 1] columns
    leaves every row with sum zero, hence mean zero, and keeps its shape;
    centring a second time changes nothing. *)
Theorem center_features_rows_sum_to_zero (A : list (list R)) (r : nat) :
  (1 <= r)%nat ->
  (1 <= length A)%nat ->
  Forall (fun row => length row = r) A ->
  Forall (fun row => length row = r /\ Np.sum row = 0 /\ Np.mean row = 0) (center_features A)
  /\ length (center_features A) = length A
  /\ center_features (center_features A) = center_features A.
Proof.
  intros Hr Hn Hrows.
  assert (Np.shape1 A = r) as Hshape.
  { destruct A as [|row A]; [cbn in Hn; lia|]. apply Forall_cons in Hrows as [Hrow _].
    exact Hrow. }
  assert (INR r <> 0) as Hr0 by (apply not_0_INR; lia).
  assert (forall row, length row = r ->
            let row' := zip_with sub row (replicate r (Np.mean row)) in
            length row' = r /\ Np.sum row' = 0 /\ Np.mean row' = 0) as Hrow.
  { intros row Hlen row'. subst row'.
    assert (length (zip_with sub row (replicate r (Np.mean row))) = r) as Hlen'
      by (rewrite length_zip_with, length_replicate; lia).
    assert (Np.sum (zip_with sub row (replicate r (Np.mean row))) = 0) as Hsum.
    { rewrite rsum_zip_with_sub by (rewrite length_replicate; exact Hlen).
      rewrite rsum_replicate. unfold Np.mean. rewrite Hlen.
      cbn [div of_nat R_arith]. field. exact Hr0. }
    split; [exact Hlen'|]. split; [exact Hsum|].
    apply rmean_of_zero_sum, Hsum. }
  assert (Forall (fun row => length row = r /\ Np.sum row = 0 /\ Np.mean row = 0)
            (center_features A)) as Hcentred.
  { rewrite (center_features_rows A r Hrows Hshape).
    apply Forall_fmap. eapply Forall_impl; [exact Hrows|].
    intros row Hlen. apply Hrow, Hlen. }
  assert (length (center_features A) = length A) as Hlen.
  { rewrite (center_features_rows A r Hrows Hshape). apply length_map. }
  split; [exact Hcentred|]. split; [exact Hlen|].
  assert (Forall (fun row : list R => length row = r) (center_features A)) as Hrows'.
  { eapply Forall_impl; [exact Hcentred|]. intros row [Hl _]. exact Hl. }
  assert (Np.shape1 (center_features A) = r) as Hshape'.
  { destruct (center_features A) as [|row A']; [cbn in Hlen; lia|].
    apply Forall_cons in Hrows' as [Hl _]. exact Hl. }
  rewrite (center_features_rows (center_features A) r Hrows' Hshape').
  rewrite <- (map_id (center_features A)) at 2.
  apply map_ext_in. intros row Hin.
  rewrite Forall_forall in Hcentred. apply list_elem_of_In in Hin.
  destruct (Hcentred row Hin) as (Hl & _ & Hmean).
  rewrite Hmean. apply zip_with_sub_zero, Hl.
Qed.

End Centring.

Lemma empty_training_set_raises_ZeroDivisionError_witness :
  let self := Examples.empty_model in
  Model.training_X self = [] /\ Model.training_Y self = [] /\
  exists msg,
    Model.conditional_probability Examples.no_eigh (fun M => M) 0%R self
      (0, 1)%R (0, 1)%R false = Py.Raise (Py.ZeroDivisionError msg) /\
    Model.joint_probability Examples.no_eigh (fun M => M) 0%R self
      (0, 1)%R (0, 1)%R false = Py.Raise (Py.ZeroDivisionError msg) /\
    Model.predict Examples.no_eigh (fun M => M) 0%R self [[2]]%R (fun Y => Y) true
    = Py.Raise (Py.ZeroDivisionError msg).
Proof.
  intros self. split; [reflexivity|]. split; [reflexivity|].
  exact (empty_training_set_raises_ZeroDivisionError Examples.no_eigh (fun M => M) 0%R
           self (0, 1)%R (0, 1)%R [[2]]%R (fun Y => Y) false eq_refl eq_refl).
Defined.

Lemma center_features_rows_sum_to_zero_witness :
  let A := [[1; 2; 3]; [4; 5; 6]]%R in
  (1 <= 3)%nat /\ (1 <= length A)%nat /\
  Forall (fun row => length row = 3%nat) A /\
  Forall (fun row => length row = 3%nat /\ Np.sum row = 0%R /\ Np.mean row = 0%R)
    (Model.center_features A) /\
  Model.center_features (Model.center_features A) = Model.center_features A.
Proof.
  intros A.
  assert (1 <= 3)%nat as Hr by lia.
  assert (1 <= length A)%nat as Hn by (cbn; lia).
  assert (Forall (fun row : list R => length row = 3%nat) A) as Hrows
    by (repeat constructor).
  destruct (center_features_rows_sum_to_zero A 3 Hr Hn Hrows) as (Hc & _ & Hidem).
  split; [exact Hr|]. split; [exact Hn|]. split; [exact Hrows|].
  split; [exact Hc|exact Hidem].
Defined.

(** ** The filter on the eigenvalues *)

Section FilterFacts.
Import Model.
Context {F : Type} `{Arith F}.
Variable finfo_eps : F.

Lemma select_map_negb_filter {A : Type} (p : A -> bool) (l : list A) :
  Np.select (map negb (map p l)) l = List.filter (fun v => negb (p v)) l.
Proof.
  induction l as [|x l IH]; [reflexivity|].
  cbn [map Np.select List.filter]. rewrite IH. destruct (p x); reflexivity.
Qed.

Lemma filter_none_invalid {A : Type} (p : A -> bool) (l : list A) :
  existsb (fun b => b) (map p l) = false -> List.filter (fun v => negb (p v)) l = l.
Proof.
  induction l as [|x l IH]; [reflexivity|].
  cbn [map existsb List.filter]. intros Hex. apply orb_false_elim in Hex as [-> Hex].
  cbn [negb]. rewrite IH by exact Hex. reflexivity.
Qed.

Lemma length_select_mask {A B : Type} (mask : list bool) (l : list A) (k : list B) :
  length l = length mask -> length k = length mask ->
  length (Np.select mask l) = length (Np.select mask k).
Proof.
  revert l k. induction mask as [|b mask IH]; intros [|x l] [|y k] Hl Hk;
    try discriminate; [reflexivity|].
  cbn [Np.select]. cbn in Hl, Hk. destruct b; cbn [length]; rewrite (IH l k) by lia;
    reflexivity.
Qed.

Lemma existsb_filter_negb {A : Type} (p : A -> bool) (l : list A) :
  existsb (fun b => b) (map p (List.filter (fun v => negb (p v)) l)) = false.
Proof.
  induction l as [|x l IH]; [reflexivity|].
  cbn [List.filter]. destruct (p x) eqn:Hp; cbn [negb]; [exact IH|].
  cbn [map existsb]. rewrite Hp, IH. reflexivity.
Qed.

(** X5.  [_filter_reduced_rank_svals] keeps, in their order, exactly the
    eigenvalues whose magnitude is not at most [2 * eps], whatever their
    sign; it drops the matching column of every eigenvector row, so that
    the rows keep one entry per retained eigenvalue; and filtering its
    result again changes nothing. *)
Theorem filter_reduced_rank_svals_keeps_large (values : list F)
    (vectors : list (list F)) :
  Forall (fun row => length row = length values) vectors ->
  let eps := mul (of_nat 2) finfo_eps in
  let out := _filter_reduced_rank_svals finfo_eps values vectors in
  out.1 = List.filter (fun v => negb (leb (abs v) eps)) values /\
  Forall (fun v => leb (abs v) eps = false) out.1 /\
  length out.2 = length vectors /\
  Forall (fun row => length row = length out.1) out.2 /\
  _filter_reduced_rank_svals finfo_eps out.1 out.2 = out.
Proof.
  intros Hrows eps out.
  assert (out.1 = List.filter (fun v => negb (leb (abs v) eps)) values) as Hvals.
  { subst out. unfold _filter_reduced_rank_svals. fold eps.
    destruct (existsb _ _) eqn:Hex; cbn [fst].
    - apply select_map_negb_filter.
    - symmetry. apply (filter_none_invalid (fun v => leb (abs v) eps)), Hex. }
  assert (length out.2 = length vectors) as Hlen.
  { subst out. unfold _filter_reduced_rank_svals.
    destruct (existsb _ _); cbn [snd]; [apply length_map|reflexivity]. }
  assert (Forall (fun row => length row = length out.1) out.2) as Hrows'.
  { subst out. unfold _filter_reduced_rank_svals in *. fold eps in Hvals |- *.
    destruct (existsb _ _) eqn:Hex; cbn [fst snd] in *; [|exact Hrows].
    apply Forall_fmap. eapply Forall_impl; [exact Hrows|].
    intros row Hrow. cbn. apply length_select_mask; rewrite !length_map; auto. }
  split; [exact Hvals|]. split; [|split; [exact Hlen|split; [exact Hrows'|]]].
  - rewrite Hvals. apply Forall_forall. intros v Hin.
    apply list_elem_of_In, filter_In in Hin as [_ Hv].
    apply negb_true_iff in Hv. exact Hv.
  - unfold _filter_reduced_rank_svals at 1. fold eps.
    rewrite Hvals at 1. rewrite (existsb_filter_negb (fun v => leb (abs v) eps)).
    destruct out. reflexivity.
Qed.

End FilterFacts.

Lemma filter_reduced_rank_svals_keeps_large_witness :
  let values := [4; 0; -3]%R in
  let vectors := [[1; 0; 0]; [0; 1; 0]; [0; 0; 1]]%R in
  Forall (fun row => length row = length values) vectors /\
  Model._filter_reduced_rank_svals (1 / 8)%R values vectors
  = ([4; -3]%R, [[1; 0]; [0; 0]; [0; 1]]%R) /\
  Forall (fun v => leb (abs v) (mul (of_nat 2) (1 / 8)%R) = false)
    (Model._filter_reduced_rank_svals (1 / 8)%R values vectors).1.
Proof.
  intros values vectors.
  assert (Forall (fun row : list R => length row = length values) vectors) as Hrows
    by (repeat constructor).
  split; [exact Hrows|].
  split; [|exact (proj1 (proj2 (filter_reduced_rank_svals_keeps_large (1 / 8)%R
                                   values vectors Hrows)))].
  assert (forall x : R, (1 < Rabs x)%R -> leb (abs x) (mul (of_nat 2) (1 / 8)%R) = false)
    as Hbig.
  { intros x Hx. cbn [abs leb of_nat mul R_arith INR].
    destruct (Rle_dec _ _) as [Hle|_]; [lra|reflexivity]. }
  assert (leb (abs 0%R) (mul (of_nat 2) (1 / 8)%R) = true) as Hsmall.
  { cbn [abs leb of_nat mul R_arith INR]. rewrite Rabs_R0.
    destruct (Rle_dec _ _) as [_|Hle]; [reflexivity|lra]. }
  unfold Model._filter_reduced_rank_svals, values, vectors. cbn [map].
  rewrite Hsmall, !Hbig; [reflexivity| |].
  - rewrite Rabs_left by lra. lra.
  - rewrite Rabs_right by lra. lra.
Defined.

(** ** A negative eigenvalue becomes a NaN singular value *)

Section FilterBinary64.
Import Model.
Variable libm_exp : spec_float -> spec_float.
Variable finfo_eps : spec_float.

#[local] Hint Extern 0 (Arith spec_float) => exact (f64_arith libm_exp) : typeclass_instances.

(** X6.  In binary64, a negative eigenvalue whose magnitude is above
    [2 * eps] passes [_filter_reduced_rank_svals], and the square root
    that [postprocess_UV] takes next turns it into NaN: the singular
    values then hold a NaN. *)
Theorem negative_eigenvalue_gives_nan_singular_value (values : list spec_float)
    (vectors : list (list spec_float)) (m : positive) (e : Z) :
  let v := S754_finite true m e in
  In v values ->
  SFleb (SFabs v) (SFmul 53 1024 (f64_of_nat 2) finfo_eps) = false ->
  In v (_filter_reduced_rank_svals (F := spec_float) finfo_eps values vectors).1 /\
  In f64_nan
    (map (sqrt (F := spec_float))
       (_filter_reduced_rank_svals (F := spec_float) finfo_eps values vectors).1).
Proof.
  intros v Hin Hbig.
  assert (In v (_filter_reduced_rank_svals (F := spec_float) finfo_eps values vectors).1)
    as Hkept.
  { unfold _filter_reduced_rank_svals.
    destruct (existsb _ _); cbn [fst]; [|exact Hin].
    rewrite select_map_negb_filter. apply filter_In. split; [exact Hin|].
    cbn [leb abs mul of_nat f64_arith]. rewrite Hbig. reflexivity. }
  split; [exact Hkept|].
  change f64_nan with (sqrt (F := spec_float) v). apply in_map, Hkept.
Qed.

End FilterBinary64.

Lemma negative_eigenvalue_gives_nan_singular_value_witness :
  let eps := SFdiv 53 1024 (f64_of_nat 1) (f64_of_nat 8) in
  let v := S754_finite true 3 0 in
  let values := [f64_of_nat 4; S754_zero false; v] in
  let vectors : list (list spec_float) := [] in
  In v values /\
  SFleb (SFabs v) (SFmul 53 1024 (f64_of_nat 2) eps) = false /\
  In f64_nan
    (map (SFsqrt 53 1024)
       (Model._filter_reduced_rank_svals (H := f64_arith Examples.toy_exp) eps values
          vectors).1).
Proof.
  intros eps v values vectors.
  assert (In v values) as Hin by (right; right; left; reflexivity).
  assert (SFleb (SFabs v) (SFmul 53 1024 (f64_of_nat 2) eps) = false) as Hbig
    by (vm_compute; reflexivity).
  split; [exact Hin|]. split; [exact Hbig|].
  exact (proj2 (negative_eigenvalue_gives_nan_singular_value Examples.toy_exp eps
                  values vectors 3 0 Hin Hbig)).
Defined.

(** ** [sqrtmh]: symmetry and the square of the result *)

Section SqrtmhMore.
Import Model.
Local Open Scope R_scope.

(** Two arrays of one shape with the same entries are equal. *)
Lemma matrix_ext (A B : list (list R)) (n m : nat) :
  length A = n -> length B = n ->
  (forall i, (i < n)%nat -> length (nth i A []) = m) ->
  (forall i, (i < n)%nat -> length (nth i B []) = m) ->
  (forall i j, (i < n)%nat -> (j < m)%nat -> Np.entry A i j = Np.entry B i j) ->
  A = B.
Proof.
  intros HA HB HrA HrB Hent. apply (nth_ext _ _ [] []); [lia|].
  intros i Hi. rewrite HA in Hi. apply (nth_ext _ _ 0 0).
  - rewrite HrA, HrB by exact Hi. reflexivity.
  - intros j Hj. rewrite HrA in Hj by exact Hi. apply Hent; assumption.
Qed.

Lemma clamped_nonneg (eps : R) (L : list R) (i : nat) :
  0 < eps -> INR (length L) * eps < 1 -> 0 <= nth i (clamped eps L) 0.
Proof.
  intros Heps Hsmall. rewrite nth_clamped.
  destruct (Rlt_dec _ _) as [Habove|_]; [|lra].
  destruct (decide (i < length L)%nat) as [Hi|Hi].
  - left. apply (above_threshold_pos L eps); try assumption.
    apply list_elem_of_In, nth_In. exact Hi.
  - rewrite nth_overflow by lia. lra.
Qed.

Variable eigh : list (list R) -> list R * list (list R).

(** X7.  In exact arithmetic, with [(L, Q)] what [eigh] returns for
    [A] and [Q] square of the size of [L], the array returned by
    [sqrtmh] is square of that size and symmetric. *)
Theorem sqrtmh_symmetric (eps : R) (A : list (list R)) (L : list R) (Q : list (list R)) :
  eigh A = (L, Q) ->
  let n := length L in
  (1 <= n)%nat ->
  length Q = n ->
  Forall (fun row => length row = n) Q ->
  let S := sqrtmh eigh eps A in
  length S = n /\ Forall (fun row => length row = n) S /\ Np.transpose S = S.
Proof.
  intros Heig n Hn HQ_rows HQ_cols S.
  assert (length (map R_sqrt.sqrt (clamped eps L)) = n) as Hs.
  { unfold clamped. rewrite !length_map. reflexivity. }
  subst S. rewrite (sqrtmh_unfold eigh eps A L Q Heig).
  set (s := map R_sqrt.sqrt (clamped eps L)) in *.
  pose proof (spectral_length Q s n HQ_rows) as Hlen.
  pose proof (spectral_shape1 Q s n Hn HQ_rows HQ_cols Hs) as Hshape.
  pose proof (spectral_row_length Q s n Hn HQ_rows HQ_cols Hs) as Hrow.
  pose proof (spectral_entry Q s n Hn HQ_rows HQ_cols Hs) as Hentry.
  set (S := Np.matmul (Np.mul_mv Q s) (Np.transpose Q)) in *.
  split; [exact Hlen|]. split.
  { apply Forall_forall. intros row Hin. apply list_elem_of_In in Hin.
    apply (In_nth _ _ []) in Hin as (a & Ha & <-). apply Hrow. lia. }
  apply (matrix_ext _ _ n n).
  - rewrite length_transpose. exact Hshape.
  - exact Hlen.
  - intros i Hi. unfold Np.transpose. rewrite Hshape, nth_map_seq by exact Hi.
    rewrite length_col. exact Hlen.
  - exact Hrow.
  - intros i j Hi Hj. rewrite entry_transpose by (rewrite Hshape; exact Hi).
    rewrite !Hentry by assumption. apply bigsum_ext. intros k _. lra.
Qed.

(** X8.  In exact arithmetic, when the columns of [Q] are orthonormal
    and [size * eps < 1], the square of [sqrtmh(A)] is
    [Q diag(L') Q^T] with [L'] the eigenvalues of [A] in which those at
    or below the threshold are replaced by zero; so when every
    eigenvalue is above the threshold and [A] is [Q diag(L) Q^T], the
    square of [sqrtmh(A)] is [A]. *)
Theorem sqrtmh_squares_to_clamped (eps : R) (A : list (list R)) (L : list R)
    (Q : list (list R)) :
  eigh A = (L, Q) ->
  let n := length L in
  (1 <= n)%nat ->
  length Q = n ->
  Forall (fun row => length row = n) Q ->
  0 < eps -> INR n * eps < 1 ->
  Np.matmul (Np.transpose Q) Q = Np.eye n ->
  let S := sqrtmh eigh eps A in
  Np.matmul S S = Np.matmul (Np.matmul Q (Np.diag (clamped eps L))) (Np.transpose Q)
  /\ (Forall (fun x => clamp_threshold eps L < x) L ->
      A = Np.matmul (Np.matmul Q (Np.diag L)) (Np.transpose Q) ->
      Np.matmul S S = A).
Proof.
  intros Heig n Hn HQ_rows HQ_cols Heps Hsmall Horth S.
  assert (length (clamped eps L) = n) as Hc.
  { unfold clamped. rewrite !length_map. reflexivity. }
  assert (length (map R_sqrt.sqrt (clamped eps L)) = n) as Hs.
  { rewrite length_map. exact Hc. }
  assert (Np.matmul S S
          = Np.matmul (Np.matmul Q (Np.diag (clamped eps L))) (Np.transpose Q)) as Hsq.
  { subst S. rewrite (sqrtmh_unfold eigh eps A L Q Heig).
    rewrite <- (mul_mv_is_matmul_diag Q (clamped eps L) n) by assumption.
    set (s := map R_sqrt.sqrt (clamped eps L)) in *.
    pose proof (spectral_length Q s n HQ_rows) as Hlen.
    pose proof (spectral_shape1 Q s n Hn HQ_rows HQ_cols Hs) as Hshape.
    pose proof (spectral_row_length Q s n Hn HQ_rows HQ_cols Hs) as Hrow.
    pose proof (spectral_entry Q s n Hn HQ_rows HQ_cols Hs) as Hentry.
    pose proof (spectral_eigenvector Q s n Hn HQ_rows HQ_cols Hs Horth) as Heigv.
    pose proof (spectral_length Q (clamped eps L) n HQ_rows) as Hlen'.
    pose proof (spectral_row_length Q (clamped eps L) n Hn HQ_rows HQ_cols Hc) as Hrow'.
    pose proof (spectral_entry Q (clamped eps L) n Hn HQ_rows HQ_cols Hc) as Hentry'.
    set (S := Np.matmul (Np.mul_mv Q s) (Np.transpose Q)) in *.
    apply (matrix_ext _ _ n n).
    - rewrite length_matmul. exact Hlen.
    - exact Hlen'.
    - intros i Hi. rewrite length_nth_matmul by (rewrite Hlen; exact Hi). exact Hshape.
    - exact Hrow'.
    - intros a b Ha Hb.
      rewrite (entry_matmul S S a b n);
        [|rewrite Hlen; exact Ha|rewrite Hshape; exact Hb|apply Hrow; exact Ha|exact Hlen].
      rewrite Hentry' by assumption.
      rewrite (bigsum_ext _ _
        (fun c => Np.bigsum n (fun k => Np.entry S a c * Np.entry Q c k
                                         * (nth k s 0 * Np.entry Q b k)))).
      2:{ intros c Hc'. rewrite (Hentry c b) by assumption.
          rewrite <- bigsum_mul_l. apply bigsum_ext. intros k _. lra. }
      rewrite bigsum_swap. apply bigsum_ext. intros k Hk.
      rewrite bigsum_mul_r, Heigv by assumption.
      assert (nth k s 0 * nth k s 0 = nth k (clamped eps L) 0) as Hkk.
      { assert (nth k s 0 = R_sqrt.sqrt (nth k (clamped eps L) 0)) as ->.
        { unfold s. rewrite <- sqrt_0 at 1. apply map_nth. }
        apply sqrt_sqrt, clamped_nonneg; assumption. }
      rewrite <- Hkk. lra. }
  split; [exact Hsq|].
  intros Habove HA. rewrite Hsq, HA. do 3 f_equal.
  unfold clamped. rewrite <- (map_id L) at 2. apply map_ext_in. intros x Hx.
  rewrite Forall_forall in Habove. apply list_elem_of_In in Hx. specialize (Habove x Hx).
  cbn [leb zero R_arith]. destruct (Rle_dec _ _) as [Hle|_]; [lra|reflexivity].
Qed.

End SqrtmhMore.

Lemma sqrtmh_symmetric_witness :
  let eps := (1 / 8)%R in
  let L := [0; 4]%R in
  let Q := [[0; 1]; [1; 0]]%R in
  let S := Model.sqrtmh Examples.eigh_A2 eps Examples.A2 in
  Examples.eigh_A2 Examples.A2 = (L, Q) /\
  (1 <= length L)%nat /\ length Q = length L /\
  Forall (fun row => length row = length L) Q /\
  Np.transpose S = S.
Proof.
  intros eps L Q S.
  assert (Forall (fun row : list R => length row = length L) Q) as Hcols
    by (repeat constructor).
  assert (1 <= length L)%nat as Hn by (cbn; lia).
  split; [reflexivity|]. split; [exact Hn|]. split; [reflexivity|]. split; [exact Hcols|].
  exact (proj2 (proj2 (sqrtmh_symmetric Examples.eigh_A2 eps Examples.A2 L Q eq_refl
                         Hn eq_refl Hcols))).
Defined.

Lemma sqrtmh_squares_to_clamped_witness :
  let eps := (1 / 16)%R in
  let L := [1; 4]%R in
  let Q := [[0; 1]; [1; 0]]%R in
  let S := Model.sqrtmh Examples.eigh_A3 eps Examples.A3 in
  Examples.eigh_A3 Examples.A3 = (L, Q) /\
  (1 <= length L)%nat /\ length Q = length L /\
  Forall (fun row => length row = length L) Q /\
  (0 < eps)%R /\ (INR (length L) * eps < 1)%R /\
  Np.matmul (Np.transpose Q) Q = Np.eye (length L) /\
  Forall (fun x => Model.clamp_threshold eps L < x)%R L /\
  Examples.A3 = Np.matmul (Np.matmul Q (Np.diag L)) (Np.transpose Q) /\
  Np.matmul S S = Examples.A3.
Proof.
  intros eps L Q S.
  assert (Forall (fun row : list R => length row = length L) Q) as Hcols
    by (repeat constructor).
  assert (1 <= length L)%nat as Hn by (cbn; lia).
  assert (0 < eps)%R as Heps by (unfold eps; lra).
  assert (INR (length L) * eps < 1)%R as Hsmall by (unfold eps; cbn; lra).
  assert (Np.matmul (Np.transpose Q) Q = Np.eye (length L)) as Horth.
  { real_arrays. }
  assert (Model.clamp_threshold eps L = (1 / 2)%R) as Hthr.
  { unfold Model.clamp_threshold, Np.max, eps, L. cbn.
    destruct (Rlt_dec 1 4); lra. }
  assert (Forall (fun x => Model.clamp_threshold eps L < x)%R L) as Habove.
  { rewrite Hthr. repeat constructor; lra. }
  assert (Examples.A3 = Np.matmul (Np.matmul Q (Np.diag L)) (Np.transpose Q)) as HA.
  { real_arrays. }
  split; [reflexivity|]. split; [exact Hn|]. split; [reflexivity|]. split; [exact Hcols|].
  split; [exact Heps|]. split; [exact Hsmall|]. split; [exact Horth|].
  split; [exact Habove|]. split; [exact HA|].
  exact (proj2 (sqrtmh_squares_to_clamped Examples.eigh_A3 eps Examples.A3 L Q eq_refl
                  Hn eq_refl Hcols Heps Hsmall Horth) Habove HA).
Defined.

(** ** Indicators and empirical probabilities *)

Section IndicatorFacts.
Import Model.
Local Open Scope R_scope.

Lemma indicator_fn_rows (x : list (list R)) (interval : R * R) :
  Forall (fun row => length row = 1%nat) x ->
  indicator_fn x interval
  = map (fun row => leb (fst interval) (nth 0 row 0) && leb (nth 0 row 0) (snd interval)) x.
Proof.
  intros Hrows. unfold indicator_fn. induction x as [|row x IH]; [reflexivity|].
  apply Forall_cons in Hrows as [Hrow Hrows].
  cbn [map concat]. rewrite IH by exact Hrows.
  destruct row as [|v [|w row]]; try discriminate. reflexivity.
Qed.

(** X9.  In exact arithmetic, on an array of one column,
    [indicator_fn] gives one boolean per row, true exactly for the rows
    whose value lies between the two bounds, bounds included; when the
    upper bound is below the lower one no row is selected. *)
Theorem indicator_fn_selects_interval (x : list (list R)) (lo hi : R) :
  Forall (fun row => length row = 1%nat) x ->
  length (indicator_fn x (lo, hi)) = length x /\
  (forall k, (k < length x)%nat ->
     nth k (indicator_fn x (lo, hi)) false = true <-> lo <= Np.entry x k 0 <= hi) /\
  (hi < lo -> Forall (fun b => b = false) (indicator_fn x (lo, hi))).
Proof.
  intros Hrows. rewrite (indicator_fn_rows x (lo, hi) Hrows). cbn [fst snd].
  set (f := fun row : list R => leb lo (nth 0 row 0) && leb (nth 0 row 0) hi).
  assert (forall row, f row = true <-> lo <= nth 0 row 0 <= hi) as Hf.
  { intros row. unfold f. cbn [leb R_arith]. rewrite andb_true_iff.
    destruct (Rle_dec lo _), (Rle_dec _ hi); split; intros [? ?]; try discriminate;
      try lra; split; reflexivity. }
  split; [apply length_map|]. split.
  - intros k Hk. rewrite (nth_indep _ false (f [])) by (rewrite length_map; exact Hk).
    rewrite (map_nth f). unfold Np.entry. apply Hf.
  - intros Hinv. apply Forall_fmap, Forall_forall. intros row _. cbn.
    destruct (f row) eqn:Hrow; [|reflexivity]. apply Hf in Hrow. lra.
Qed.

Lemma rsum_indicator_bounds (mask : list bool) :
  0 <= Np.sum (map (fun b : bool => if b then 1 else 0) mask) <= INR (length mask)
  /\ (Np.sum (map (fun b : bool => if b then 1 else 0) mask) = 0
      <-> Forall (fun b => b = false) mask).
Proof.
  induction mask as [|b mask [[IH1 IH2] IH3]].
  - cbn [map length INR]. rewrite rsum_nil. split; [lra|]. split; [constructor|reflexivity].
  - cbn [map]. rewrite rsum_cons. change (length (b :: mask)) with (S (length mask)).
    rewrite S_INR. destruct b.
    + split; [lra|]. split; [lra|]. intros Hall. apply Forall_cons in Hall as [? _].
      discriminate.
    + split; [lra|]. rewrite Rplus_0_l, IH3. split.
      * intros Hall. constructor; [reflexivity|exact Hall].
      * intros Hall. apply Forall_cons in Hall as [_ Hall]. exact Hall.
Qed.

(** X10.  In exact arithmetic the mean of a Boolean mask with at least
    one entry, the empirical probability the estimators divide by, lies
    between 0 and 1, and it is 0 exactly when the mask selects no
    row. *)
Theorem mean_bool_is_a_proportion (mask : list bool) :
  (1 <= length mask)%nat ->
  0 <= Np.mean_bool mask <= 1 /\
  (Np.mean_bool mask = 0 <-> Forall (fun b => b = false) mask).
Proof.
  intros Hn. unfold Np.mean_bool, Np.mean. rewrite length_map.
  cbn [div of_nat one zero R_arith].
  destruct (rsum_indicator_bounds mask) as [[H1 H2] H3].
  assert (0 < INR (length mask)) as Hpos by (apply lt_0_INR; lia).
  split; [split|].
  - apply Rmult_le_pos; [exact H1|]. left. apply Rinv_0_lt_compat, Hpos.
  - apply (Rmult_le_reg_r (INR (length mask))); [exact Hpos|].
    unfold Rdiv. rewrite Rmult_assoc, Rinv_l by lra. lra.
  - rewrite <- H3. split.
    + intros Hz. apply (Rmult_eq_compat_r (INR (length mask))) in Hz.
      unfold Rdiv in Hz. rewrite Rmult_assoc, Rinv_l in Hz by lra. lra.
    + intros ->. unfold Rdiv. apply Rmult_0_l.
Qed.

End IndicatorFacts.

Lemma indicator_fn_selects_interval_witness :
  let x := [[1]; [2]; [3]]%R in
  Forall (fun row => length row = 1%nat) x /\
  length (Model.indicator_fn x (2, 3)%R) = 3%nat /\
  Forall (fun b => b = false) (Model.indicator_fn x (3, 2)%R).
Proof.
  intros x.
  assert (Forall (fun row : list R => length row = 1%nat) x) as Hrows
    by (repeat constructor).
  split; [exact Hrows|].
  split; [exact (proj1 (indicator_fn_selects_interval x 2 3 Hrows))|].
  apply (proj2 (proj2 (indicator_fn_selects_interval x 3 2 Hrows))). lra.
Defined.

Lemma mean_bool_is_a_proportion_witness :
  let mask := [true; false; false; true] in
  (1 <= length mask)%nat /\
  (0 <= Np.mean_bool mask <= 1)%R.
Proof.
  intros mask.
  assert (1 <= length mask)%nat as Hn by (cbn; lia).
  split; [exact Hn|]. exact (proj1 (mean_bool_is_a_proportion mask Hn)).
Defined.

(** ** The conditional probability is an average of predictions *)

Section ConditionalIsPrediction.
Import Model.
Local Open Scope R_scope.

Abbreviation ind := (fun b : bool => if b then 1 else 0).







Lemma int_pow_neg1_pos (n : nat) :
  (1 <= n)%nat -> int_pow_neg1 n = Py.Return (1 / INR n).
Proof. intros Hn. destruct n; [lia|reflexivity]. Qed.

Variable eigh : list (list R) -> list R * list (list R).
Variable pinv : list (list R) -> list (list R).
Variable finfo_eps : R.

(** [predict] on the triple a post-processing path returns. *)
Lemma predict_of_path (self : DeepSVD R) (X_test : list (list R))
    (observable : list (list R) -> list (list R)) (postprocessing : bool)
    (Ux : list (list R)) (sing_val : list R) (Vy : list (list R)) :
  postprocess eigh pinv finfo_eps self X_test postprocessing = Py.Return (Ux, sing_val, Vy) ->
  (1 <= length Vy)%nat ->
  length (Np.ravel (observable (training_Y self))) = length Vy ->
  Forall (fun row => length row = length sing_val) Vy ->
  Forall (fun row => length row = length sing_val) Ux ->
  predict eigh pinv finfo_eps self X_test observable postprocessing
  = Py.Return (predict_formula Ux sing_val Vy (Np.ravel (observable (training_Y self)))).
Proof.
  intros Hpath Hn Hfy HVy HUx.
  set (r := length sing_val) in *.
  unfold predict. fold (postprocess eigh pinv finfo_eps self X_test postprocessing).
  rewrite Hpath. cbn [mbind result_bind Py.bind mret result_ret]. f_equal.
  assert (Np.shape1 Vy = r) as ->.
  { destruct Vy as [|v Vy]; [cbn in Hn; lia|]. apply Forall_cons in HVy as [Hv _]. exact Hv. }
  rewrite outer_ones, mean_axis0_mul_broadcast by assumption.
  unfold predict_formula, Np.sum_axis_last, Np.mul_mv, Np.mul_vm.
  rewrite !map_map. apply map_ext_in. intros ux Hux.
  fold r. f_equal.
  rewrite Forall_forall in HUx. apply list_elem_of_In in Hux. specialize (HUx ux Hux).
  rewrite (expansion_row _ _ _ r) by (rewrite ?length_map, ?length_seq; auto).
  apply bigsum_ext. intros i Hi. rewrite nth_map_seq by exact Hi. reflexivity.
Qed.


End ConditionalIsPrediction.


(** ** The two probability estimators agree *)

Section ProbabilityFacts.
Import Model.
Local Open Scope R_scope.
Variable eigh : list (list R) -> list R * list (list R).
Variable pinv : list (list R) -> list (list R).
Variable finfo_eps : R.

Lemma rsum_map_mul_r (c : R) (l : list R) :
  Np.sum (map (fun t => mul t c) l) = Np.sum l * c.
Proof.
  induction l as [|x l IH]; cbn [map].
  - rewrite rsum_nil. lra.
  - rewrite !rsum_cons, IH. cbn [mul R_arith]. lra.
Qed.

(** A mask that selects a row has a non-zero mean. *)
Lemma mean_bool_of_selection (mask : list bool) :
  In true mask -> Np.mean_bool (F := R) mask <> 0.
Proof.
  intros Hsome Hz.
  assert (1 <= length mask)%nat as Hn by (destruct mask; [inversion Hsome|cbn; lia]).
  destruct (rsum_indicator_bounds mask) as [_ H3].
  unfold Np.mean_bool, Np.mean in Hz. rewrite length_map in Hz.
  cbn [div of_nat one zero R_arith] in Hz.
  assert (0 < INR (length mask)) as Hpos by (apply lt_0_INR; lia).
  apply (Rmult_eq_compat_r (INR (length mask))) in Hz.
  unfold Rdiv in Hz. rewrite Rmult_assoc, Rinv_l, Rmult_1_r, Rmult_0_l in Hz by lra.
  apply H3 in Hz. rewrite Forall_forall in Hz.
  apply list_elem_of_In, Hz in Hsome. discriminate.
Qed.

(** X2.  In exact arithmetic, for one-column training arrays with as
    many inputs as responses, post-processed features of the shapes the
    array operations need (one row per training row, as wide as there
    are singular values) and intervals [A] and [B] that each hold at
    least one training sample: both estimators return, and the
    conditional probability is the value of [joint_probability] times
    the empirical probability of [B]. *)
Theorem conditional_is_marginal_times_joint (self : DeepSVD R)
    (interval_A interval_B : R * R) (postprocessing : bool)
    (Ux : list (list R)) (sing_val : list R) (Vy : list (list R)) :
  let x_A := indicator_fn (training_X self) interval_A in
  let y_B := indicator_fn (training_Y self) interval_B in
  let n := length (training_Y self) in
  let r := length sing_val in
  Forall (fun row => length row = 1%nat) (training_X self) ->
  Forall (fun row => length row = 1%nat) (training_Y self) ->
  length (training_X self) = n ->
  postprocess eigh pinv finfo_eps self (training_X self) postprocessing
  = Py.Return (Ux, sing_val, Vy) ->
  length Ux = n -> length Vy = n ->
  Forall (fun row => length row = r) Ux ->
  Forall (fun row => length row = r) Vy ->
  In true x_A -> In true y_B ->
  exists c j,
    conditional_probability eigh pinv finfo_eps self interval_A interval_B postprocessing
    = Py.Return c /\
    joint_probability eigh pinv finfo_eps self interval_A interval_B postprocessing
    = Py.Return j /\
    c = Np.mean_bool y_B * j.
Proof.
  intros x_A y_B n r HX HY HnX Hpath _ _ _ _ _ HB.
  assert (1 <= n)%nat as Hn.
  { unfold n. rewrite <- (length_map (fun row => leb (fst interval_B) (nth 0 row 0)
                                   && leb (nth 0 row 0) (snd interval_B)) (training_Y self)).
    rewrite <- (indicator_fn_rows _ interval_B HY). fold y_B.
    destruct y_B; [inversion HB|cbn; lia]. }
  unfold conditional_probability, joint_probability.
  fold (postprocess eigh pinv finfo_eps self (training_X self) postprocessing).
  rewrite Hpath. cbn [mbind result_bind Py.bind].
  fold n x_A y_B. rewrite (int_pow_neg1_pos n Hn).
  cbn [mbind result_bind Py.bind mret result_ret].
  eexists. eexists. split; [reflexivity|]. split; [reflexivity|].
  rewrite rsum_map_mul_r. unfold float_pow_neg1.
  cbn [add mul div one R_arith]. field. apply mean_bool_of_selection, HB.
Qed.

End ProbabilityFacts.

Lemma conditional_is_marginal_times_joint_witness :
  let self := Examples.toy_model in
  let interval_A := (1, 3 / 2)%R in
  let interval_B := (3, 4)%R in
  let Ux := [[1]; [2]]%R in
  let sing_val := [R_sqrt.sqrt (Rtrigo_def.exp (- (0 * 0)))]%R in
  let Vy := [[3]; [5]]%R in
  let x_A := Model.indicator_fn (Model.training_X self) interval_A in
  let y_B := Model.indicator_fn (Model.training_Y self) interval_B in
  Forall (fun row => length row = 1%nat) (Model.training_X self) /\
  Forall (fun row => length row = 1%nat) (Model.training_Y self) /\
  Model.postprocess Examples.no_eigh (fun M => M) 0%R self (Model.training_X self) false
  = Py.Return (Ux, sing_val, Vy) /\
  In true x_A /\ In true y_B /\
  exists c j,
    Model.conditional_probability Examples.no_eigh (fun M => M) 0%R self
      interval_A interval_B false = Py.Return c /\
    Model.joint_probability Examples.no_eigh (fun M => M) 0%R self
      interval_A interval_B false = Py.Return j /\
    c = (Np.mean_bool y_B * j)%R.
Proof.
  intros self interval_A interval_B Ux sing_val Vy x_A y_B.
  assert (Forall (fun row : list R => length row = 1%nat) (Model.training_X self)) as HX
    by (repeat constructor).
  assert (Forall (fun row : list R => length row = 1%nat) (Model.training_Y self)) as HY
    by (repeat constructor).
  assert (In true x_A) as HA.
  { left. unfold Model.indicator_fn. cbn [Model.training_X self Examples.toy_model map concat
      app fst snd interval_A leb R_arith].
    destruct (Rle_dec 1 1) as [_|Hn]; [|lra].
    destruct (Rle_dec 1 (3 / 2)) as [_|Hn]; [|lra]. reflexivity. }
  assert (In true y_B) as HB.
  { left. unfold Model.indicator_fn. cbn [Model.training_Y self Examples.toy_model map concat
      app fst snd interval_B leb R_arith].
    destruct (Rle_dec 3 3) as [_|Hn]; [|lra].
    destruct (Rle_dec 3 4) as [_|Hn]; [|lra]. reflexivity. }
  assert (Forall (fun row : list R => length row = 1%nat) Ux) as HUx by (repeat constructor).
  assert (Forall (fun row : list R => length row = 1%nat) Vy) as HVy by (repeat constructor).
  split; [exact HX|]. split; [exact HY|]. split; [reflexivity|].
  split; [exact HA|]. split; [exact HB|].
  exact (conditional_is_marginal_times_joint Examples.no_eigh (fun M => M) 0%R self
           interval_A interval_B false Ux sing_val Vy
           HX HY eq_refl eq_refl eq_refl eq_refl HUx HVy HA HB).
Defined.

(** ** [predict] is linear in the observable *)

Section PredictLinear.
Import Model.
Local Open Scope R_scope.
Variable eigh : list (list R) -> list R * list (list R).
Variable pinv : list (list R) -> list (list R).
Variable finfo_eps : R.

Lemma rsum_zip_with_linear (a b : R) (u v : list R) :
  length u = length v ->
  Np.sum (zip_with (fun x y => a * x + b * y) u v) = a * Np.sum u + b * Np.sum v.
Proof.
  revert v. induction u as [|x u IH]; intros [|y v] Hlen; try discriminate.
  - cbn [zip_with]. rewrite rsum_nil. lra.
  - cbn [zip_with]. rewrite !rsum_cons, IH by (cbn in Hlen; lia). lra.
Qed.

Lemma nth_zip_with_linear (a b : R) (u v : list R) (k : nat) :
  length u = length v ->
  nth k (zip_with (fun x y => a * x + b * y) u v) 0 = a * nth k u 0 + b * nth k v 0.
Proof.
  revert v k. induction u as [|x u IH]; intros [|y v] k Hlen; try discriminate.
  - destruct k; cbn; lra.
  - destruct k as [|k]; [reflexivity|]. cbn [zip_with nth]. apply IH. cbn in Hlen. lia.
Qed.

Lemma rmean_linear (a b : R) (u v : list R) :
  length u = length v ->
  Np.mean (zip_with (fun x y => a * x + b * y) u v) = a * Np.mean u + b * Np.mean v.
Proof.
  intros Hlen. unfold Np.mean. rewrite rsum_zip_with_linear by exact Hlen.
  rewrite length_zip_with, <- Hlen, Nat.min_id. cbn [div R_arith]. unfold Rdiv. lra.
Qed.

Lemma empirical_mean_product_linear (a b : R) (Vy : list (list R)) (u v : list R) (i : nat) :
  length u = length v ->
  empirical_mean_product Vy (zip_with (fun x y => a * x + b * y) u v) i
  = a * empirical_mean_product Vy u i + b * empirical_mean_product Vy v i.
Proof.
  intros Hlen. unfold empirical_mean_product, Np.mean.
  rewrite !length_map. cbn [zero mul div R_arith].
  rewrite (rsum_ext _ (fun k => a * (Np.entry Vy k i * nth k u 0)
                                + b * (Np.entry Vy k i * nth k v 0))).
  2:{ intros k _. rewrite nth_zip_with_linear by exact Hlen. lra. }
  set (n := length Vy). generalize (seq 0 n). intros ks.
  assert (Np.sum (map (fun k => a * (Np.entry Vy k i * nth k u 0)
                                + b * (Np.entry Vy k i * nth k v 0)) ks)
          = a * Np.sum (map (fun k => Np.entry Vy k i * nth k u 0) ks)
            + b * Np.sum (map (fun k => Np.entry Vy k i * nth k v 0) ks)) as ->.
  { induction ks as [|k ks IH]; cbn [map].
    - rewrite rsum_nil. lra.
    - rewrite !rsum_cons, IH. lra. }
  unfold Rdiv. lra.
Qed.

(** X12.  In exact arithmetic [predict] is linear in the observable:
    for an observable whose values on the training responses are
    [a * f + b * g], every prediction is [a] times the prediction for [f]
    plus [b] times the prediction for [g]. *)
Theorem predict_is_linear_in_the_observable (self : DeepSVD R) (X_test : list (list R))
    (f g h : list (list R) -> list (list R)) (a b : R) (postprocessing : bool)
    (Ux : list (list R)) (sing_val : list R) (Vy : list (list R)) :
  let fy := Np.ravel (f (training_Y self)) in
  let gy := Np.ravel (g (training_Y self)) in
  postprocess eigh pinv finfo_eps self X_test postprocessing = Py.Return (Ux, sing_val, Vy) ->
  (1 <= length sing_val)%nat ->
  (1 <= length Vy)%nat ->
  length fy = length Vy -> length gy = length Vy ->
  Forall (fun row => length row = length sing_val) Vy ->
  Forall (fun row => length row = length sing_val) Ux ->
  Np.ravel (h (training_Y self)) = zip_with (fun x y => a * x + b * y) fy gy ->
  exists pf pg,
    predict eigh pinv finfo_eps self X_test f postprocessing = Py.Return pf /\
    predict eigh pinv finfo_eps self X_test g postprocessing = Py.Return pg /\
    predict eigh pinv finfo_eps self X_test h postprocessing
    = Py.Return (zip_with (fun x y => a * x + b * y) pf pg).
Proof.
  intros fy gy Hpath Hr Hn Hf Hg HVy HUx Hh.
  assert (length (Np.ravel (h (training_Y self))) = length Vy) as Hhlen.
  { rewrite Hh, length_zip_with. lia. }
  rewrite (predict_of_path eigh pinv finfo_eps self X_test f postprocessing Ux sing_val Vy)
    by assumption.
  rewrite (predict_of_path eigh pinv finfo_eps self X_test g postprocessing Ux sing_val Vy)
    by assumption.
  rewrite (predict_of_path eigh pinv finfo_eps self X_test h postprocessing Ux sing_val Vy)
    by assumption.
  eexists. eexists. split; [reflexivity|]. split; [reflexivity|]. f_equal.
  rewrite Hh. fold fy gy. unfold predict_formula.
  set (r := length sing_val) in *.
  rewrite !broadcast_mean_is_mean by exact Hr.
  rewrite rmean_linear by lia.
  generalize Ux. intros rows. induction rows as [|ux rows IH]; [reflexivity|].
  cbn [map zip_with]. rewrite IH. f_equal.
  cbn [zero add mul R_arith].
  rewrite (bigsum_ext r
             (fun i => nth i sing_val 0 * nth i ux 0
                       * empirical_mean_product Vy
                           (zip_with (fun x y => a * x + b * y) fy gy) i)
             (fun i => a * (nth i sing_val 0 * nth i ux 0 * empirical_mean_product Vy fy i)
                       + b * (nth i sing_val 0 * nth i ux 0
                              * empirical_mean_product Vy gy i))).
  2:{ intros i _. rewrite empirical_mean_product_linear by lia. lra. }
  rewrite bigsum_plus, !bigsum_mul_l. lra.
Qed.

End PredictLinear.

Lemma predict_is_linear_in_the_observable_witness :
  let self := Examples.toy_model in
  let f := fun Y : list (list R) => Y in
  let g := Examples.indicator_observable (3, 4)%R in
  let h := fun Y : list (list R) =>
             zip_with (zip_with (fun x y => 2 * x + 3 * y)%R) (f Y) (g Y) in
  let Ux := [[2]]%R in
  let sing_val := [R_sqrt.sqrt (Rtrigo_def.exp (- (0 * 0)))]%R in
  let Vy := [[3]; [5]]%R in
  Model.postprocess Examples.no_eigh (fun M => M) 0%R self [[2]]%R false
  = Py.Return (Ux, sing_val, Vy) /\
  Np.ravel (h (Model.training_Y self))
  = zip_with (fun x y => 2 * x + 3 * y)%R
      (Np.ravel (f (Model.training_Y self))) (Np.ravel (g (Model.training_Y self))) /\
  exists pf pg,
    Model.predict Examples.no_eigh (fun M => M) 0%R self [[2]]%R f false = Py.Return pf /\
    Model.predict Examples.no_eigh (fun M => M) 0%R self [[2]]%R g false = Py.Return pg /\
    Model.predict Examples.no_eigh (fun M => M) 0%R self [[2]]%R h false
    = Py.Return (zip_with (fun x y => 2 * x + 3 * y)%R pf pg).
Proof.
  intros self f g h Ux sing_val Vy.
  assert (Forall (fun row : list R => length row = 1%nat) Vy) as HVy by (repeat constructor).
  assert (Forall (fun row : list R => length row = 1%nat) Ux) as HUx by (repeat constructor).
  split; [reflexivity|]. split; [reflexivity|].
  exact (predict_is_linear_in_the_observable Examples.no_eigh (fun M => M) 0%R self
           [[2]]%R f g h 2 3 false Ux sing_val Vy eq_refl (le_n 1) (le_S _ _ (le_n 1))
           eq_refl eq_refl HVy HUx eq_refl).
Defined.

(** ** The singular layer *)

Section SingularLayerFacts.
Import Layers.
Local Open Scope R_scope.

Lemma mul_mv_ones_like (x : list (list R)) (s : list R) (r : nat) :
  Forall (fun row => length row = r) x -> length s = r ->
  Forall (fun v => v = 1) s -> Np.mul_mv x s = x.
Proof.
  intros Hrows Hs Hone. unfold Np.mul_mv. rewrite <- (map_id x) at 2.
  apply map_ext_in. intros row Hin.
  rewrite Forall_forall in Hrows. apply list_elem_of_In in Hin.
  specialize (Hrows row Hin). subst r. clear Hin.
  revert s Hs Hone. induction row as [|a row IH]; intros [|b s] Hs Hone; try discriminate;
    [reflexivity|].
  apply Forall_cons in Hone as [-> Hone]. cbn [zip_with]. rewrite IH by (cbn in Hs; auto).
  cbn [mul R_arith]. f_equal. lra.
Qed.

(** X13.  In exact arithmetic the singular layer keeps the shape of its
    input and multiplies column [j] by [exp(-w_j**2)], a factor above 0
    and at most 1: no entry grows in magnitude or changes sign, and with
    all weights at zero the layer is the identity. *)
Theorem SingularLayer_forward_contracts (weights : list R) (x : list (list R)) (r : nat) :
  length weights = r ->
  Forall (fun row => length row = r) x ->
  let out := SingularLayer_forward weights x in
  length out = length x /\
  Forall (fun row => length row = r) out /\
  (forall i j, (i < length x)%nat -> (j < r)%nat ->
     Np.entry out i j = Np.entry x i j * Rtrigo_def.exp (- (nth j weights 0 * nth j weights 0))
     /\ Rabs (Np.entry out i j) <= Rabs (Np.entry x i j)
     /\ 0 <= Np.entry out i j * Np.entry x i j) /\
  (Forall (fun w => w = 0) weights -> out = x).
Proof.
  intros Hw Hrows out. subst out. unfold SingularLayer_forward.
  set (s := map (fun w => exp (- (w * w))%A) weights).
  assert (length s = r) as Hs by (unfold s; rewrite length_map; exact Hw).
  split; [unfold Np.mul_mv; apply length_map|]. split; [|split].
  - unfold Np.mul_mv. apply Forall_fmap. eapply Forall_impl; [exact Hrows|].
    intros row Hrow. change (length (zip_with mul row s) = r).
    cbn beta in Hrow. rewrite length_zip_with. lia.
  - intros i j Hi Hj.
    rewrite (entry_mul_mv x s r i j Hrows Hs Hi Hj).
    assert (nth j s 0 = Rtrigo_def.exp (- (nth j weights 0 * nth j weights 0))) as ->.
    { unfold s.
      rewrite (nth_indep _ 0 ((fun w => exp (- (w * w))%A) 0))
        by (rewrite length_map; lia).
      rewrite (map_nth (fun w => exp (- (w * w))%A)). reflexivity. }
    set (w := nth j weights 0). set (a := Np.entry x i j).
    pose proof (exp_pos (- (w * w))) as Hpos.
    assert (Rtrigo_def.exp (- (w * w)) <= 1) as Hle.
    { rewrite <- exp_0. destruct (Req_dec w 0) as [->|Hw0].
      - rewrite Rmult_0_l, Ropp_0. lra.
      - left. apply exp_increasing. nra. }
    split; [reflexivity|]. split.
    + rewrite Rabs_mult, (Rabs_right (Rtrigo_def.exp _)) by lra.
      pose proof (Rabs_pos a). nra.
    + nra.
  - intros Hzero. apply (mul_mv_ones_like x s r Hrows Hs).
    unfold s. apply Forall_fmap. eapply Forall_impl; [exact Hzero|].
    intros w ->. cbn. rewrite Rmult_0_l, Ropp_0. apply exp_0.
Qed.

End SingularLayerFacts.

Lemma SingularLayer_forward_contracts_witness :
  let weights := [0; 0]%R in
  let x := [[1; 2]; [3; 4]]%R in
  length weights = 2%nat /\
  Forall (fun row => length row = 2%nat) x /\
  Forall (fun w => w = 0%R) weights /\
  Layers.SingularLayer_forward weights x = x.
Proof.
  intros weights x.
  assert (Forall (fun row : list R => length row = 2%nat) x) as Hrows
    by (repeat constructor).
  assert (Forall (fun w : R => w = 0%R) weights) as Hzero by (repeat constructor).
  split; [reflexivity|]. split; [exact Hrows|]. split; [exact Hzero|].
  exact (proj2 (proj2 (proj2 (SingularLayer_forward_contracts weights x 2 eq_refl Hrows)))
           Hzero).
Defined.

(** ** The running statistics of the whitening layer *)

Section RunningStats.
Import Layers.
Local Open Scope R_scope.

Lemma exp_average_pointwise (c : R) (A B : list (list R)) :
  exp_average c A B
  = zip_with (zip_with (fun a b => c * a + (1 - c) * b)) A B.
Proof.
  unfold exp_average, Np.add_mm, Np.scale.
  revert B. induction A as [|ra A IH]; intros [|rb B]; try reflexivity.
  cbn [map zip_with]. rewrite IH. f_equal.
  revert rb. induction ra as [|a ra IHr]; intros [|b rb]; try reflexivity.
  cbn [map zip_with]. rewrite IHr. reflexivity.
Qed.

Lemma zip_with_rows_left (f : R -> R -> R) (A B : list (list R)) :
  Forall2 (fun ra rb => length ra = length rb) A B ->
  (forall a b, f a b = a) ->
  zip_with (zip_with f) A B = A.
Proof.
  intros Hshape Hf. induction Hshape as [|ra rb A B Hlen _ IH]; [reflexivity|].
  cbn [zip_with]. rewrite IH. f_equal.
  clear IH. revert rb Hlen. induction ra as [|a ra IHr]; intros [|b rb] Hlen;
    try discriminate; [reflexivity|].
  cbn [zip_with]. rewrite Hf, IHr by (cbn in Hlen; lia). reflexivity.
Qed.

Lemma zip_with_rows_right (f : R -> R -> R) (A B : list (list R)) :
  Forall2 (fun ra rb => length ra = length rb) A B ->
  (forall a b, f a b = b) ->
  zip_with (zip_with f) A B = B.
Proof.
  intros Hshape Hf. induction Hshape as [|ra rb A B Hlen _ IH]; [reflexivity|].
  cbn [zip_with]. rewrite IH. f_equal.
  clear IH. revert rb Hlen. induction ra as [|a ra IHr]; intros [|b rb] Hlen;
    try discriminate; [reflexivity|].
  cbn [zip_with]. rewrite Hf, IHr by (cbn in Hlen; lia). reflexivity.
Qed.

Lemma zip_with_rows_same (f : R -> R -> R) (A : list (list R)) :
  (forall a, f a a = a) -> zip_with (zip_with f) A A = A.
Proof.
  intros Hf. induction A as [|ra A IH]; [reflexivity|].
  cbn [zip_with]. rewrite IH. f_equal.
  induction ra as [|a ra IHr]; [reflexivity|].
  cbn [zip_with]. rewrite Hf, IHr. reflexivity.
Qed.

(** X14.  Called with a mean and a whitening matrix of the shapes of
    the running ones, [_update_running_stats] returns; in exact
    arithmetic the new running statistics are the old ones when the
    momentum is 0, the given ones when it is 1, and unchanged, whatever
    the momentum, when the given statistics equal the running ones.  The
    other attributes of the layer are kept. *)
Theorem update_running_stats_is_moving_average (self : IterativeWhitening (F := R))
    (mean whitening_mat : list (list R)) :
  Forall2 (fun ra rb => length ra = length rb) mean (running_mean self) ->
  Forall2 (fun ra rb => length ra = length rb) whitening_mat (running_whitening_mat self) ->
  exists self',
    _update_running_stats self [VTensor mean; VTensor whitening_mat] = Py.Return self' /\
    input_size self' = input_size self /\ momentum self' = momentum self /\
    (momentum self = 0 ->
     running_mean self' = running_mean self /\
     running_whitening_mat self' = running_whitening_mat self) /\
    (momentum self = 1 ->
     running_mean self' = mean /\ running_whitening_mat self' = whitening_mat) /\
    (mean = running_mean self -> whitening_mat = running_whitening_mat self ->
     running_mean self' = running_mean self /\
     running_whitening_mat self' = running_whitening_mat self).
Proof.
  intros Hmean Hmat. eexists. split; [reflexivity|].
  cbn [input_size momentum running_mean running_whitening_mat].
  split; [reflexivity|]. split; [reflexivity|].
  rewrite !exp_average_pointwise. split; [|split].
  - intros ->. split; apply zip_with_rows_right; try assumption; intros a b; lra.
  - intros ->. split; apply zip_with_rows_left; try assumption; intros a b; lra.
  - intros -> ->. split; apply zip_with_rows_same; intros a; lra.
Qed.

End RunningStats.

Lemma update_running_stats_is_moving_average_witness :
  let layer := Examples.whitening_layer 2 (1 / 100000)%R 1%R in
  let mean := [[1; 2]]%R in
  let whitening_mat := [[1; 0]; [0; 1]]%R in
  Forall2 (fun ra rb => length ra = length rb) mean (Layers.running_mean layer) /\
  Forall2 (fun ra rb => length ra = length rb) whitening_mat
    (Layers.running_whitening_mat layer) /\
  exists layer',
    Layers._update_running_stats layer [Layers.VTensor mean; Layers.VTensor whitening_mat]
    = Py.Return layer' /\
    Layers.running_mean layer' = mean /\
    Layers.running_whitening_mat layer' = whitening_mat.
Proof.
  intros layer mean whitening_mat.
  assert (Forall2 (fun ra rb : list R => length ra = length rb) mean
            (Layers.running_mean layer)) as Hmean by (repeat constructor).
  assert (Forall2 (fun ra rb : list R => length ra = length rb) whitening_mat
            (Layers.running_whitening_mat layer)) as Hmat by (repeat constructor).
  split; [exact Hmean|]. split; [exact Hmat|].
  destruct (update_running_stats_is_moving_average layer mean whitening_mat Hmean Hmat)
    as (layer' & Hret & _ & _ & _ & Hone & _).
  exists layer'. split; [exact Hret|]. apply Hone. reflexivity.
Defined.

(** ** The whitening matrix of a single feature *)

Section OneFeature.
Import Layers.
Local Open Scope R_scope.

Lemma column_shape1 (xs : list R) :
  (1 <= length xs)%nat -> Np.shape1 (map (fun x => [x]) xs) = 1%nat.
Proof. destruct xs; [cbn; lia|reflexivity]. Qed.

Lemma column_col0 (xs : list R) : Np.col 0 (map (fun x => [x]) xs) = xs.
Proof.
  unfold Np.col. rewrite map_map. rewrite <- (map_id xs) at 2. apply map_ext. reflexivity.
Qed.

Lemma column_transpose (xs : list R) :
  (1 <= length xs)%nat -> Np.transpose (map (fun x => [x]) xs) = [xs].
Proof.
  intros Hn. unfold Np.transpose. rewrite column_shape1 by exact Hn.
  cbn [seq map]. rewrite column_col0. reflexivity.
Qed.

Lemma row_times_column (d e : list R) :
  (1 <= length e)%nat ->
  Np.matmul [d] (map (fun x => [x]) e) = [[Np.dot d e]].
Proof.
  intros Hn. unfold Np.matmul. rewrite column_shape1 by exact Hn.
  cbn [seq map]. rewrite column_col0. reflexivity.
Qed.

Lemma dot_self_map (g : R -> R) (xs : list R) :
  Np.dot (map g xs) (map g xs) = Np.sum (map (fun x => g x * g x) xs).
Proof.
  unfold Np.dot. f_equal. induction xs as [|x xs IH]; [reflexivity|].
  cbn [map zip_with]. rewrite IH. reflexivity.
Qed.

Lemma sub_mrow_column (xs : list R) (m : R) :
  Np.sub_mrow (map (fun x => [x]) xs) [[m]] = map (fun x => [x]) (map (fun x => x - m) xs).
Proof. unfold Np.sub_mrow. rewrite !map_map. reflexivity. Qed.

Lemma cov_of_column (xs : list R) :
  (1 <= length xs)%nat ->
  cov (map (fun x => [x]) xs)
  = [[Np.mean (map (fun x => (x - Np.mean xs) * (x - Np.mean xs)) xs)]].
Proof.
  intros Hn. unfold cov, Np.mean_axis0. rewrite column_transpose by exact Hn.
  cbn [map]. rewrite sub_mrow_column.
  rewrite column_transpose, row_times_column by (rewrite length_map; exact Hn).
  rewrite dot_self_map. unfold Np.div_ms, Np.mean. cbn [map].
  rewrite !length_map. reflexivity.
Qed.

Lemma newton_fixed_point (k : nat) :
  Nat.iter k
    (fun P => Np.scale (one / of_nat 2)
                (Np.sub_mm (Np.scale (of_nat 3) P)
                   (Np.matmul (Np.matrix_power P 3) [[1]])))
    [[1]]
  = [[1]].
Proof.
  induction k as [|k IH]; [reflexivity|].
  rewrite Nat.iter_succ, IH. cbn. do 2 f_equal. lra.
Qed.

(** X15.  With assertions stripped and one feature, in exact
    arithmetic, [_compute_whitening_matrix] returns the batch mean and,
    whatever the number of Newton iterations, the 1 x 1 matrix
    [1 / (var + eps)], with [var] the variance of the batch (divisor
    [n]): the inverse of the regularised variance, not of its square
    root. *)
Theorem whitening_of_one_feature (self : IterativeWhitening (F := R)) (xs : list R) :
  input_size self = 1%nat ->
  (1 <= length xs)%nat ->
  let X := map (fun x => [x]) xs in
  let mu := Np.mean xs in
  let var := Np.mean (map (fun x => (x - mu) * (x - mu)) xs) in
  var + eps self <> 0 ->
  exists w,
    _compute_whitening_matrix false self X
    = Py.Return (VTuple [VTensor [[mu]]; VTensor [[w]]]) /\
    w = 1 / (var + eps self).
Proof.
  intros Hsize Hn X mu var Hv. unfold _compute_whitening_matrix.
  cbn [andb]. subst X. rewrite (column_shape1 xs Hn), Hsize.
  rewrite bool_decide_eq_true_2 by reflexivity. cbn [negb].
  rewrite cov_of_column by exact Hn. fold mu var.
  unfold Np.mean_axis0. rewrite column_transpose by exact Hn. cbn [map]. fold mu.
  clearbody var mu.
  assert (Np.add_mm [[var]] (Np.scale (eps self) (Np.eye 1)) = [[var + eps self * 1]]) as ->.
  { cbn. reflexivity. }
  assert (Np.trace [[var + eps self * 1]] = 0 + (var + eps self * 1)) as -> by reflexivity.
  assert (Np.div_ms [[var + eps self * 1]] (0 + (var + eps self * 1)) = [[1]]) as ->.
  { cbn. do 2 f_equal. field. intros Hz. apply Hv. lra. }
  assert (Np.eye (F := R) 1 = [[1]]) as -> by reflexivity.
  rewrite newton_fixed_point.
  exists (1 / (0 + (var + eps self * 1))). split; [reflexivity|].
  field. intros Hz; apply Hv; lra.
Qed.

End OneFeature.

Lemma whitening_of_one_feature_witness :
  let layer := Examples.whitening_layer 1 1%R (1 / 10)%R in
  let xs := [1; 3]%R in
  Layers.input_size layer = 1%nat /\ (1 <= length xs)%nat /\
  exists w,
    Layers._compute_whitening_matrix false layer [[1]; [3]]%R
    = Py.Return (Layers.VTuple [Layers.VTensor [[Np.mean xs]]; Layers.VTensor [[w]]]) /\
    w = (1 / (Np.mean (map (fun x => (x - Np.mean xs) * (x - Np.mean xs)) xs) + 1))%R.
Proof.
  intros layer xs.
  assert (1 <= length xs)%nat as Hn by (cbn; lia).
  split; [reflexivity|]. split; [exact Hn|].
  apply (whitening_of_one_feature layer xs eq_refl Hn).
  unfold Np.mean, Np.sum, xs. cbn. lra.
Defined.

(** ** The modules built by [MLP] *)

Section MLPFacts.
Import Layers.
Context {F : Type} `{Arith F}.

Implicit Types (layers : list (torch_module (F := F))) (sizes : list nat).

(** The block the loop builds at turn [i]. *)
Let block (input_shape : nat) sizes (dropout : F) (i : nat) : torch_module :=
  MLPBlock__init__ (if decide (i = 0%nat) then input_shape else nth (i - 1) sizes 0%nat)
    (nth i sizes 0%nat) dropout.

Lemma MLP_loop_Raise (input_shape : nat) sizes (dropout : F) (e : Py.exn) (its : list nat) :
  foldl (MLP_append_block input_shape sizes dropout) (Py.Raise e) its = Py.Raise e.
Proof. induction its as [|i its IH]; [reflexivity|exact IH]. Qed.

Lemma lookup_nth_lt sizes (i : nat) :
  (i < length sizes)%nat -> sizes !! i = Some (nth i sizes 0%nat).
Proof.
  intros Hi. destruct (lookup_lt_is_Some_2 sizes i Hi) as [x Hx].
  rewrite Hx. f_equal. symmetry. apply nth_lookup_Some, Hx.
Qed.

Lemma getitem_in_range sizes (i : nat) :
  (i < length sizes)%nat -> getitem sizes i = Py.Return (nth i sizes 0%nat).
Proof. intros Hi. unfold getitem. rewrite lookup_nth_lt by exact Hi. reflexivity. Qed.

Lemma getitem_out_of_range sizes (i : nat) :
  (length sizes <= i)%nat ->
  getitem sizes i = Py.Raise (Py.IndexError "list index out of range").
Proof.
  intros Hi. unfold getitem. rewrite (proj2 (lookup_ge_None sizes i)) by exact Hi.
  reflexivity.
Qed.

Lemma getitem_last_nonempty sizes :
  (1 <= length sizes)%nat ->
  getitem_last sizes = Py.Return (nth (length sizes - 1) sizes 0%nat).
Proof.
  intros Hlen. unfold getitem_last. rewrite last_lookup.
  replace (Init.Nat.pred (length sizes)) with (length sizes - 1)%nat by lia.
  rewrite lookup_nth_lt by lia. reflexivity.
Qed.

Lemma MLP_append_block_in_range (input_shape : nat) sizes (dropout : F) layers (i : nat) :
  (i < length sizes)%nat ->
  MLP_append_block input_shape sizes dropout (Py.Return layers) i
  = Py.Return (layers ++ [block input_shape sizes dropout i]).
Proof.
  intros Hi. unfold MLP_append_block, block. cbn [mbind result_bind Py.bind].
  destruct (decide (i = 0%nat)) as [->|Hne].
  - rewrite getitem_in_range by exact Hi. reflexivity.
  - rewrite !getitem_in_range by lia. reflexivity.
Qed.

Lemma MLP_loop_in_range (input_shape : nat) sizes (dropout : F) (m a : nat) layers :
  (a + m <= length sizes)%nat ->
  foldl (MLP_append_block input_shape sizes dropout) (Py.Return layers) (seq a m)
  = Py.Return (layers ++ map (block input_shape sizes dropout) (seq a m)).
Proof.
  revert a layers. induction m as [|m IH]; intros a layers Hle.
  - cbn. rewrite app_nil_r. reflexivity.
  - cbn [seq foldl map]. rewrite MLP_append_block_in_range by lia.
    rewrite IH by lia. rewrite <- app_assoc. reflexivity.
Qed.

Lemma MLP_loop_out_of_range (input_shape : nat) sizes (dropout : F) (m a : nat) layers :
  (a <= length sizes < a + m)%nat ->
  foldl (MLP_append_block input_shape sizes dropout) (Py.Return layers) (seq a m)
  = Py.Raise (Py.IndexError "list index out of range").
Proof.
  revert a layers. induction m as [|m IH]; intros a layers Hlt; [lia|].
  cbn [seq foldl]. destruct (decide (a < length sizes)%nat) as [Ha|Ha].
  - rewrite MLP_append_block_in_range by exact Ha. apply IH. lia.
  - assert (MLP_append_block input_shape sizes dropout (Py.Return layers) a
            = Py.Raise (Py.IndexError "list index out of range")) as ->.
    { unfold MLP_append_block. cbn [mbind result_bind Py.bind].
      destruct (decide (a = 0%nat)).
      - rewrite getitem_out_of_range by lia. reflexivity.
      - rewrite (getitem_in_range sizes (a - 1)) by lia.
        rewrite getitem_out_of_range by lia. reflexivity. }
    apply MLP_loop_Raise.
Qed.

Lemma Sequential_width_app (w : nat) layers1 layers2 :
  Sequential_width w (layers1 ++ layers2)
  = match Sequential_width w layers1 with
    | Some w' => Sequential_width w' layers2
    | None => None
    end.
Proof.
  revert w. induction layers1 as [|m layers1 IH]; intros w; [reflexivity|].
  cbn [app Sequential_width]. destruct (bool_decide _); [apply IH|reflexivity].
Qed.

(** The blocks fit one another: block [i] is given the width block
    [i - 1] gives. *)
Lemma Sequential_width_blocks (input_shape : nat) sizes (dropout : F) (m a : nat) :
  Sequential_width (if decide (a = 0%nat) then input_shape else nth (a - 1) sizes 0%nat)
    (map (block input_shape sizes dropout) (seq a m))
  = Some (if decide (a + m = 0)%nat then input_shape else nth (a + m - 1) sizes 0%nat).
Proof.
  revert a. induction m as [|m IH]; intros a.
  - cbn [seq map Sequential_width]. rewrite Nat.add_0_r. reflexivity.
  - cbn [seq map Sequential_width].
    change (features_in (block input_shape sizes dropout a))
      with (Some (if decide (a = 0%nat) then input_shape else nth (a - 1) sizes 0%nat)).
    change (features_out (block input_shape sizes dropout a)) with (Some (nth a sizes 0%nat)).
    cbn [default from_option Datatypes.id]. rewrite bool_decide_eq_true_2 by reflexivity.
    specialize (IH (S a)). rewrite decide_False in IH by lia.
    replace (S a - 1)%nat with a in IH by lia. rewrite IH.
    replace (S a + m)%nat with (a + S m)%nat by lia. reflexivity.
Qed.


(** X17.  When [layer_size] is a list with fewer than [n_hidden]
    entries (and the dropout probability is between 0 and 1), the loop of
    [MLP.__init__] indexes past the end of the list: [IndexError],
    whether or not whitening is asked for. *)
Theorem MLP_init_short_list_raises_IndexError (input_shape : nat) (n_hidden : Z)
    (sizes : list nat) (output_shape : nat) (dropout : F) (iterative_whitening : bool) :
  (Z.of_nat (length sizes) < n_hidden)%Z ->
  leb zero dropout = true -> leb dropout one = true ->
  MLP__init__ input_shape n_hidden (inr sizes) output_shape dropout iterative_whitening
  = Py.Raise (Py.IndexError "list index out of range").
Proof.
  intros Hshort _ _. unfold MLP__init__. rewrite decide_False by lia.
  change (mret []) with (Py.Return (@nil (torch_module (F := F)))).
  rewrite MLP_loop_out_of_range by lia. reflexivity.
Qed.

(** X18.  When [layer_size] is a list with more than [n_hidden]
    entries, the final [Linear] takes its width from the last entry of
    the list, not from the last block: the constructor (dropout
    probability between 0 and 1, no whitening) raises no [IndexError],
    and unless the two widths happen to agree the modules it hands to
    [Sequential] do not fit. *)
Theorem MLP_init_long_list_does_not_fit (input_shape : nat) (n_hidden : Z)
    (sizes : list nat) (output_shape : nat) (dropout : F) :
  (1 <= n_hidden)%Z ->
  (Z.to_nat n_hidden < length sizes)%nat ->
  last sizes <> sizes !! (Z.to_nat n_hidden - 1)%nat ->
  leb zero dropout = true -> leb dropout one = true ->
  exists layers,
    MLP__init__ input_shape n_hidden (inr sizes) output_shape dropout false
    = Py.Return layers /\
    Sequential_width input_shape layers = None.
Proof.
  intros Hn Hlong Hdiff _ _. unfold MLP__init__. rewrite decide_False by lia.
  change (mret []) with (Py.Return (@nil (torch_module (F := F)))).
  rewrite MLP_loop_in_range by lia. cbn [mbind result_bind Py.bind app].
  rewrite getitem_last_nonempty by lia.
  cbn [mbind result_bind Py.bind mret result_ret].
  assert (nth (length sizes - 1) sizes 0%nat <> nth (Z.to_nat n_hidden - 1) sizes 0%nat)
    as Hwidth.
  { intros Heq. apply Hdiff. rewrite last_lookup.
    replace (Init.Nat.pred (length sizes)) with (length sizes - 1)%nat by lia.
    rewrite !lookup_nth_lt by lia. rewrite Heq. reflexivity. }
  eexists. split; [reflexivity|].
  pose proof (Sequential_width_blocks input_shape sizes dropout (Z.to_nat n_hidden) 0)
    as Hblocks.
  rewrite decide_True in Hblocks by reflexivity.
  rewrite decide_False in Hblocks by lia. cbn [Nat.add] in Hblocks.
  rewrite Sequential_width_app, Hblocks.
  cbn [Sequential_width features_in features_out default from_option Datatypes.id].
  rewrite bool_decide_eq_false_2 by exact Hwidth.
  reflexivity.
Qed.

(** X30.  With at least one hidden layer, enough entries in
    [layer_size] and a dropout probability between 0 and 1, asking for
    whitening makes [MLP.__init__] raise [AttributeError]: the whitening
    layer registers a buffer without its [Module.__init__] having run, so
    no such network is ever built.  Without hidden layers the flag is not
    looked at. *)
Theorem MLP_init_with_whitening_raises_AttributeError (input_shape : nat) (n_hidden : Z)
    (layer_size : nat + list nat) (output_shape : nat) (dropout : F) :
  match layer_size with
  | inl _ => (1 <= n_hidden)%Z
  | inr sizes => (1 <= n_hidden)%Z /\ (Z.to_nat n_hidden <= length sizes)%nat
  end ->
  leb zero dropout = true -> leb dropout one = true ->
  MLP__init__ input_shape n_hidden layer_size output_shape dropout true
  = Py.Raise (Py.AttributeError "cannot assign buffer before Module.__init__() call")
  /\ MLP__init__ input_shape 0 layer_size output_shape dropout true
     = MLP__init__ input_shape 0 layer_size output_shape dropout false.
Proof.
  intros Hsizes _ _. split; [|reflexivity]. unfold MLP__init__.
  set (sizes := match layer_size with
                | inl size => replicate (Z.to_nat n_hidden) size
                | inr sizes => sizes
                end).
  assert ((1 <= n_hidden)%Z /\ (Z.to_nat n_hidden <= length sizes)%nat) as [Hn Hlen].
  { unfold sizes. destruct layer_size as [size|sizes'];
      [rewrite length_replicate; split; [exact Hsizes|lia]|exact Hsizes]. }
  rewrite decide_False by lia.
  change (mret []) with (Py.Return (@nil (torch_module (F := F)))).
  rewrite MLP_loop_in_range by lia. cbn [mbind result_bind Py.bind app].
  rewrite getitem_last_nonempty by lia. reflexivity.
Qed.

End MLPFacts.

Lemma leb_zero_zero_one : leb (F := R) zero 0%R = true /\ leb (F := R) 0%R one = true.
Proof.
  cbn [leb zero one R_arith].
  destruct (Rle_dec 0 0) as [_|Hn]; [|exfalso; apply Hn; lra].
  destruct (Rle_dec 0 1) as [_|Hn]; [|exfalso; apply Hn; lra].
  split; reflexivity.
Qed.


Lemma MLP_init_short_list_raises_IndexError_witness :
  (Z.of_nat (length [32%nat]) < 2)%Z /\
  Layers.MLP__init__ (F := R) 1 2 (inr [32%nat]) 100 0%R false
  = Py.Raise (Py.IndexError "list index out of range").
Proof.
  assert (Z.of_nat (length [32%nat]) < 2)%Z as Hshort by (cbn; lia).
  split; [exact Hshort|].
  exact (MLP_init_short_list_raises_IndexError (F := R) 1 2 [32%nat] 100 0%R false Hshort
           (proj1 leb_zero_zero_one) (proj2 leb_zero_zero_one)).
Defined.

Lemma MLP_init_long_list_does_not_fit_witness :
  let sizes := [32; 64; 16]%nat in
  (1 <= 2)%Z /\ (Z.to_nat 2 < length sizes)%nat /\
  last sizes <> sizes !! (Z.to_nat 2 - 1)%nat /\
  exists layers,
    Layers.MLP__init__ (F := R) 1 2 (inr sizes) 100 0%R false = Py.Return layers /\
    Layers.Sequential_width 1 layers = None.
Proof.
  intros sizes.
  assert (1 <= 2)%Z as Hn by lia.
  assert (Z.to_nat 2 < length sizes)%nat as Hlong by (cbn; lia).
  assert (last sizes <> sizes !! (Z.to_nat 2 - 1)%nat) as Hdiff by (vm_compute; discriminate).
  split; [exact Hn|]. split; [exact Hlong|]. split; [exact Hdiff|].
  exact (MLP_init_long_list_does_not_fit (F := R) 1 2 sizes 100 0%R Hn Hlong Hdiff
           (proj1 leb_zero_zero_one) (proj2 leb_zero_zero_one)).
Defined.

Lemma MLP_init_with_whitening_raises_AttributeError_witness :
  (1 <= 2)%Z /\
  Layers.MLP__init__ (F := R) 1 2 (inl 32%nat) 100 0%R true
  = Py.Raise (Py.AttributeError "cannot assign buffer before Module.__init__() call").
Proof.
  assert (1 <= 2)%Z as Hn by lia.
  split; [exact Hn|].
  exact (proj1 (MLP_init_with_whitening_raises_AttributeError (F := R) 1 2 (inl 32%nat) 100
                  0%R Hn (proj1 leb_zero_zero_one) (proj2 leb_zero_zero_one))).
Defined.

(** ** The simulator: outcome, sizes of the parameter arrays *)

Section SymmGMMShapes.
Import SymmGMM.
Context {F : Type} `{Arith F} {elt : Type} `{EqDecision elt}.
Context {rng entropy : Type}.
Variable RandomState_seeded : Z -> rng.
Variable RandomState_entropy : entropy -> rng.
Variable rng_random : rng -> nat -> list F * rng.
Variable rng_normal : rng -> F -> F -> nat -> list F * rng.
Variable project_to_pos_semi_def : list (list (list F)) -> list (list (list F)).
Variable simulate :
  rng -> list F -> list (list F * list (list F)) -> N ->
  list (list F) * list (list F) * rng.
Variable symmetric_moments :
  list (list F) -> Representation F elt -> list F * list F.

(** X19.  For a representation of a continuous group the constructor
    raises [NotImplementedError], whether or not the name [G] is bound:
    no simulator is built. *)
Theorem init_continuous_group_raises_NotImplementedError
    (module_G : option (Group elt)) (os : entropy) (n_kernels : nat)
    (rep_X rep_Y : Representation F elt) (means_std : F) (random_seed : option Z) :
  continuous (group rep_X) = true ->
  __init__ RandomState_seeded RandomState_entropy rng_random rng_normal
    project_to_pos_semi_def simulate symmetric_moments
    module_G os n_kernels rep_X rep_Y means_std random_seed
  = Py.Raise (Py.NotImplementedError "Only finite groups are supported at the moment").
Proof.
  intros Hcont. unfold __init__. destruct_let_pairs.
  rewrite Hcont. reflexivity.
Qed.

Lemma length_reshape (rows c : nat) (v : list F) : length (Np.reshape rows c v) = rows.
Proof.
  revert v. induction rows as [|rows IH]; intros v; [reflexivity|].
  cbn [Np.reshape length]. rewrite IH. reflexivity.
Qed.

Lemma length_reshape3 (k r c : nat) (v : list F) : length (reshape3 k r c v) = k.
Proof.
  revert v. induction k as [|k IH]; intros v; [reflexivity|].
  cbn [reshape3 length]. rewrite IH. reflexivity.
Qed.

Lemma length_concat_orbit {A B : Type} (l : list A) (f : B -> list A) (others : list B) :
  (forall g, length (f g) = length l) ->
  length (concat (l :: map f others)) = (length l * S (length others))%nat.
Proof.
  intros Hf. cbn [concat]. rewrite length_app.
  induction others as [|g others IH]; cbn [map concat length]; [lia|].
  rewrite length_app, Hf. lia.
Qed.

Lemma length_concat_replicate {A : Type} (k : nat) (l : list A) :
  length (concat (replicate k l)) = (length l * k)%nat.
Proof.
  induction k as [|k IH]; cbn [replicate concat length]; [lia|].
  rewrite length_app, IH. lia.
Qed.

Lemma length_others (G' : Group elt) :
  NoDup (elements G') -> identity G' ∈ elements G' ->
  S (length (filter (fun g => g <> identity G') (elements G'))) = order G'.
Proof.
  unfold order. generalize (identity G') as e. intros e.
  induction (elements G') as [|g l IH]; intros Hnd Hin; [inversion Hin|].
  apply NoDup_cons in Hnd as [Hg Hnd].
  destruct (decide (g = e)) as [->|Hne].
  - rewrite filter_cons_False by (intros Hc; apply Hc; reflexivity).
    cbn [length]. f_equal.
    assert (filter (fun g => g <> e) l = l) as ->; [|reflexivity].
    clear IH Hnd Hin. induction l as [|x l IHl]; [reflexivity|].
    apply not_elem_of_cons in Hg as [Hx Hl].
    rewrite filter_cons_True by congruence. f_equal. apply IHl, Hl.
  - rewrite filter_cons_True by exact Hne. cbn [length]. f_equal. apply IH; [exact Hnd|].
    apply elem_of_cons in Hin as [Heq|Hin]; [congruence|exact Hin].
Qed.

(** X20.  Where the group-averaging branch runs, for a group whose
    list of elements has no repetition and holds the identity, with
    generators that return as many draws as they are asked for and a
    projection that keeps the number of matrices: the simulator built has
    [n_kernels * order] components, and as many weights, means,
    covariance blocks, joint covariances and frozen Gaussians. *)
Theorem init_component_counts_agree
    (G' : Group elt) (os : entropy) (n_kernels : nat)
    (rep_X rep_Y : Representation F elt) (means_std : F) (random_seed : option Z) :
  continuous (group rep_X) = false ->
  NoDup (elements G') -> identity G' ∈ elements G' ->
  (forall st n, length (rng_random st n).1 = n) ->
  (forall covs, length (project_to_pos_semi_def covs) = length covs) ->
  exists self,
    __init__ RandomState_seeded RandomState_entropy rng_random rng_normal
      project_to_pos_semi_def simulate symmetric_moments
      (Some G') os n_kernels rep_X rep_Y means_std random_seed = Py.Return self /\
    SymmGMM.n_kernels self = (n_kernels * order G')%nat /\
    length (weights self) = SymmGMM.n_kernels self /\
    length (means self) = SymmGMM.n_kernels self /\
    length (covariances_x self) = SymmGMM.n_kernels self /\
    length (covariances_y self) = SymmGMM.n_kernels self /\
    length (covariances self) = SymmGMM.n_kernels self /\
    length (gaussians self) = SymmGMM.n_kernels self /\
    length (means_x self) = SymmGMM.n_kernels self /\
    length (means_y self) = SymmGMM.n_kernels self.
Proof.
  intros Hfinite Hnd Hid Hrandom Hproject.
  pose proof (length_others G' Hnd Hid) as Hothers.
  unfold __init__, _sample_weights, RandomState.
  pose proof (Hrandom (RandomState_seeded 20) n_kernels) as Hu.
  destruct (rng_random (RandomState_seeded 20) n_kernels) as [u st1]. cbn [fst] in Hu.
  destruct_let_pairs. rewrite Hfinite. cbn [negb]. destruct_let_pairs.
  eexists. split; [reflexivity|].
  cbn [SymmGMM.n_kernels weights means covariances_x covariances_y covariances gaussians
       means_x means_y].
  set (others := filter (fun g => g <> identity G') (elements G')) in *.
  assert (forall (covs : list (list (list F))) (f : elt -> list (list (list F))),
            length covs = n_kernels -> (forall g, length (f g) = length covs) ->
            length (concat (covs :: map f others)) = (n_kernels * order G')%nat) as Horbit.
  { intros covs f Hlen Hf. rewrite length_concat_orbit by exact Hf.
    rewrite Hlen, Hothers. reflexivity. }
  assert (forall dr : list F,
            length (concat (Np.reshape n_kernels (size rep_X + size rep_Y) dr
                            :: map (fun g => act_on_means
                                               (matrix_of (directsum rep_X rep_Y) g)
                                               (Np.reshape n_kernels
                                                  (size rep_X + size rep_Y) dr)) others))
            = (n_kernels * order G')%nat) as Hmeans.
  { intros dr. rewrite length_concat_orbit.
    - rewrite length_reshape, Hothers. reflexivity.
    - intros g. unfold act_on_means. apply length_map. }
  assert (forall (rep : Representation F elt) (d : nat) (dr : list F),
            length (concat
                      (project_to_pos_semi_def
                         (map (map (map abs)) (reshape3 n_kernels d d dr))
                       :: map (fun g => conjugate (matrix_of rep g)
                                          (project_to_pos_semi_def
                                             (map (map (map abs))
                                                (reshape3 n_kernels d d dr)))
                                          (matrix_of rep (inverse G' g))) others))
            = (n_kernels * order G')%nat) as Hcov.
  { intros rep d dr. apply Horbit.
    - rewrite Hproject, length_map, length_reshape3. reflexivity.
    - intros g. unfold conjugate. apply length_map. }
  split; [reflexivity|].
  repeat split;
    rewrite ?length_zip, ?length_zip_with, ?length_map, ?Hmeans, ?Hcov,
      ?length_concat_replicate, ?length_map, ?Hu; lia.
Qed.

End SymmGMMShapes.

Lemma init_continuous_group_raises_NotImplementedError_witness :
  let SO2 : SymmGMM.Group bool :=
    {| SymmGMM.continuous := true; SymmGMM.elements := [];
       SymmGMM.identity := false; SymmGMM.inverse := fun g => g |} in
  let rep : SymmGMM.Representation R bool :=
    {| SymmGMM.group := SO2; SymmGMM.size := 1;
       SymmGMM.matrix_of := fun _ => [[1%R]] |} in
  SymmGMM.continuous (SymmGMM.group rep) = true /\
  SymmGMM.__init__ (fun _ => tt) (fun _ : unit => tt) Examples.const_random
    Examples.const_normal (fun covs => covs) Examples.no_samples Examples.no_moments
    (Some SO2) tt 3 rep rep (3 / 2)%R None
  = Py.Raise (Py.NotImplementedError "Only finite groups are supported at the moment").
Proof.
  intros SO2 rep. split; [reflexivity|].
  apply (init_continuous_group_raises_NotImplementedError (F := R) (elt := bool)).
  reflexivity.
Defined.

Lemma init_component_counts_agree_witness :
  SymmGMM.continuous (SymmGMM.group Examples.sign_rep) = false /\
  NoDup (SymmGMM.elements Examples.Z2) /\
  SymmGMM.identity Examples.Z2 ∈ SymmGMM.elements Examples.Z2 /\
  exists self,
    Examples.toy_init (Some Examples.Z2) 3 None = Py.Return self /\
    SymmGMM.n_kernels self = 6%nat /\
    length (SymmGMM.weights self) = 6%nat /\
    length (SymmGMM.means self) = 6%nat.
Proof.
  assert (NoDup (SymmGMM.elements Examples.Z2)) as Hnd.
  { apply (bool_decide_unpack (NoDup (SymmGMM.elements Examples.Z2))). vm_compute. exact I. }
  assert (SymmGMM.identity Examples.Z2 ∈ SymmGMM.elements Examples.Z2) as Hid by left.
  split; [reflexivity|]. split; [exact Hnd|]. split; [exact Hid|].
  destruct (init_component_counts_agree (F := R) (elt := bool)
              (fun _ => tt) (fun _ : unit => tt) Examples.const_random
              Examples.const_normal (fun covs => covs) Examples.no_samples
              Examples.no_moments Examples.Z2 tt 3 Examples.sign_rep Examples.sign_rep
              (3 / 2)%R None eq_refl Hnd Hid)
    as (self & Hret & Hk & Hw & Hm & _).
  - intros st n. apply length_replicate.
  - reflexivity.
  - exists self. split; [exact Hret|]. split; [exact Hk|].
    rewrite Hw, Hm, Hk. split; reflexivity.
Defined.

(** ** The simulator: weights and means of the orbit copies *)

Section SymmGMMOrbit.
Import SymmGMM.
Local Open Scope R_scope.
Context {elt : Type} `{EqDecision elt} {rng entropy : Type}.
Variable RandomState_seeded : Z -> rng.
Variable RandomState_entropy : entropy -> rng.
Variable rng_random : rng -> nat -> list R * rng.
Variable rng_normal : rng -> R -> R -> nat -> list R * rng.
Variable project_to_pos_semi_def : list (list (list R)) -> list (list (list R)).
Variable simulate :
  rng -> list R -> list (list R * list (list R)) -> N ->
  list (list R) * list (list R) * rng.
Variable symmetric_moments : list (list R) -> Representation R elt -> list R * list R.

Lemma map_concat_replicate {A B : Type} (f : A -> B) (k : nat) (l : list A) :
  map f (concat (replicate k l)) = concat (replicate k (map f l)).
Proof.
  induction k as [|k IH]; [reflexivity|].
  cbn [replicate concat]. rewrite map_app, IH. reflexivity.
Qed.

(** X21.  In exact arithmetic, where the group-averaging branch runs
    and the draws for the weights do not sum to zero, every copy of the
    mixture under the group carries the same weights: the weights of the
    simulator are the weights returned by [_sample_weights], each divided
    by the order of the group, repeated once per group element. *)
Theorem init_weights_are_shared_by_the_orbit
    (G' : Group elt) (os : entropy) (n_kernels : nat)
    (rep_X rep_Y : Representation R elt) (means_std : R) (random_seed : option Z) :
  let w := (_sample_weights rng_random (RandomState_seeded 20) n_kernels).1 in
  Np.sum (rng_random (RandomState_seeded 20) n_kernels).1 <> 0 ->
  continuous (group rep_X) = false ->
  (0 < order G')%nat ->
  exists self,
    __init__ RandomState_seeded RandomState_entropy rng_random rng_normal
      project_to_pos_semi_def simulate symmetric_moments
      (Some G') os n_kernels rep_X rep_Y means_std random_seed = Py.Return self /\
    weights self
    = concat (replicate (order G') (map (fun x => x / INR (order G')) w)).
Proof.
  intros w Hsum Hfinite Horder. subst w.
  unfold __init__, _sample_weights, RandomState.
  destruct (rng_random (RandomState_seeded 20) n_kernels) as [u st1].
  cbn [fst] in *.
  destruct_let_pairs. rewrite Hfinite. cbn [negb]. destruct_let_pairs.
  eexists. split; [reflexivity|]. cbn [weights].
  change (@div R R_arith) with Rdiv in *.
  rewrite rsum_concat_replicate, rsum_map_div.
  assert (INR (order G') * (Np.sum u / Np.sum u) = INR (order G')) as ->
    by (field; exact Hsum).
  apply map_concat_replicate.
Qed.

Lemma rsum_zeros (k : nat) : Np.sum (Np.zeros (F := R) k) = 0.
Proof. unfold Np.zeros. rewrite rsum_replicate. cbn. lra. Qed.

Lemma dot_app (a b x y : list R) :
  length a = length x ->
  Np.dot (a ++ b) (x ++ y) = Np.dot a x + Np.dot b y.
Proof.
  intros Hlen. unfold Np.dot.
  rewrite zip_with_app by exact Hlen. apply rsum_app.
Qed.

Lemma dot_zeros_l (k : nat) (x : list R) : Np.dot (Np.zeros k) x = 0.
Proof.
  unfold Np.dot, Np.zeros. revert x. induction k as [|k IH]; intros [|a x];
    try (cbn; reflexivity).
  cbn [replicate zip_with]. rewrite rsum_cons, IH. cbn. lra.
Qed.

Lemma shape1_rows (M : list (list R)) (d : nat) :
  length M = d -> Forall (fun row => length row = d) M -> Np.shape1 M = d.
Proof.
  intros Hlen Hrows. destruct M as [|row M]; [exact Hlen|].
  apply Forall_cons in Hrows as [Hrow _]. exact Hrow.
Qed.

(** The direct sum acts on a stacked vector block by block. *)
Lemma matvec_block_diag (A B : list (list R)) (dx dy : nat) (x y : list R) :
  length A = dx -> Forall (fun row => length row = dx) A ->
  length B = dy -> Forall (fun row => length row = dy) B ->
  length x = dx -> length y = dy ->
  Np.matvec (block_diag A B) (x ++ y) = Np.matvec A x ++ Np.matvec B y.
Proof.
  intros HA HrA HB HrB Hx Hy. unfold Np.matvec, block_diag.
  rewrite (shape1_rows A dx HA HrA), (shape1_rows B dy HB HrB).
  rewrite map_app, !map_map. f_equal.
  - apply map_ext_in. intros row Hin. rewrite Forall_forall in HrA.
    apply list_elem_of_In in Hin. rewrite dot_app by (rewrite (HrA row Hin); lia).
    rewrite dot_zeros_l. lra.
  - apply map_ext_in. intros row Hin.
    rewrite dot_app by (unfold Np.zeros; rewrite length_replicate; lia).
    rewrite dot_zeros_l. lra.
Qed.

(** The action of the direct sum on a list of stacked means splits into
    the actions of the two representations. *)
Lemma direct_sum_splits (rep_X rep_Y : Representation R elt) (g : elt)
    (means : list (list R)) :
  length (matrix_of rep_X g) = size rep_X ->
  Forall (fun row => length row = size rep_X) (matrix_of rep_X g) ->
  length (matrix_of rep_Y g) = size rep_Y ->
  Forall (fun row => length row = size rep_Y) (matrix_of rep_Y g) ->
  Forall (fun m => length m = (size rep_X + size rep_Y)%nat) means ->
  map (take (size rep_X)) (act_on_means (matrix_of (directsum rep_X rep_Y) g) means)
  = act_on_means (matrix_of rep_X g) (map (take (size rep_X)) means) /\
  map (drop (size rep_X)) (act_on_means (matrix_of (directsum rep_X rep_Y) g) means)
  = act_on_means (matrix_of rep_Y g) (map (drop (size rep_X)) means).
Proof.
  intros HA HrA HB HrB Hmeans.
  set (dx := size rep_X) in *. set (dy := size rep_Y) in *.
  unfold act_on_means. cbn [matrix_of directsum]. rewrite !map_map.
  assert (forall m, In m means ->
            Np.matvec (block_diag (matrix_of rep_X g) (matrix_of rep_Y g)) m
            = Np.matvec (matrix_of rep_X g) (take dx m)
              ++ Np.matvec (matrix_of rep_Y g) (drop dx m)) as Hsplit.
  { intros m Hin. rewrite Forall_forall in Hmeans. apply list_elem_of_In in Hin.
    specialize (Hmeans m Hin). cbn beta in Hmeans.
    rewrite <- (take_drop dx m) at 1.
    apply (matvec_block_diag _ _ dx dy); try assumption.
    - rewrite length_take. lia.
    - rewrite length_drop. lia. }
  assert (forall v : list R, length (Np.matvec (matrix_of rep_X g) v) = dx) as Hlen.
  { intros v. unfold Np.matvec. rewrite length_map. exact HA. }
  split; apply map_ext_in; intros m Hin; rewrite (Hsplit m Hin).
  - rewrite take_app_length' by (symmetry; apply Hlen). reflexivity.
  - rewrite drop_app_length' by (symmetry; apply Hlen). reflexivity.
Qed.

Lemma reshape_rows (rows c : nat) (v : list R) :
  length v = (rows * c)%nat -> Forall (fun row => length row = c) (Np.reshape rows c v).
Proof.
  revert v. induction rows as [|rows IH]; intros v Hlen; [constructor|].
  cbn [Np.reshape]. constructor.
  - rewrite length_take. lia.
  - apply IH. rewrite length_drop. lia.
Qed.

(** X22.  In exact arithmetic, where the group-averaging branch runs,
    for representations whose matrices are square of their size and a
    generator that returns as many normal draws as it is asked for: the
    marginal means of the simulator are orbits.  After the first
    [n_kernels] of [means_x] (those sampled) come, for every group
    element but the identity, their images under [rep_X]; likewise
    [means_y] under [rep_Y]. *)
Theorem init_marginal_means_are_orbits
    (G' : Group elt) (os : entropy) (n_kernels : nat)
    (rep_X rep_Y : Representation R elt) (means_std : R) (random_seed : option Z) :
  continuous (group rep_X) = false ->
  (forall g, length (matrix_of rep_X g) = size rep_X
             /\ Forall (fun row => length row = size rep_X) (matrix_of rep_X g)) ->
  (forall g, length (matrix_of rep_Y g) = size rep_Y
             /\ Forall (fun row => length row = size rep_Y) (matrix_of rep_Y g)) ->
  (forall st loc scale n, length (rng_normal st loc scale n).1 = n) ->
  exists self,
    __init__ RandomState_seeded RandomState_entropy rng_random rng_normal
      project_to_pos_semi_def simulate symmetric_moments
      (Some G') os n_kernels rep_X rep_Y means_std random_seed = Py.Return self /\
    let others := filter (fun g => g <> identity G') (elements G') in
    means_x self
    = concat (take n_kernels (means_x self)
              :: map (fun g => act_on_means (matrix_of rep_X g)
                                 (take n_kernels (means_x self))) others) /\
    means_y self
    = concat (take n_kernels (means_y self)
              :: map (fun g => act_on_means (matrix_of rep_Y g)
                                 (take n_kernels (means_y self))) others).
Proof.
  intros Hfinite HX HY Hnormal.
  unfold __init__, _sample_weights, RandomState.
  destruct (rng_random (RandomState_seeded 20) n_kernels) as [u st1].
  pose proof (Hnormal st1 zero means_std (n_kernels * (size rep_X + size rep_Y))%nat) as Hd.
  destruct (rng_normal st1 zero means_std (n_kernels * (size rep_X + size rep_Y))%nat)
    as [d st2]. cbn [fst] in Hd.
  destruct_let_pairs. rewrite Hfinite. cbn [negb]. destruct_let_pairs.
  eexists. split; [reflexivity|]. cbn [means_x means_y].
  set (others := filter (fun g => g <> identity G') (elements G')).
  set (M0 := Np.reshape n_kernels (size rep_X + size rep_Y) d).
  assert (length M0 = n_kernels) as HM0 by apply length_reshape.
  assert (Forall (fun m => length m = (size rep_X + size rep_Y)%nat) M0) as Hrows
    by (apply reshape_rows, Hd).
  assert (forall f : list R -> list R,
            map f (concat (M0 :: map (fun g => act_on_means
                                                 (matrix_of (directsum rep_X rep_Y) g) M0)
                                   others))
            = map f M0
              ++ concat (map (fun g => map f (act_on_means
                                               (matrix_of (directsum rep_X rep_Y) g) M0))
                           others)) as Hmap.
  { intros f. cbn [concat]. rewrite map_app. f_equal.
    rewrite concat_map, map_map. reflexivity. }
  rewrite !Hmap.
  rewrite !take_app_length' by (rewrite length_map; symmetry; exact HM0).
  cbn [concat]. split; f_equal; f_equal; apply map_ext_in; intros g _;
    destruct (HX g) as [HA HrA]; destruct (HY g) as [HB HrB];
    apply (direct_sum_splits rep_X rep_Y g M0 HA HrA HB HrB Hrows).
Qed.

End SymmGMMOrbit.

Lemma init_weights_are_shared_by_the_orbit_witness :
  (Np.sum (Examples.const_random tt 3).1 <> 0)%R /\
  exists self,
    Examples.toy_init (Some Examples.Z2) 3 None = Py.Return self /\
    SymmGMM.weights self
    = concat (replicate 2
                (map (fun x => x / INR 2)%R
                   (SymmGMM._sample_weights Examples.const_random tt 3).1)).
Proof.
  assert (Np.sum (Examples.const_random tt 3).1 <> 0)%R as Hsum.
  { unfold Np.sum. cbn. lra. }
  split; [exact Hsum|].
  exact (init_weights_are_shared_by_the_orbit (elt := bool)
           (fun _ => tt) (fun _ : unit => tt) Examples.const_random
           Examples.const_normal (fun covs => covs) Examples.no_samples
           Examples.no_moments Examples.Z2 tt 3 Examples.sign_rep Examples.sign_rep
           (3 / 2)%R None Hsum eq_refl ltac:(cbn; lia)).
Defined.

Lemma init_marginal_means_are_orbits_witness :
  SymmGMM.continuous (SymmGMM.group Examples.sign_rep) = false /\
  exists self,
    Examples.toy_init (Some Examples.Z2) 3 None = Py.Return self /\
    SymmGMM.means_x self
    = concat (take 3 (SymmGMM.means_x self)
              :: map (fun g => SymmGMM.act_on_means (SymmGMM.matrix_of Examples.sign_rep g)
                                 (take 3 (SymmGMM.means_x self))) [true]).
Proof.
  split; [reflexivity|].
  destruct (init_marginal_means_are_orbits (elt := bool)
              (fun _ => tt) (fun _ : unit => tt) Examples.const_random
              Examples.const_normal (fun covs => covs) Examples.no_samples
              Examples.no_moments Examples.Z2 tt 3 Examples.sign_rep Examples.sign_rep
              (3 / 2)%R None eq_refl)
    as (self & Hret & Hx & _).
  - intros g. split; [reflexivity|repeat constructor].
  - intros g. split; [reflexivity|repeat constructor].
  - intros st loc scale n. apply length_replicate.
  - exists self. split; [exact Hret|exact Hx].
Defined.

(** ** From a density to a distribution function *)

Section Pdf2cdfFacts.
Import NCPBench.
Local Open Scope R_scope.

Lemma length_cumsum_from (acc : R) (v : list R) :
  length (Np.cumsum_from acc v) = length v.
Proof.
  revert acc. induction v as [|x v IH]; intros acc; [reflexivity|].
  cbn [Np.cumsum_from length]. rewrite IH. reflexivity.
Qed.

Lemma nth_cumsum_from (acc : R) (v : list R) (k : nat) :
  (k < length v)%nat ->
  nth k (Np.cumsum_from acc v) 0 = acc + Np.sum (take (S k) v).
Proof.
  revert acc k. induction v as [|x v IH]; intros acc k Hk; [cbn in Hk; lia|].
  cbn [Np.cumsum_from]. destruct k as [|k].
  - cbn [nth]. rewrite firstn_cons, take_0, rsum_cons, rsum_nil. cbn [add R_arith]. lra.
  - cbn [nth]. rewrite IH by (cbn in Hk; lia).
    rewrite (firstn_cons (S k) x v), (rsum_cons x). cbn [add R_arith]. lra.
Qed.

Lemma length_cumsum (v : list R) : length (Np.cumsum v) = length v.
Proof. destruct v as [|x v]; [reflexivity|]. cbn. rewrite length_cumsum_from. reflexivity. Qed.

Lemma nth_cumsum (v : list R) (k : nat) :
  (k < length v)%nat -> nth k (Np.cumsum v) 0 = Np.sum (take (S k) v).
Proof.
  intros Hk. destruct v as [|x v]; [cbn in Hk; lia|].
  cbn [Np.cumsum]. destruct k as [|k].
  - cbn [nth]. rewrite firstn_cons, take_0, rsum_cons, rsum_nil. lra.
  - cbn [nth]. rewrite nth_cumsum_from by (cbn in Hk; lia).
    rewrite (firstn_cons (S k) x v), (rsum_cons x). reflexivity.
Qed.

Lemma nth_pdf2cdf (pdf : list R) (step : R) (k : nat) :
  (k < length pdf)%nat ->
  nth k (pdf2cdf pdf step) 0 = Np.sum (take (S k) pdf) * step.
Proof.
  intros Hk. unfold pdf2cdf. rewrite nth_cumsum by (rewrite length_map; exact Hk).
  rewrite firstn_map. apply rsum_map_mul_r.
Qed.

(** X23.  In exact arithmetic [pdf2cdf] keeps the length of the grid;
    its entry [k] is [step] times the sum of the density values up to
    [k], and its last entry is [step] times the sum of them all. *)
Theorem pdf2cdf_is_scaled_partial_sum (pdf : list R) (step : R) :
  length (pdf2cdf pdf step) = length pdf /\
  (forall k, (k < length pdf)%nat ->
     nth k (pdf2cdf pdf step) 0 = Np.sum (take (S k) pdf) * step) /\
  last (pdf2cdf pdf step) = (if pdf is [] then None else Some (Np.sum pdf * step)).
Proof.
  assert (length (pdf2cdf pdf step) = length pdf) as Hlen
    by (unfold pdf2cdf; rewrite length_cumsum; apply length_map).
  split; [exact Hlen|]. split; [apply nth_pdf2cdf|].
  rewrite last_lookup, Hlen. destruct pdf as [|p pdf]; [reflexivity|].
  cbn [length Init.Nat.pred].
  destruct (lookup_lt_is_Some_2 (pdf2cdf (p :: pdf) step) (length pdf))
    as [c Hc]; [rewrite Hlen; cbn; lia|].
  rewrite Hc. f_equal. apply (nth_lookup_Some _ _ 0) in Hc. rewrite <- Hc.
  rewrite nth_pdf2cdf by (cbn; lia).
  rewrite (take_ge (p :: pdf)) by (cbn; lia). reflexivity.
Qed.

Lemma rsum_take_mono (v : list R) (i j : nat) :
  Forall (fun x => 0 <= x) v -> (i <= j)%nat ->
  0 <= Np.sum (take i v) <= Np.sum (take j v).
Proof.
  intros Hnn. revert i j. induction Hnn as [|x v Hx _ IH]; intros i j Hij.
  - rewrite !take_nil, rsum_nil. lra.
  - destruct i as [|i].
    + rewrite take_0, rsum_nil. split; [lra|].
      destruct j as [|j]; [rewrite take_0, rsum_nil; lra|].
      rewrite firstn_cons, rsum_cons. destruct (IH 0%nat j ltac:(lia)) as [_ Hj].
      rewrite take_0, rsum_nil in Hj. lra.
    + destruct j as [|j]; [lia|].
      rewrite !firstn_cons, !rsum_cons. destruct (IH i j ltac:(lia)). lra.
Qed.

(** X24.  In exact arithmetic, for a density with no negative value and
    a grid spacing that is not negative, the values returned by
    [pdf2cdf] are not negative and do not decrease along the grid. *)
Theorem pdf2cdf_is_nondecreasing (pdf : list R) (step : R) :
  Forall (fun p => 0 <= p) pdf ->
  0 <= step ->
  forall i j, (i <= j)%nat -> (j < length pdf)%nat ->
    0 <= nth i (pdf2cdf pdf step) 0 <= nth j (pdf2cdf pdf step) 0.
Proof.
  intros Hnn Hstep i j Hij Hj.
  rewrite !nth_pdf2cdf by lia.
  destruct (rsum_take_mono pdf (S i) (S j) Hnn ltac:(lia)) as [H0 Hle].
  split; [apply Rmult_le_pos; assumption|].
  apply Rmult_le_compat_r; assumption.
Qed.

End Pdf2cdfFacts.

Lemma pdf2cdf_is_nondecreasing_witness :
  let pdf := [1; 0; 2]%R in
  let step := (1 / 4)%R in
  Forall (fun p => 0 <= p)%R pdf /\ (0 <= step)%R /\
  NCPBench.pdf2cdf pdf step = [1 * (1 / 4); 1 * (1 / 4) + 0 * (1 / 4);
                               1 * (1 / 4) + 0 * (1 / 4) + 2 * (1 / 4)]%R /\
  (0 <= nth 0 (NCPBench.pdf2cdf pdf step) 0 <= nth 2 (NCPBench.pdf2cdf pdf step) 0)%R.
Proof.
  intros pdf step.
  assert (Forall (fun p => 0 <= p)%R pdf) as Hnn by (repeat constructor; lra).
  assert (0 <= step)%R as Hstep by (unfold step; lra).
  split; [exact Hnn|]. split; [exact Hstep|]. split; [reflexivity|].
  exact (pdf2cdf_is_nondecreasing pdf step Hnn Hstep 0%nat 2%nat ltac:(lia) ltac:(cbn; lia)).
Defined.

(** ** The NCP driver: complete runs, resumed runs, other files *)

Section NCPBenchRuns.
Import NCPBench.
Context {metrics : Type}.
Implicit Types (df : list (row metrics)) (st : state metrics).

Lemma already_done_false df n s :
  select n s df = [] -> already_done df n s = false.
Proof. intros Hsel. unfold already_done. rewrite Hsel. apply andb_false_r. Qed.

Lemma already_done_recorded df n s :
  already_done df n s = true -> select n s df <> [].
Proof.
  unfold already_done. intros Hdone Hsel. rewrite Hsel, andb_false_r in Hdone.
  discriminate.
Qed.

Lemma select_results_same (f : Z -> Z -> string -> metrics) n s :
  select n s (results f n s) <> [].
Proof.
  unfold select, results, postprocess_modes. cbn [map].
  rewrite filter_cons_True by (split; reflexivity). discriminate.
Qed.

(** After a sweep every pair it went through has rows in the table. *)
Lemma sweep_records_all f file its st n s :
  (n, s) ∈ its -> select n s (results_df (foldl (body f file) st its)) <> [].
Proof.
  revert st. induction its as [|[n' s'] its IH]; intros st Hin; [inversion Hin|].
  cbn [foldl]. apply elem_of_cons in Hin as [[= -> ->]|Hin]; [|apply IH, Hin].
  assert (select n' s' (results_df (body f file st (n', s'))) <> []) as Hrec.
  { destruct (already_done (results_df st) n' s') eqn:Hdone.
    - rewrite body_skip by exact Hdone. apply already_done_recorded, Hdone.
    - rewrite body_run by exact Hdone. cbn [results_df].
      rewrite select_app. intros Happ. apply app_eq_nil in Happ as [_ Happ].
      exact (select_results_same f n' s' Happ). }
  rewrite (proj1 (sweep_keeps_recorded f file n' s' its _ Hrec)). exact Hrec.
Qed.

(** A sweep over pairs that all have rows changes nothing. *)
Lemma sweep_skips_recorded f file its st :
  (forall n s, (n, s) ∈ its -> select n s (results_df st) <> []) ->
  foldl (body f file) st its = st.
Proof.
  induction its as [|[n' s'] its IH]; intros Hall; [reflexivity|].
  cbn [foldl]. rewrite body_skip.
  - apply IH. intros n s Hin. apply Hall. right. exact Hin.
  - apply already_done_true, Hall. left.
Qed.

(** The log of computed pairs has no influence on the table or on the
    files. *)
Lemma sweep_log_irrelevant f file its df fs log :
  foldl (body f file) (State metrics df fs log) its
  = State metrics
      (results_df (foldl (body f file) (State metrics df fs []) its))
      (files (foldl (body f file) (State metrics df fs []) its))
      (log ++ computed (foldl (body f file) (State metrics df fs []) its)).
Proof.
  revert df fs log. induction its as [|[n' s'] its IH]; intros df fs log; cbn [foldl].
  - cbn. rewrite app_nil_r. reflexivity.
  - destruct (already_done df n' s') eqn:Hdone.
    + rewrite !body_skip by exact Hdone. apply IH.
    + rewrite !body_run by exact Hdone. cbn [results_df files computed].
      rewrite (IH _ _ (log ++ [(n', s')])), (IH _ _ ([] ++ [(n', s')])).
      cbn [results_df files computed app]. rewrite <- app_assoc. reflexivity.
Qed.

(** A sweep over fresh, distinct pairs computes each of them, in order,
    and appends its three rows. *)
Lemma sweep_computes_all f file its st :
  NoDup its ->
  (forall n s, (n, s) ∈ its -> select n s (results_df st) = []) ->
  computed (foldl (body f file) st its) = computed st ++ its /\
  results_df (foldl (body f file) st its)
  = results_df st ++ concat (map (fun ns => results f ns.1 ns.2) its).
Proof.
  revert st. induction its as [|[n' s'] its IH]; intros st Hnd Hfresh; cbn [foldl].
  - cbn. rewrite !app_nil_r. split; reflexivity.
  - apply NoDup_cons in Hnd as [Hnotin Hnd].
    rewrite body_run by (apply already_done_false, Hfresh; left).
    match goal with |- context [foldl _ ?s1 its] => specialize (IH s1 Hnd) end.
    cbn [results_df computed] in IH. destruct IH as [IHc IHr].
    + intros n s Hin. rewrite select_app, Hfresh by (right; exact Hin).
      rewrite select_results_other; [reflexivity|].
      intros [= -> ->]. exact (Hnotin Hin).
    + rewrite IHc, IHr. cbn [map concat fst snd]. rewrite <- !app_assoc.
      split; reflexivity.
Qed.

Lemma iterations_nodup : NoDup iterations.
Proof. apply (bool_decide_unpack (NoDup iterations)). vm_compute. exact I. Qed.

(** A sweep writes to no other path than its own. *)
Lemma sweep_other_paths f file its st path :
  path <> file -> files (foldl (body f file) st its) !! path = files st !! path.
Proof.
  intros Hne. revert st. induction its as [|[n' s'] its IH]; intros st; cbn [foldl];
    [reflexivity|].
  rewrite IH. destruct (already_done (results_df st) n' s') eqn:Hdone.
  - rewrite body_skip by exact Hdone. reflexivity.
  - rewrite body_run by exact Hdone. cbn [files].
    apply lookup_insert_ne. congruence.
Qed.

Lemma length_results_concat (f : Z -> Z -> string -> metrics) (its : list (Z * Z)) :
  length (concat (map (fun ns => results f ns.1 ns.2) its)) = (3 * length its)%nat.
Proof.
  induction its as [|ns its IH]; [reflexivity|].
  cbn [map concat]. rewrite length_app, IH. cbn [length results]. unfold results.
  rewrite length_map. cbn. lia.
Qed.

Lemma iterations_length : length iterations = 50%nat.
Proof. reflexivity. Qed.

(** A table that is not empty and in step with the disk is on the
    disk. *)
Lemma in_sync_nonempty_on_disk (fs : gmap string (list (row metrics))) file df :
  load fs file = df -> df <> [] -> fs !! file = Some df.
Proof.
  unfold load. intros Hsync Hne. destruct (fs !! file) as [df'|].
  - rewrite Hsync. reflexivity.
  - congruence.
Qed.

(** X25.  A run of the NCP driver that finds no results file computes
    every one of the fifty [(n_samples, seed)] pairs, in the order of the
    two loops, appends three rows for each (one per post-processing
    mode), and leaves the table of 150 rows in the results file. *)
Theorem ncp_first_run_computes_every_pair (f : Z -> Z -> string -> metrics)
    (cls : string) (fs0 : gmap string (list (row metrics))) :
  fs0 !! filename cls = None ->
  computed (run_experiment f cls fs0) = iterations /\
  results_df (run_experiment f cls fs0)
  = concat (map (fun ns => results f ns.1 ns.2) iterations) /\
  files (run_experiment f cls fs0) !! filename cls
  = Some (results_df (run_experiment f cls fs0)) /\
  length (results_df (run_experiment f cls fs0)) = 150%nat.
Proof.
  intros Hnone. unfold run_experiment.
  pose proof (sweep_file_in_sync f (filename cls) iterations (start cls fs0)
                (start_in_sync cls fs0)) as Hsync.
  destruct (sweep_computes_all f (filename cls) iterations (start cls fs0)
              iterations_nodup) as [Hc Hr].
  { intros n s _. unfold start, load. rewrite Hnone. reflexivity. }
  assert (results_df (start cls fs0) = []) as Hdf0
    by (unfold start, load; rewrite Hnone; reflexivity).
  rewrite Hdf0, app_nil_l in Hr.
  assert (length (results_df (foldl (body f (filename cls)) (start cls fs0) iterations))
          = 150%nat) as Hlen.
  { rewrite Hr, length_results_concat, iterations_length. reflexivity. }
  split; [exact Hc|]. split; [exact Hr|]. split; [|exact Hlen].
  apply in_sync_nonempty_on_disk; [exact Hsync|].
  intros Hnil. rewrite Hnil in Hlen. discriminate.
Qed.

(** X26.  Resuming is sound: when training and scoring are functions of
    the sample count, the seed and the mode, a run killed after any
    number [k] of iterations and then started again ends with the table
    and the files of a run that was never killed, and the two runs
    together compute the pairs the uninterrupted run computes, each
    once. *)
Theorem ncp_resumed_run_equals_uninterrupted (f : Z -> Z -> string -> metrics)
    (cls : string) (fs0 : gmap string (list (row metrics))) (k : nat) :
  results_df (run_experiment f cls (files (run_interrupted f k cls fs0)))
  = results_df (run_experiment f cls fs0) /\
  files (run_experiment f cls (files (run_interrupted f k cls fs0)))
  = files (run_experiment f cls fs0) /\
  computed (run_interrupted f k cls fs0)
  ++ computed (run_experiment f cls (files (run_interrupted f k cls fs0)))
  = computed (run_experiment f cls fs0).
Proof.
  set (file := filename cls).
  set (st1 := run_interrupted f k cls fs0).
  assert (run_experiment f cls fs0 = foldl (body f file) st1 (drop k iterations)) as Hfull.
  { unfold run_experiment, st1, run_interrupted. fold file.
    rewrite <- foldl_app, take_drop. reflexivity. }
  assert (load (files st1) file = results_df st1) as Hsync.
  { apply sweep_file_in_sync, start_in_sync. }
  assert (run_experiment f cls (files st1)
          = foldl (body f file) (State metrics (results_df st1) (files st1) [])
              (drop k iterations)) as Hre.
  { unfold run_experiment, start. fold file. rewrite Hsync.
    rewrite <- (take_drop k iterations) at 1. rewrite foldl_app. f_equal.
    apply sweep_skips_recorded. intros n s Hin. cbn [results_df].
    apply sweep_records_all, Hin. }
  rewrite Hre, Hfull.
  rewrite (sweep_log_irrelevant f file _ (results_df st1) (files st1) []).
  destruct st1 as [df fs log].
  rewrite (sweep_log_irrelevant f file _ df fs log).
  cbn [results_df files computed app]. split; [reflexivity|]. split; reflexivity.
Qed.

Lemma sweep_after_sweep_is_noop (f1 f2 : Z -> Z -> string -> metrics) file its st0 :
  load (files st0) file = results_df st0 ->
  foldl (body f2 file)
    (State metrics (load (files (foldl (body f1 file) st0 its)) file)
       (files (foldl (body f1 file) st0 its)) []) its
  = State metrics (results_df (foldl (body f1 file) st0 its))
      (files (foldl (body f1 file) st0 its)) [].
Proof.
  intros Hsync0. rewrite (sweep_file_in_sync f1 file its st0 Hsync0).
  apply sweep_skips_recorded. intros n s Hin. cbn [results_df].
  apply sweep_records_all, Hin.
Qed.

(** X27.  After a complete run every pair is recorded: a further run on
    the files it left, whatever its training would give, computes
    nothing and leaves the table and every file as they were. *)
Theorem ncp_rerun_after_complete_run_is_noop (f1 f2 : Z -> Z -> string -> metrics)
    (cls : string) (fs0 : gmap string (list (row metrics))) :
  run_experiment f2 cls (files (run_experiment f1 cls fs0))
  = State metrics (results_df (run_experiment f1 cls fs0))
      (files (run_experiment f1 cls fs0)) [].
Proof.
  exact (sweep_after_sweep_is_noop f1 f2 (filename cls) iterations (start cls fs0)
           (start_in_sync cls fs0)).
Qed.

(** X28.  The driver writes to its own results file only: every other
    path of the file system holds after the run what it held before. *)
Theorem ncp_run_writes_only_results_file (f : Z -> Z -> string -> metrics)
    (cls : string) (fs0 : gmap string (list (row metrics))) (path : string) :
  path <> filename cls ->
  files (run_experiment f cls fs0) !! path = fs0 !! path.
Proof.
  intros Hne. unfold run_experiment. rewrite sweep_other_paths by exact Hne.
  reflexivity.
Qed.

End NCPBenchRuns.

Lemma ncp_first_run_computes_every_pair_witness :
  let f := fun (_ _ : Z) (_ : string) => tt in
  let st := NCPBench.run_experiment f "EconDensity" ∅ in
  (∅ : gmap string (list (NCPBench.row unit))) !! NCPBench.filename "EconDensity" = None /\
  NCPBench.computed st = NCPBench.iterations /\
  length (NCPBench.results_df st) = 150%nat.
Proof.
  intros f st.
  assert ((∅ : gmap string (list (NCPBench.row unit))) !! NCPBench.filename "EconDensity"
          = None) as Hnone by apply lookup_empty.
  destruct (ncp_first_run_computes_every_pair f "EconDensity" ∅ Hnone)
    as (Hc & _ & _ & Hlen).
  split; [exact Hnone|]. split; [exact Hc|exact Hlen].
Defined.

Lemma ncp_run_writes_only_results_file_witness :
  let f := fun (_ _ : Z) (_ : string) => tt in
  let fs0 : gmap string (list (NCPBench.row unit)) := {["notes.pkl" := []]} in
  "notes.pkl" <> NCPBench.filename "EconDensity" /\
  NCPBench.files (NCPBench.run_experiment f "EconDensity" fs0) !! "notes.pkl"
  = fs0 !! "notes.pkl".
Proof.
  intros f fs0.
  assert ("notes.pkl" <> NCPBench.filename "EconDensity") as Hne by (vm_compute; discriminate).
  split; [exact Hne|].
  exact (ncp_run_writes_only_results_file f "EconDensity" fs0 "notes.pkl" Hne).
Defined.
